(** * Live-translate relay: chatbox formatter, reconnect logic, upstream client
      and connection supervisor

    A shallow embedding of [osc_manager.py], [web_translate_client.py] and
    [web_server.py], followed by the properties established about them.

    Conventions of the embedding.
    - A Python [str] is a list of Unicode code points ([Z]); [len] counts
      code points, as Python does.
    - Python integers are [Z]; an index of [-1] is the "not found" result
      of [str.find] / [str.rfind], exactly as in the source.
    - A Python [float] is represented by the rational it denotes.  Every
      float the embedded code computes (powers of two up to 2^1023, 30.0,
      0.0, 3.0, 48000.0) is exactly representable in binary64, so no
      rounding takes place; the one partial operation, [2.0 ** n]
      overflowing, is modelled as the [OverflowError] Python raises.
    - Exceptions are values of [exn]; fallible code returns [result]. *)

From Stdlib Require Import ZArith QArith Qminmax Qpower List Bool Lia Ascii.
From Stdlib Require String.
Import ListNotations String.StringSyntax.
Delimit Scope string_scope with string.
Local Open Scope Z_scope.

(* ================================================================== *)
(** ** Python string primitives *)
(* ================================================================== *)

Module Py.

Definition char := Z.
Definition str := list char.

(** A literal made of ASCII characters only. *)
Definition lit (s : String.string) : str :=
  map (fun a => Z.of_N (N_of_ascii a)) (String.list_ascii_of_string s).
Arguments lit s%_string.

Definition len (s : str) : Z := Z.of_nat (length s).

(** [bool(s)] for a string: non-empty. *)
Definition truthy (s : str) : bool :=
  match s with [] => false | _ => true end.

Definition in_range (lo hi c : Z) : bool := (lo <=? c) && (c <=? hi).

(** [str.isspace] on one code point; also the class [\s] of [re] on
    [str] patterns. *)
Definition isspace (c : char) : bool :=
  in_range 9 13 c || in_range 28 32 c || (c =? 133) || (c =? 160)
  || (c =? 5760) || in_range 8192 8202 c || (c =? 8232) || (c =? 8233)
  || (c =? 8239) || (c =? 8287) || (c =? 12288).

Fixpoint lstrip (s : str) : str :=
  match s with
  | c :: s' => if isspace c then lstrip s' else s
  | [] => []
  end.

Definition rstrip (s : str) : str := rev (lstrip (rev s)).

Definition strip (s : str) : str := rstrip (lstrip s).

(** [s.startswith(p)] *)
Fixpoint startswith (p s : str) : bool :=
  match p, s with
  | [], _ => true
  | _ :: _, [] => false
  | a :: p', b :: s' => (a =? b) && startswith p' s'
  end.

(** [s.find(sub)], counting from offset [i]. *)
Fixpoint find_from (sub s : str) (i : Z) : Z :=
  if startswith sub s then i
  else match s with
       | [] => -1
       | _ :: s' => find_from sub s' (i + 1)
       end.

Definition find (sub s : str) : Z := find_from sub s 0.

(** [s.rfind(sub)], counting from offset [i]. *)
Fixpoint rfind_from (sub s : str) (i : Z) : Z :=
  match s with
  | [] => if startswith sub [] then i else -1
  | _ :: s' =>
      let r := rfind_from sub s' (i + 1) in
      if r =? -1 then (if startswith sub s then i else -1) else r
  end.

Definition rfind (sub s : str) : Z := rfind_from sub s 0.

(** Slice bounds are clamped as Python clamps them. *)
Definition clamp (i : Z) (s : str) : nat :=
  Z.to_nat (Z.min (len s) (if i <? 0 then Z.max 0 (len s + i) else i)).

(** [s[i:]] *)
Definition slice_from (i : Z) (s : str) : str := skipn (clamp i s) s.

(** [s[:i]] *)
Definition slice_to (i : Z) (s : str) : str := firstn (clamp i s) s.

(** [s.replace(old, new)] for a non-empty [old]: non-overlapping
    occurrences, leftmost first.  [skip] counts the characters of the
    current match still to be consumed. *)
Fixpoint replace_skip (old new s : str) (skip : nat) : str :=
  match s with
  | [] => []
  | c :: s' =>
      match skip with
      | S k => replace_skip old new s' k
      | O =>
          if startswith old s
          then new ++ replace_skip old new s' (length old - 1)
          else c :: replace_skip old new s' 0
      end
  end.

Definition replace (old new s : str) : str := replace_skip old new s 0.

Definition LF : char := 10.
Definition CR : char := 13.

(** [str(n)] for a non-negative integer: its decimal digits. *)
Fixpoint digits (d : Decimal.uint) : str :=
  match d with
  | Decimal.Nil => []
  | Decimal.D0 d' => 48 :: digits d'
  | Decimal.D1 d' => 49 :: digits d'
  | Decimal.D2 d' => 50 :: digits d'
  | Decimal.D3 d' => 51 :: digits d'
  | Decimal.D4 d' => 52 :: digits d'
  | Decimal.D5 d' => 53 :: digits d'
  | Decimal.D6 d' => 54 :: digits d'
  | Decimal.D7 d' => 55 :: digits d'
  | Decimal.D8 d' => 56 :: digits d'
  | Decimal.D9 d' => 57 :: digits d'
  end.

Definition str_of_nat (n : nat) : str := digits (Nat.to_uint n).

(** [re.sub(r"\s+", " ", s)]: every maximal run of whitespace becomes one
    space.  [in_run] tells that the previous character was whitespace. *)
Fixpoint collapse_ws (s : str) (in_run : bool) : str :=
  match s with
  | [] => []
  | c :: s' =>
      if isspace c
      then (if in_run then collapse_ws s' true else 32 :: collapse_ws s' true)
      else c :: collapse_ws s' false
  end.

(** Whether the next character of [s] is [c]. *)
Definition next_is (c : char) (s : str) : bool :=
  match s with n :: _ => n =? c | [] => false end.

End Py.

(* ================================================================== *)
(** ** Exceptions and fallible, stateful computations *)
(* ================================================================== *)

Module Exc.
Import Py.

Inductive exn_kind :=
| TimeoutError
| ConnectionClosed
| OverflowError
| ValueError
| AttributeError
| KeyError
| JSONDecodeError
| OtherError.

(** What the code looks at in an exception [e]: its class, the attribute
    [e.code] when there is one ([getattr(e, 'code', None)]) and
    [str(e.args[0])] when [e.args] is not empty. *)
Record exn := {
  exn_kind_of : exn_kind;
  exn_code : option Z;
  exn_arg0 : option str
}.

(** The [TimeoutError] of [asyncio.wait_for]: no [code], empty [args]. *)
Definition timeout_error : exn :=
  {| exn_kind_of := TimeoutError; exn_code := None; exn_arg0 := None |}.

(** The [OverflowError] of a float power out of range:
    [args = (34, 'Numerical result out of range')]. *)
Definition overflow_error : exn :=
  {| exn_kind_of := OverflowError; exn_code := None;
     exn_arg0 := Some (lit "34") |}.

Definition simple_error (k : exn_kind) (msg : str) : exn :=
  {| exn_kind_of := k; exn_code := None; exn_arg0 := Some msg |}.

Inductive result (A : Type) :=
| Ok (a : A)
| Raise (e : exn).
Arguments Ok {A} a.
Arguments Raise {A} e.

(** A computation on a mutable state [S] that returns or raises; the
    state changes made before a [Raise] persist, as mutations do. *)
Definition M (S A : Type) : Type := S -> result A * S.

Definition ret {S A} (a : A) : M S A := fun s => (Ok a, s).

Definition raise {S A} (e : exn) : M S A := fun s => (Raise e, s).

Definition bind {S A B} (m : M S A) (k : A -> M S B) : M S B :=
  fun s =>
    match m s with
    | (Ok a, s') => k a s'
    | (Raise e, s') => (Raise e, s')
    end.

(** [try: m  except Exception as e: h e] *)
Definition try_except {S A} (m : M S A) (h : exn -> M S A) : M S A :=
  fun s =>
    match m s with
    | (Ok a, s') => (Ok a, s')
    | (Raise e, s') => h e s'
    end.

Definition get {S} : M S S := fun s => (Ok s, s).

Definition put {S} (s : S) : M S unit := fun _ => (Ok tt, s).

Definition modify {S} (f : S -> S) : M S unit := fun s => (Ok tt, f s).

Definition when {S} (b : bool) (m : M S unit) : M S unit :=
  if b then m else ret tt.

(** A result computed without touching the state. *)
Definition lift {S A} (r : result A) : M S A := fun s => (r, s).

(** Access to one object [T] inside a larger state [S]. *)
Record lens (S T : Type) := {
  view : S -> T;
  update : T -> S -> S
}.
Arguments view {S T} l s.
Arguments update {S T} l t s.

(** Running a computation on the object a lens points to. *)
Definition zoom {S T A} (l : lens S T) (m : M T A) : M S A :=
  fun s => let '(r, t) := m (view l s) in (r, update l t s).

End Exc.

Declare Scope py_scope.
Delimit Scope py_scope with py.
Notation "x <- m ;; k" := (Exc.bind m (fun x => k))
  (at level 61, m at next level, right associativity) : py_scope.
Notation "m ;; k" := (Exc.bind m (fun _ => k))
  (at level 61, right associativity) : py_scope.

(* ================================================================== *)
(** ** Python values and the transports *)
(* ================================================================== *)

Module Val.
Import Py Exc.

Definition bytes := list Z.

(** The Python values that JSON payloads and the session settings hold. *)
#[warnings="-register-all"]
Inductive pyval :=
| PyNone
| PyBool (b : bool)
| PyNum (q : Q)
| PyStr (s : str)
| PyList (l : list pyval)
| PyDict (d : list (str * pyval)).

(** [bool(v)] *)
Definition val_truthy (v : pyval) : bool :=
  match v with
  | PyNone => false
  | PyBool b => b
  | PyNum q => negb (Qeq_bool q 0)
  | PyStr s => truthy s
  | PyList l => match l with [] => false | _ :: _ => true end
  | PyDict d => match d with [] => false | _ :: _ => true end
  end.

Definition is_none (v : pyval) : bool :=
  match v with PyNone => true | _ => false end.

Fixpoint str_eqb (a b : str) : bool :=
  match a, b with
  | [], [] => true
  | x :: a', y :: b' => (x =? y) && str_eqb a' b'
  | _, _ => false
  end.

(** [v == "literal"] *)
Definition val_is_str (v : pyval) (s : str) : bool :=
  match v with PyStr t => str_eqb t s | _ => false end.

(** [k in d] and [d.get(k, default)] on the items of a dict. *)
Fixpoint lookup (d : list (str * pyval)) (k : str) : option pyval :=
  match d with
  | [] => None
  | (k', v) :: d' => if str_eqb k' k then Some v else lookup d' k
  end.

Definition dict_get (d : list (str * pyval)) (k : str) (default : pyval)
  : pyval :=
  match lookup d k with Some v => v | None => default end.

(** [v.get(k, default)]: only a dict has [get]. *)
Definition val_get (v : pyval) (k : str) (default : pyval) : result pyval :=
  match v with
  | PyDict d => Ok (dict_get d k default)
  | _ => Raise (simple_error AttributeError (lit "object has no attribute 'get'"))
  end.

(** The events the client sends upstream.  On the wire each is a JSON
    object with [event_id = f"event_{int(t * 1000)}"] for the clock
    reading [t], and with its audio or image base64-encoded. *)
Inductive upstream_msg :=
| SessionUpdate (t : Q) (modalities : list str) (voice : option pyval)
    (language : pyval)
| InputAudioBufferAppend (t : Q) (audio : bytes)
| InputImageBufferAppend (t : Q) (image : bytes).

(** A websocket connection to the translation service: what was sent on
    it, and the exception [send] raises once it is closed. *)
Record Ws := {
  ws_failure : option exn;
  ws_sent : list upstream_msg
}.

Definition fresh_ws : Ws := {| ws_failure := None; ws_sent := [] |}.

(** [await ws.send(...)] *)
Definition ws_send (m : upstream_msg) : M Ws unit :=
  fun w =>
    match ws_failure w with
    | Some e => (Raise e, w)
    | None => (Ok tt, {| ws_failure := None; ws_sent := ws_sent w ++ [m] |})
    end.

(** The exception of a send on a connection this side has closed. *)
Definition closed_here : exn :=
  {| exn_kind_of := ConnectionClosed; exn_code := Some 1000;
     exn_arg0 := None |}.

(** The connection closes; from now on its sends raise [e], unless it was
    closed before. *)
Definition ws_fail (e : exn) (w : Ws) : Ws :=
  {| ws_failure :=
       match ws_failure w with Some e0 => Some e0 | None => Some e end;
     ws_sent := ws_sent w |}.

(** [await ws.close()] *)
Definition ws_close (w : Ws) : Ws := ws_fail closed_here w.

(** [int(x)] on a float: truncation towards zero. *)
Definition py_int (x : Q) : Z := Z.quot (Qnum x) (Zpos (Qden x)).

End Val.

(* ================================================================== *)
(** ** osc_manager.py *)
(* ================================================================== *)

Module OSC.
Import Py Exc Val.

Definition MAX_LENGTH : Z := 144.

(** The list [SENTENCE_ENDERS] of [_truncate_text], in source order. *)
Definition SENTENCE_ENDERS : list str :=
  [ [46]; [63]; [33]; [44];
    [12290]; [65311]; [65281]; [65292];
    [8230]; [46; 46; 46]; [8253];
    [1417]; [1567]; [59]; [1548];
    [2404]; [2405]; [4962]; [4171]; [3853];
    [12289]; [8218]; [1643] ].

(** The [for ender in SENTENCE_ENDERS] loop: the smallest index at which
    some ender occurs, [-1] when none does. *)
Definition first_sentence_end (text : str) : Z :=
  fold_left
    (fun first_end ender =>
       let idx := find ender text in
       if negb (idx =? -1) && ((first_end =? -1) || (idx <? first_end))
       then idx else first_end)
    SENTENCE_ENDERS (-1).

(** The [while len(text) > max_length] loop.  [None] only when the fuel
    runs out. *)
Fixpoint truncate_loop (fuel : nat) (text : str) (max_length : Z)
  : option str :=
  match fuel with
  | O => None
  | S fuel' =>
      if len text >? max_length then
        let first_end := first_sentence_end text in
        if negb (first_end =? -1)
        then truncate_loop fuel'
               (lstrip (slice_from (first_end + 1) text)) max_length
        else Some (slice_from (len text - max_length) text)
      else Some text
  end.

(** [OSCManager._truncate_text] *)
Definition _truncate_text (text : str) (max_length : Z) : option str :=
  if len text <=? max_length then Some text
  else truncate_loop (S (length text)) text max_length.

(** [text.replace("\r\n", "\n").replace("\r", "\n")] *)
Definition normalize_newlines (text : str) : str :=
  replace [CR] [LF] (replace [CR; LF] [LF] text).

(** The character class of the first [re.sub] of
    [_insert_newlines_after_sentence_enders]. *)
Definition is_break_punct (c : char) : bool :=
  (c =? 12290) || (c =? 65281) || (c =? 65311) || (c =? 33) || (c =? 63)
  || (c =? 8230).

(** [re.sub(r"([...])(?!\n)\s*", r"\1\n", s)].  [skipping] tells that the
    scan is inside the [\s*] of a match. *)
Fixpoint sub_enders (s : str) (skipping : bool) : str :=
  match s with
  | [] => []
  | c :: s' =>
      if skipping && isspace c then sub_enders s' true
      else if is_break_punct c && negb (next_is LF s')
           then c :: LF :: sub_enders s' true
           else c :: sub_enders s' false
  end.

(** The closing quotes and brackets of the lookahead after a full stop. *)
Definition is_closer (c : char) : bool :=
  (c =? 34) || (c =? 39) || (c =? 41) || (c =? 93) || (c =? 125)
  || (c =? 12299) || (c =? 12301) || (c =? 12303) || (c =? 8221)
  || (c =? 8217).

(** The lookahead [(?=(\s|$|[closers]))] at the text [s] that follows. *)
Definition dot_lookahead (s : str) : bool :=
  match s with
  | [] => true
  | n :: _ => isspace n || is_closer n
  end.

Definition prev_is_dot (prev : option char) : bool :=
  match prev with Some p => p =? 46 | None => false end.

(** The second [re.sub]: a full stop not preceded by a full stop, followed
    by whitespace, the end or a closer, and not directly by a newline. *)
Fixpoint sub_dots (s : str) (prev : option char) (skipping : bool) : str :=
  match s with
  | [] => []
  | c :: s' =>
      if skipping && isspace c then sub_dots s' (Some c) true
      else if (c =? 46) && negb (prev_is_dot prev) && dot_lookahead s'
              && negb (next_is LF s')
           then 46 :: LF :: sub_dots s' (Some c) true
           else c :: sub_dots s' (Some c) false
  end.

(** [OSCManager._insert_newlines_after_sentence_enders] *)
Definition _insert_newlines_after_sentence_enders (text : str) : str :=
  if negb (truthy text) then text
  else
    let text := normalize_newlines text in
    let text := sub_enders text false in
    sub_dots text None false.

Definition DOTS : str := [46; 46; 46].
Definition CJK_ELLIPSIS : str := [8230; 8230].

(** The inner function [find_last_delim] of
    [_split_confirmed_unconfirmed]; [text] is the enclosing variable. *)
Definition find_last_delim (text delim : str) : Z :=
  let idx := rfind delim text in
  if idx =? -1 then -1
  else
    let left := slice_to idx text in
    let right := slice_from (idx + len delim) text in
    if truthy (strip left) && truthy (strip right) then idx else -1.

(** [OSCManager._split_confirmed_unconfirmed]: [None], or
    [(confirmed, delimiter, unconfirmed)]. *)
Definition _split_confirmed_unconfirmed (text : str)
  : option (str * str * str) :=
  if negb (truthy text) then None
  else
    let text := normalize_newlines text in
    let idx := find_last_delim text DOTS in
    let delim := DOTS in
    let '(idx, delim) :=
      if idx =? -1 then (find_last_delim text CJK_ELLIPSIS, CJK_ELLIPSIS)
      else (idx, delim) in
    if idx =? -1 then None
    else
      let confirmed := rstrip (slice_to idx text) in
      let unconfirmed := strip (slice_from (idx + len delim) text) in
      Some (confirmed, delim, unconfirmed).

(** [f"__BRACKETED_{n}__"] *)
Definition placeholder (n : nat) : str :=
  lit "__BRACKETED_" ++ str_of_nat n ++ lit "__".

(** The text up to the first closing bracket, and the length of it. *)
Fixpoint until_close (s : str) : option str :=
  match s with
  | [] => None
  | c :: s' =>
      if c =? 93 then Some []
      else match until_close s' with
           | Some inside => Some (c :: inside)
           | None => None
           end
  end.

(** [_bracket_replacer] on the match [content]: the text stored in
    [bracketed_segments]. *)
Definition bracket_content (content : str) : str :=
  strip (collapse_ws content false).

(** [re.sub(r"\[[^\]]*\]", _bracket_replacer, text)]: the protected text
    and the segments appended to [bracketed_segments].  [n] is the number
    of segments stored so far, [skip] the characters of the current match
    still to be consumed. *)
Fixpoint protect_brackets (s : str) (skip n : nat) : str * list str :=
  match s with
  | [] => ([], [])
  | c :: s' =>
      match skip with
      | S k => protect_brackets s' k n
      | O =>
          match (if c =? 91 then until_close s' else None) with
          | Some inside =>
              let '(out, segs) :=
                protect_brackets s' (S (length inside)) (S n) in
              (placeholder n ++ out,
               bracket_content (91 :: inside ++ [93]) :: segs)
          | None =>
              let '(out, segs) := protect_brackets s' 0 n in
              (c :: out, segs)
          end
      end
  end.

(** The loop [for idx, content in enumerate(bracketed_segments)] that puts
    the segments back, from index [idx] on. *)
Fixpoint restore_brackets (segs : list str) (idx : nat) (formatted : str)
  : str :=
  match segs with
  | [] => formatted
  | content :: segs' =>
      restore_brackets segs' (S idx) (replace (placeholder idx) content formatted)
  end.

(** [OSCManager._format_text_for_chatbox] *)
Definition _format_text_for_chatbox (text : str) : str :=
  if negb (truthy text) then text
  else
    let text := normalize_newlines text in
    let '(protected_text, bracketed_segments) := protect_brackets text 0 0 in
    match _split_confirmed_unconfirmed protected_text with
    | None =>
        let formatted := _insert_newlines_after_sentence_enders protected_text in
        restore_brackets bracketed_segments 0 formatted
    | Some (confirmed, delim, unconfirmed) =>
        let confirmed_formatted :=
          rstrip (_insert_newlines_after_sentence_enders confirmed) in
        let unconfirmed_single_line := strip (collapse_ws unconfirmed false) in
        if negb (truthy confirmed_formatted) then unconfirmed_single_line
        else if negb (truthy unconfirmed_single_line) then
          restore_brackets bracketed_segments 0 confirmed_formatted
        else
          let formatted :=
            confirmed_formatted ++ delim ++ [LF] ++ unconfirmed_single_line in
          restore_brackets bracketed_segments 0 formatted
    end.

(** A call [client.send_message(address, args)] on the UDP client.  What
    the UDP library does with it, failures included, stays inside
    [send_text], which catches and logs them. *)
Inductive osc_call :=
| SendMessage (address : str) (args : list pyval).

(** The process-wide [OSCManager]: the formatting mode, whether a mute
    callback is registered, and the calls made on the UDP client. *)
Record OSCManager := {
  _line_breaks_enabled : bool;
  _mute_callback : bool;
  osc_calls : list osc_call
}.

Definition set_line_breaks_enabled (enabled : bool) (self : OSCManager) :=
  {| _line_breaks_enabled := enabled;
     _mute_callback := _mute_callback self;
     osc_calls := osc_calls self |}.

Definition set_mute_callback (self : OSCManager) :=
  {| _line_breaks_enabled := _line_breaks_enabled self;
     _mute_callback := true;
     osc_calls := osc_calls self |}.

Definition clear_mute_callback (self : OSCManager) :=
  {| _line_breaks_enabled := _line_breaks_enabled self;
     _mute_callback := false;
     osc_calls := osc_calls self |}.

Definition call (c : osc_call) (self : OSCManager) :=
  {| _line_breaks_enabled := _line_breaks_enabled self;
     _mute_callback := _mute_callback self;
     osc_calls := osc_calls self ++ [c] |}.

(** [_format_text_for_chatbox] on any value: a falsy one is returned as
    it is, and only a string has [replace]. *)
Definition format_val (text : pyval) : result pyval :=
  if negb (val_truthy text) then Ok text
  else
    match text with
    | PyStr s => Ok (PyStr (_format_text_for_chatbox s))
    | _ => Raise (simple_error AttributeError (lit "replace"))
    end.

(** [_truncate_text] on any value: [len] needs a sized value, [find] a
    string.  The loop on a string always returns
    (see [truncate_text_bounded]). *)
Definition truncate_val (text : pyval) : result pyval :=
  match text with
  | PyStr s =>
      Ok (PyStr (match _truncate_text s MAX_LENGTH with
                 | Some r => r
                 | None => s
                 end))
  | PyList l =>
      if Z.of_nat (length l) <=? MAX_LENGTH then Ok text
      else Raise (simple_error AttributeError (lit "find"))
  | PyDict d =>
      if Z.of_nat (length d) <=? MAX_LENGTH then Ok text
      else Raise (simple_error AttributeError (lit "find"))
  | _ => Raise (simple_error OtherError (lit "object has no len()"))
  end.

(** [OSCManager.send_text] *)
Definition send_text (text : pyval) (ongoing enabled : bool)
  : M OSCManager unit :=
  (if negb enabled then ret tt
   else
     self <- get ;;
     text <- (if _line_breaks_enabled self then lift (format_val text)
              else ret text) ;;
     text <- lift (truncate_val text) ;;
     modify (call (SendMessage (lit "/chatbox/typing") [PyBool ongoing])) ;;
     modify (call (SendMessage (lit "/chatbox/input")
                     [text; PyBool true; PyBool (negb ongoing)])))%py.

End OSC.

(* ================================================================== *)
(** ** web_server.py: the reconnect manager *)
(* ================================================================== *)

Module Reconnect.
Import Exc.

Definition MAX_RECONNECT_ATTEMPTS : Z := 5.
Definition INITIAL_RECONNECT_DELAY : Q := 1.
Definition MAX_RECONNECT_DELAY : Q := 30.
Definition RECONNECT_BACKOFF_FACTOR : Q := 2.

Record ReconnectManager := {
  reconnect_attempts : Z;
  last_reconnect_time : Q;
  is_reconnecting : bool
}.

(** [ReconnectManager.__init__] *)
Definition init : ReconnectManager :=
  {| reconnect_attempts := 0; last_reconnect_time := 0;
     is_reconnecting := false |}.

(** [error_code == n], for an [error_code] that is [None] or an integer. *)
Definition code_is (error_code : option Z) (n : Z) : bool :=
  match error_code with Some c => c =? n | None => false end.

(** [error_code in codes] *)
Definition code_in (error_code : option Z) (codes : list Z) : bool :=
  existsb (code_is error_code) codes.

(** [ReconnectManager.should_reconnect] *)
Definition should_reconnect (self : ReconnectManager) (error_code : option Z)
  : bool :=
  if reconnect_attempts self >=? MAX_RECONNECT_ATTEMPTS then false
  else if code_is error_code 1011 then true
  else if code_in error_code [1006; 1011; 1012; 1013; 1014; 1015] then true
  else false.

(** [2.0 ** n] for an integer [n]: exact for [-1074 <= n <= 1023], zero
    below (underflow raises nothing), [OverflowError] above. *)
Definition float_pow2 (n : Z) : result Q :=
  if n >? 1023 then Raise overflow_error
  else if n <? -1074 then Ok 0%Q
  else Ok (Qpower RECONNECT_BACKOFF_FACTOR n).

(** The builtin [min(a, b)]: [b] when [b < a], else [a]. *)
Definition py_min (a b : Q) : Q :=
  match Qcompare b a with Lt => b | _ => a end.

(** [ReconnectManager.get_reconnect_delay] *)
Definition get_reconnect_delay (self : ReconnectManager)
  (error_code : option Z) : result Q :=
  if code_is error_code 1011 then Ok 0%Q
  else
    match float_pow2 (reconnect_attempts self) with
    | Raise e => Raise e
    | Ok p =>
        Ok (py_min (Qmult INITIAL_RECONNECT_DELAY p) MAX_RECONNECT_DELAY)
    end.

(** [ReconnectManager.increment_attempts]; [now] is [time.time()]. *)
Definition increment_attempts (self : ReconnectManager) (now : Q)
  : ReconnectManager :=
  {| reconnect_attempts := reconnect_attempts self + 1;
     last_reconnect_time := now;
     is_reconnecting := is_reconnecting self |}.

(** [ReconnectManager.reset] *)
Definition reset (self : ReconnectManager) : ReconnectManager :=
  {| reconnect_attempts := 0; last_reconnect_time := 0;
     is_reconnecting := false |}.

End Reconnect.

(* ================================================================== *)
(** ** web_translate_client.py *)
(* ================================================================== *)

Module Client.
Import Py Exc Val.
Local Open Scope py_scope.

Record WebTranslateClient := {
  api_key : str;
  target_language : pyval;
  audio_enabled : pyval;
  voice : pyval;
  ws : option Ws;
  input_rate : Z;
  is_connected : bool;
  is_processing_audio : bool;
  osc_mute_control_enabled : bool;
  send_to_osc_enabled : bool;
  translation_start_time : option Q
}.

Definition set_ws (w : option Ws) (c : WebTranslateClient) :=
  {| api_key := api_key c; target_language := target_language c;
     audio_enabled := audio_enabled c; voice := voice c; ws := w;
     input_rate := input_rate c; is_connected := is_connected c;
     is_processing_audio := is_processing_audio c;
     osc_mute_control_enabled := osc_mute_control_enabled c;
     send_to_osc_enabled := send_to_osc_enabled c;
     translation_start_time := translation_start_time c |}.

Definition set_is_connected (b : bool) (c : WebTranslateClient) :=
  {| api_key := api_key c; target_language := target_language c;
     audio_enabled := audio_enabled c; voice := voice c; ws := ws c;
     input_rate := input_rate c; is_connected := b;
     is_processing_audio := is_processing_audio c;
     osc_mute_control_enabled := osc_mute_control_enabled c;
     send_to_osc_enabled := send_to_osc_enabled c;
     translation_start_time := translation_start_time c |}.

Definition set_is_processing_audio (b : bool) (c : WebTranslateClient) :=
  {| api_key := api_key c; target_language := target_language c;
     audio_enabled := audio_enabled c; voice := voice c; ws := ws c;
     input_rate := input_rate c; is_connected := is_connected c;
     is_processing_audio := b;
     osc_mute_control_enabled := osc_mute_control_enabled c;
     send_to_osc_enabled := send_to_osc_enabled c;
     translation_start_time := translation_start_time c |}.

Definition set_translation_start_time (t : option Q) (c : WebTranslateClient) :=
  {| api_key := api_key c; target_language := target_language c;
     audio_enabled := audio_enabled c; voice := voice c; ws := ws c;
     input_rate := input_rate c; is_connected := is_connected c;
     is_processing_audio := is_processing_audio c;
     osc_mute_control_enabled := osc_mute_control_enabled c;
     send_to_osc_enabled := send_to_osc_enabled c;
     translation_start_time := t |}.

Definition set_session (lang ae v : pyval) (c : WebTranslateClient) :=
  {| api_key := api_key c; target_language := lang;
     audio_enabled := ae; voice := v; ws := ws c;
     input_rate := input_rate c; is_connected := is_connected c;
     is_processing_audio := is_processing_audio c;
     osc_mute_control_enabled := osc_mute_control_enabled c;
     send_to_osc_enabled := send_to_osc_enabled c;
     translation_start_time := translation_start_time c |}.

(** [WebTranslateClient.__init__] *)
Definition __init__ (api_key : str) (target_language voice audio_enabled : pyval)
  (osc_mute_control send_to_osc : bool) : result WebTranslateClient :=
  if negb (truthy api_key)
  then Raise (simple_error ValueError (lit "API key cannot be empty."))
  else
    Ok {| api_key := api_key;
          target_language := target_language;
          audio_enabled := audio_enabled;
          voice := if val_truthy audio_enabled then voice
                   else PyStr (lit "Cherry");
          ws := None;
          input_rate := 16000;
          is_connected := false;
          is_processing_audio := true;
          osc_mute_control_enabled := osc_mute_control;
          send_to_osc_enabled := send_to_osc;
          translation_start_time := None |}.

(** [await self.ws.send(...)]; without a connection object the attribute
    access on [None] raises. *)
Definition send (m : upstream_msg) : M WebTranslateClient unit :=
  fun self =>
    match ws self with
    | None =>
        (Raise (simple_error AttributeError
                  (lit "'NoneType' object has no attribute 'send'")), self)
    | Some w => let '(r, w') := ws_send m w in (r, set_ws (Some w') self)
    end.

(** [WebTranslateClient._send_silence]; [now] is the clock reading. *)
Definition _send_silence (duration_seconds : Q) (now : Q)
  : M WebTranslateClient unit :=
  self <- get ;;
  if negb (is_connected self)
     || negb (match ws self with Some _ => true | None => false end)
  then ret tt
  else
    try_except
      (let num_samples :=
         py_int (Qmult (inject_Z (input_rate self)) duration_seconds) in
       let silence_data := repeat 0 (Z.to_nat (num_samples * 2)) in
       send (InputAudioBufferAppend now silence_data))
      (fun _ => ret tt).

(** [WebTranslateClient.pause_audio_processing] *)
Definition pause_audio_processing (now : Q) : M WebTranslateClient unit :=
  self <- get ;;
  if is_processing_audio self then
    modify (set_is_processing_audio false) ;;
    modify (set_translation_start_time (Some now)) ;;
    _send_silence 3 now
  else ret tt.

(** [WebTranslateClient.resume_audio_processing] *)
Definition resume_audio_processing : M WebTranslateClient unit :=
  modify (set_is_processing_audio true).

(** The session configuration message of [configure_session] and
    [update_session]. *)
Definition session_config (self : WebTranslateClient) (now : Q)
  : upstream_msg :=
  SessionUpdate now
    (if val_truthy (audio_enabled self) then [lit "text"; lit "audio"]
     else [lit "text"])
    (if val_truthy (audio_enabled self) && val_truthy (voice self)
     then Some (voice self) else None)
    (target_language self).

(** [WebTranslateClient.configure_session] *)
Definition configure_session (now : Q) : M WebTranslateClient unit :=
  self <- get ;; send (session_config self now).

(** [WebTranslateClient.connect]; [outcome] is what
    [await websockets.connect(...)] gives. *)
Definition connect (outcome : result Ws) (now : Q)
  : M WebTranslateClient unit :=
  try_except
    (match outcome with
     | Raise e => raise e
     | Ok w =>
         modify (set_ws (Some w)) ;;
         modify (set_is_connected true) ;;
         configure_session now
     end)
    (fun e => modify (set_is_connected false) ;; raise e).

(** [WebTranslateClient.update_session] *)
Definition update_session (target_language' voice' audio_enabled' : pyval)
  (now : Q) : M WebTranslateClient unit :=
  modify (fun self =>
            set_session
              (if is_none target_language' then target_language self
               else target_language')
              (if is_none audio_enabled' then audio_enabled self
               else audio_enabled')
              (if is_none voice' then voice self else voice')
              self) ;;
  self <- get ;;
  send (session_config self now).

(** [WebTranslateClient.send_audio_chunk] *)
Definition send_audio_chunk (audio_data : bytes) (now : Q)
  : M WebTranslateClient unit :=
  self <- get ;;
  if negb (is_connected self) then ret tt
  else if negb (is_processing_audio self) then ret tt
  else send (InputAudioBufferAppend now audio_data).

(** [WebTranslateClient.send_image_frame], without an explicit event id. *)
Definition send_image_frame (image_bytes : bytes) (now : Q)
  : M WebTranslateClient unit :=
  self <- get ;;
  if negb (is_connected self) then ret tt
  else
    match image_bytes with
    | [] => raise (simple_error ValueError (lit "image_bytes"))
    | _ :: _ => send (InputImageBufferAppend now image_bytes)
    end.

(** [WebTranslateClient.close] *)
Definition close : M WebTranslateClient unit :=
  modify (set_is_connected false) ;;
  modify (fun self =>
            match ws self with
            | Some w => set_ws (Some (ws_close w)) self
            | None => self
            end).

(** [WebTranslateClient.update_token_usage]: the counters it reads are
    only printed; what remains is that every [get] needs a dict. *)
Definition update_token_usage (usage : pyval) : result unit :=
  if negb (val_truthy usage) then Ok tt
  else
    match val_get usage (lit "total_tokens") (PyNum 0) with
    | Raise e => Raise e
    | Ok _ =>
        match val_get usage (lit "input_tokens_details") (PyDict []) with
        | Raise e => Raise e
        | Ok input_details =>
            match val_get input_details (lit "text_tokens") (PyNum 0) with
            | Raise e => Raise e
            | Ok _ =>
                match val_get usage (lit "output_tokens_details") (PyDict [])
                with
                | Raise e => Raise e
                | Ok output_details =>
                    match val_get output_details (lit "text_tokens") (PyNum 0)
                    with
                    | Raise e => Raise e
                    | Ok _ => Ok tt
                    end
                end
            end
        end
    end.

(** What the iteration [async for message in self.ws] yields next: a
    message, given by the value [json.loads] makes of it ([None] when it
    is not JSON); an exception (the connection was closed abnormally); or
    the end of the iteration (the connection was closed normally). *)
Inductive stream_item :=
| StreamMessage (message : option pyval)
| StreamRaises (e : exn)
| StreamEnds.

Inductive loop_status := Continue | Stop.

Section Reader.

Context {S : Type}.

(** The client object, and the process-wide OSC manager, in the state. *)
Variable self_ : lens S WebTranslateClient.
Variable osc_ : lens S OSC.OSCManager.

(** [base64.b64decode] *)
Variable b64decode : pyval -> result bytes.

(** The callbacks handed to [handle_server_messages]. *)
Variable on_text_received : pyval -> M S unit.
Variable on_audio_received : option (bytes -> M S unit).

(** [WebTranslateClient.send_osc_text] *)
Definition send_osc_text (text : pyval) (ongoing : bool) : M S unit :=
  self <- zoom self_ get ;;
  when (negb ongoing
        && match translation_start_time self with
           | Some _ => true
           | None => false
           end)
    (zoom self_ (modify (set_translation_start_time None))) ;;
  zoom osc_ (OSC.send_text text ongoing (send_to_osc_enabled self)).

(** [text = event.get(key, ""); if text and on_text_received: ...] *)
Definition deliver_text (event : pyval) (key : str) : M S unit :=
  text <- lift (val_get event key (PyStr [])) ;;
  when (val_truthy text) (on_text_received text).

(** The last [else] of the dispatch: an event with a [text] key is an
    incomplete recognition, shown with its stash. *)
Definition handle_partial (event : pyval) : M S unit :=
  match event with
  | PyDict d =>
      match lookup d (lit "text") with
      | None => ret tt
      | Some result =>
          match lookup d (lit "stash") with
          | None => raise (simple_error KeyError (lit "'stash'"))
          | Some (PyStr stash) =>
              let shown :=
                if startswith (lit " ") stash then slice_from 1 stash
                else stash in
              let suffix := lit " ... [" ++ shown ++ lit "]" in
              match result with
              | PyStr r => send_osc_text (PyStr (r ++ suffix)) true
              | PyList l =>
                  send_osc_text
                    (PyList (l ++ map (fun c => PyStr [c]) suffix)) true
              | _ => raise (simple_error OtherError (lit "unsupported +="))
              end
          | Some _ =>
              raise (simple_error AttributeError (lit "startswith"))
          end
      end
  | _ => raise (simple_error OtherError (lit "not iterable"))
  end.

(** The body of the loop of [handle_server_messages] on one message. *)
Definition handle_event (message : option pyval) : M S unit :=
  event <- lift (match message with
                 | Some v => Ok v
                 | None => Raise (simple_error JSONDecodeError (lit "json"))
                 end) ;;
  event_type <- lift (val_get event (lit "type") PyNone) ;;
  self <- zoom self_ get ;;
  if val_is_str event_type (lit "response.audio_transcript.delta") then
    deliver_text event (lit "transcript")
  else if val_is_str event_type (lit "response.text.delta") then
    deliver_text event (lit "delta")
  else if val_is_str event_type (lit "response.output_text.delta") then
    deliver_text event (lit "delta")
  else if val_is_str event_type (lit "response.audio.delta")
          && val_truthy (audio_enabled self) then
    audio_b64 <- lift (val_get event (lit "delta") (PyStr [])) ;;
    if val_truthy audio_b64 then
      audio_data <- lift (b64decode audio_b64) ;;
      match on_audio_received with
      | Some f => f audio_data
      | None => ret tt
      end
    else ret tt
  else if val_is_str event_type (lit "response.done") then
    response <- lift (val_get event (lit "response") (PyDict [])) ;;
    usage <- lift (val_get response (lit "usage") (PyDict [])) ;;
    when (val_truthy usage) (lift (update_token_usage usage))
  else if val_is_str event_type (lit "response.audio_transcript.done") then
    deliver_text event (lit "transcript")
  else if val_is_str event_type (lit "response.text.done") then
    text <- lift (val_get event (lit "text") (PyStr [])) ;;
    when (val_truthy text)
      (send_osc_text text false ;; on_text_received text)
  else if val_is_str event_type (lit "session.updated") then ret tt
  else handle_partial event.

(** One turn of [async for message in self.ws] inside the [try] of
    [handle_server_messages]: both [except] clauses mark the client
    disconnected and end the method normally. *)
Definition reader_iteration (item : stream_item) : M S loop_status :=
  try_except
    (match item with
     | StreamMessage message => handle_event message ;; ret Continue
     | StreamRaises e => raise e
     | StreamEnds => ret Stop
     end)
    (fun _ => zoom self_ (modify (set_is_connected false)) ;; ret Stop).

(** [WebTranslateClient.handle_server_messages] on the items its
    connection yields; an empty list is a connection still open and
    silent. *)
Fixpoint handle_server_messages (stream : list stream_item) : M S unit :=
  match stream with
  | [] => ret tt
  | item :: stream' =>
      status <- reader_iteration item ;;
      match status with
      | Continue => handle_server_messages stream'
      | Stop => ret tt
      end
  end.

End Reader.

End Client.

(* ================================================================== *)
(** ** web_server.py: the connection supervisor *)
(* ================================================================== *)

Module Server.
Import Py Exc Val Reconnect.
Local Open Scope py_scope.

Definition HEARTBEAT_INTERVAL : Z := 25.
Definition WEBSOCKET_TIMEOUT : Z := 60.

(** What the server sends to the browser: [send_json] of a translation
    text, or [send_bytes] of audio. *)
Inductive browser_msg :=
| SendJson (data : pyval)
| SendBytes (audio : bytes).

(** The browser connection: what was sent on it, and the exception its
    sends raise once it is broken. *)
Record Browser := {
  browser_failure : option exn;
  browser_sent : list browser_msg
}.

Definition browser_send (m : browser_msg) : M Browser unit :=
  fun b =>
    match browser_failure b with
    | Some e => (Raise e, b)
    | None =>
        (Ok tt, {| browser_failure := None;
                   browser_sent := browser_sent b ++ [m] |})
    end.

(** An [asyncio] task as the supervisor sees it. *)
Inductive task :=
| NoTask
| Running
| Done (outcome : result unit)
| Cancelled.

Definition task_done (t : task) : bool :=
  match t with Done _ | Cancelled => true | _ => false end.

Definition task_truthy (t : task) : bool :=
  match t with NoTask => false | _ => true end.

(** [task.cancel()] *)
Definition cancel (t : task) : task :=
  match t with Running => Cancelled | _ => t end.

(** Where the coroutine [websocket_endpoint] stands: awaiting the
    connection of a new client, awaiting [websocket.receive()], or past
    its [finally] block. *)
Inductive pc := Connecting | Receiving | Ended.

(** Calls worth observing in a run. *)
Inductive action :=
| Constructed (target_language voice audio_enabled : pyval)
| AskedReconnect (error_code : option Z) (answer : bool)
| Slept (delay : Q)
| Propagated (e : exn).

(** The state of one session: the process-wide OSC manager, the browser
    connection, and the local variables of [websocket_endpoint]. *)
Record Sys := {
  osc_manager : OSC.OSCManager;
  websocket : Browser;
  api_key : str;
  target_language : pyval;
  voice : pyval;
  audio_enabled : pyval;
  osc_mute_control : bool;
  send_to_osc : bool;
  reconnect_manager : ReconnectManager;
  client : option Client.WebTranslateClient;
  message_task : task;
  video_sender_task : task;
  websocket_active : bool;
  video_queue : list (option bytes);
  at_ : pc;
  trace : list action
}.

Definition set_osc_manager (o : OSC.OSCManager) (s : Sys) : Sys :=
  {| osc_manager := o; websocket := websocket s; api_key := api_key s;
     target_language := target_language s; voice := voice s;
     audio_enabled := audio_enabled s; osc_mute_control := osc_mute_control s;
     send_to_osc := send_to_osc s; reconnect_manager := reconnect_manager s;
     client := client s; message_task := message_task s;
     video_sender_task := video_sender_task s;
     websocket_active := websocket_active s; video_queue := video_queue s;
     at_ := at_ s; trace := trace s |}.

Definition set_websocket (b : Browser) (s : Sys) : Sys :=
  {| osc_manager := osc_manager s; websocket := b; api_key := api_key s;
     target_language := target_language s; voice := voice s;
     audio_enabled := audio_enabled s; osc_mute_control := osc_mute_control s;
     send_to_osc := send_to_osc s; reconnect_manager := reconnect_manager s;
     client := client s; message_task := message_task s;
     video_sender_task := video_sender_task s;
     websocket_active := websocket_active s; video_queue := video_queue s;
     at_ := at_ s; trace := trace s |}.

(** The assignments [voice = ...; audio_enabled = ...]. *)
Definition set_voice_audio (v ae : pyval) (s : Sys) : Sys :=
  {| osc_manager := osc_manager s; websocket := websocket s;
     api_key := api_key s;
     target_language := target_language s; voice := v;
     audio_enabled := ae; osc_mute_control := osc_mute_control s;
     send_to_osc := send_to_osc s; reconnect_manager := reconnect_manager s;
     client := client s; message_task := message_task s;
     video_sender_task := video_sender_task s;
     websocket_active := websocket_active s; video_queue := video_queue s;
     at_ := at_ s; trace := trace s |}.

Definition set_reconnect_manager (r : ReconnectManager) (s : Sys) : Sys :=
  {| osc_manager := osc_manager s; websocket := websocket s;
     api_key := api_key s;
     target_language := target_language s; voice := voice s;
     audio_enabled := audio_enabled s; osc_mute_control := osc_mute_control s;
     send_to_osc := send_to_osc s; reconnect_manager := r;
     client := client s; message_task := message_task s;
     video_sender_task := video_sender_task s;
     websocket_active := websocket_active s; video_queue := video_queue s;
     at_ := at_ s; trace := trace s |}.

Definition set_client (c : option Client.WebTranslateClient) (s : Sys) : Sys :=
  {| osc_manager := osc_manager s; websocket := websocket s;
     api_key := api_key s;
     target_language := target_language s; voice := voice s;
     audio_enabled := audio_enabled s; osc_mute_control := osc_mute_control s;
     send_to_osc := send_to_osc s; reconnect_manager := reconnect_manager s;
     client := c; message_task := message_task s;
     video_sender_task := video_sender_task s;
     websocket_active := websocket_active s; video_queue := video_queue s;
     at_ := at_ s; trace := trace s |}.

Definition set_message_task (t : task) (s : Sys) : Sys :=
  {| osc_manager := osc_manager s; websocket := websocket s;
     api_key := api_key s;
     target_language := target_language s; voice := voice s;
     audio_enabled := audio_enabled s; osc_mute_control := osc_mute_control s;
     send_to_osc := send_to_osc s; reconnect_manager := reconnect_manager s;
     client := client s; message_task := t;
     video_sender_task := video_sender_task s;
     websocket_active := websocket_active s; video_queue := video_queue s;
     at_ := at_ s; trace := trace s |}.

Definition set_video_sender_task (t : task) (s : Sys) : Sys :=
  {| osc_manager := osc_manager s; websocket := websocket s;
     api_key := api_key s;
     target_language := target_language s; voice := voice s;
     audio_enabled := audio_enabled s; osc_mute_control := osc_mute_control s;
     send_to_osc := send_to_osc s; reconnect_manager := reconnect_manager s;
     client := client s; message_task := message_task s;
     video_sender_task := t;
     websocket_active := websocket_active s; video_queue := video_queue s;
     at_ := at_ s; trace := trace s |}.

Definition set_websocket_active (b : bool) (s : Sys) : Sys :=
  {| osc_manager := osc_manager s; websocket := websocket s;
     api_key := api_key s;
     target_language := target_language s; voice := voice s;
     audio_enabled := audio_enabled s; osc_mute_control := osc_mute_control s;
     send_to_osc := send_to_osc s; reconnect_manager := reconnect_manager s;
     client := client s; message_task := message_task s;
     video_sender_task := video_sender_task s;
     websocket_active := b; video_queue := video_queue s;
     at_ := at_ s; trace := trace s |}.

(** [await video_queue.put(item)] *)
Definition queue_put (item : option bytes) (s : Sys) : Sys :=
  {| osc_manager := osc_manager s; websocket := websocket s;
     api_key := api_key s;
     target_language := target_language s; voice := voice s;
     audio_enabled := audio_enabled s; osc_mute_control := osc_mute_control s;
     send_to_osc := send_to_osc s; reconnect_manager := reconnect_manager s;
     client := client s; message_task := message_task s;
     video_sender_task := video_sender_task s;
     websocket_active := websocket_active s;
     video_queue := video_queue s ++ [item];
     at_ := at_ s; trace := trace s |}.

Definition set_at (p : pc) (s : Sys) : Sys :=
  {| osc_manager := osc_manager s; websocket := websocket s;
     api_key := api_key s;
     target_language := target_language s; voice := voice s;
     audio_enabled := audio_enabled s; osc_mute_control := osc_mute_control s;
     send_to_osc := send_to_osc s; reconnect_manager := reconnect_manager s;
     client := client s; message_task := message_task s;
     video_sender_task := video_sender_task s;
     websocket_active := websocket_active s; video_queue := video_queue s;
     at_ := p; trace := trace s |}.

Definition log (a : action) (s : Sys) : Sys :=
  {| osc_manager := osc_manager s; websocket := websocket s;
     api_key := api_key s;
     target_language := target_language s; voice := voice s;
     audio_enabled := audio_enabled s; osc_mute_control := osc_mute_control s;
     send_to_osc := send_to_osc s; reconnect_manager := reconnect_manager s;
     client := client s; message_task := message_task s;
     video_sender_task := video_sender_task s;
     websocket_active := websocket_active s; video_queue := video_queue s;
     at_ := at_ s; trace := trace s ++ [a] |}.

(** What [await asyncio.wait_for(websocket.receive(), timeout=60)] gives:
    a message of type [websocket.receive] carrying bytes or text, a
    [websocket.disconnect] message, a message of another type, or an
    exception -- [TimeoutError] after 60 seconds without a message. *)
Inductive text_frame :=
| Pong
| Json (payload : pyval)
| NotJson.

Inductive recv_outcome :=
| RecvBytes (data : bytes)
| RecvText (text_data : text_frame)
| RecvDisconnect
| RecvOther
| RecvRaises (e : exn).

(** What happens next to the session: the pending [websockets.connect]
    completes; the pending [websocket.receive] completes; the reader task
    gets the next item of the upstream connection; the upstream connection
    closes, which the reader task has yet to find out; the overlay
    reports [MuteSelf]. *)
Inductive input :=
| Connected (outcome : result Ws)
| Received (r : recv_outcome)
| FromUpstream (item : Client.stream_item)
| UpstreamCloses (e : exn)
| MuteSelf (mute_value : bool).

Section Supervisor.

(** [base64.b64decode] *)
Variable b64decode : pyval -> result bytes.

(** A method call on the object the variable [client] holds. *)
Definition on_client {A} (m : M Client.WebTranslateClient A) : M Sys A :=
  fun s =>
    match client s with
    | None =>
        (Raise (simple_error AttributeError
                  (lit "'NoneType' object has no attribute")), s)
    | Some c => let '(r, c') := m c in (r, set_client (Some c') s)
    end.

(** The closure [on_text_received]: the send is scheduled as a task of
    its own, whose failure nobody looks at. *)
Definition on_text_received (text : pyval) : M Sys unit :=
  s <- get ;;
  if negb (websocket_active s) then ret tt
  else
    let '(r, b) := browser_send (SendJson text) (websocket s) in
    modify (set_websocket b).

(** The closure [on_audio_received] *)
Definition on_audio_received (audio_data : bytes) : M Sys unit :=
  s <- get ;;
  if negb (websocket_active s) then ret tt
  else
    try_except
      (fun s => let '(r, b) := browser_send (SendBytes audio_data) (websocket s)
                in (r, set_websocket b s))
      (fun _ => modify (set_websocket_active false)).

(** The closure [handle_mute_change] of [create_and_connect_client], on
    the client it was created for. *)
Definition handle_mute_change (mute_value : bool) (now : Q)
  : M Client.WebTranslateClient unit :=
  self <- get ;;
  if negb (Client.osc_mute_control_enabled self) then ret tt
  else if mute_value then Client.pause_audio_processing now
  else Client.resume_audio_processing.

(** [create_and_connect_client]; [outcome] is what [websockets.connect]
    gives to [client.connect()]. *)
Definition create_and_connect_client (outcome : result Ws) (now : Q)
  : M Sys Client.WebTranslateClient :=
  s <- get ;;
  modify (log (Constructed (target_language s) (voice s) (audio_enabled s))) ;;
  c <- lift (Client.__init__ (api_key s) (target_language s) (voice s)
               (audio_enabled s) (osc_mute_control s) (send_to_osc s)) ;;
  let '(r, c) := Client.connect outcome now c in
  match r with
  | Raise e => raise e
  | Ok _ =>
      modify (fun s => set_osc_manager
                         (OSC.set_mute_callback (osc_manager s)) s) ;;
      ret c
  end.

(** Step 1 of the outer loop, entered with [client is None]. *)
Definition create_client (outcome : result Ws) (now : Q) : M Sys unit :=
  c <- create_and_connect_client outcome now ;;
  modify (set_client (Some c)) ;;
  modify (set_message_task Running) ;;
  modify (set_video_sender_task Running) ;;
  modify (fun s => set_reconnect_manager (reset (reconnect_manager s)) s).

(** The handling of a text frame that is not ["pong"]: everything is
    inside [try ... except Exception], which only logs. *)
Definition handle_text (text_data : text_frame) (now : Q) : M Sys unit :=
  try_except
    (payload <- lift (match text_data with
                      | Json v => Ok v
                      | _ => Raise (simple_error JSONDecodeError (lit "json"))
                      end) ;;
     match payload with
     | PyDict d =>
         if val_is_str (dict_get d (lit "type") PyNone) (lit "session.update")
         then
           let lang := dict_get d (lit "target_language") PyNone in
           modify (set_voice_audio (dict_get d (lit "voice") PyNone)
                     (dict_get d (lit "audio_enabled") PyNone)) ;;
           s <- get ;;
           match client s with
           | Some _ =>
               on_client (Client.update_session lang (voice s)
                            (audio_enabled s) now)
           | None => ret tt
           end
         else if val_is_str (dict_get d (lit "type") PyNone)
                   (lit "format.update")
         then
           modify (fun s =>
                     set_osc_manager
                       (OSC.set_line_breaks_enabled
                          (val_truthy
                             (dict_get d (lit "line_breaks_enabled")
                                (PyBool false)))
                          (osc_manager s)) s)
         else ret tt
     | _ => ret tt
     end)
    (fun _ => ret tt).

(** The body of the inner loop once [wait_for] has given [r]; [Stop] is
    the [break]. *)
Definition handle_received (r : recv_outcome) (now : Q)
  : M Sys Client.loop_status :=
  match r with
  | RecvRaises e => raise e
  | RecvBytes data =>
      match data with
      | [] => ret Client.Continue
      | stream_type :: content =>
          (if stream_type =? 0 then
             on_client (Client.send_audio_chunk content now)
           else if stream_type =? 1 then
             modify (queue_put (Some content))
           else ret tt) ;;
          ret Client.Continue
      end
  | RecvText Pong => ret Client.Continue
  | RecvText text_data => handle_text text_data now ;; ret Client.Continue
  | RecvDisconnect =>
      modify (set_websocket_active false) ;; ret Client.Stop
  | RecvOther => ret Client.Continue
  end.

(** The error code the [except] clause works out of the exception. *)
Definition error_code_of (e : exn) : option Z :=
  match exn_arg0 e with
  | Some error_str =>
      if negb (find (lit "1011") error_str =? -1) then Some 1011
      else exn_code e
  | None => exn_code e
  end.

(** The clause [except Exception as e] of the outer loop; [Continue] is
    its [continue], [Stop] its [break].  An exception raised inside the
    clause leaves the loop. *)
Definition handle_exception (e : exn) (now : Q) : M Sys Client.loop_status :=
  let error_code := error_code_of e in
  s <- get ;;
  let answer := should_reconnect (reconnect_manager s) error_code in
  modify (log (AskedReconnect error_code answer)) ;;
  if answer then
    modify (fun s => set_reconnect_manager
                       (increment_attempts (reconnect_manager s) now) s) ;;
    s <- get ;;
    delay <- lift (get_reconnect_delay (reconnect_manager s) error_code) ;;
    when (task_truthy (message_task s) && negb (task_done (message_task s)))
      (modify (fun s => set_message_task (cancel (message_task s)) s)) ;;
    when (task_truthy (video_sender_task s))
      (modify (queue_put None) ;;
       modify (fun s => set_video_sender_task
                          (cancel (video_sender_task s)) s)) ;;
    s <- get ;;
    match client s with
    | Some _ => on_client Client.close ;; modify (set_client None)
    | None => ret tt
    end ;;
    when (match Qcompare delay 0 with Gt => true | _ => false end)
      (modify (log (Slept delay))) ;;
    ret Client.Continue
  else
    modify (set_websocket_active false) ;; ret Client.Stop.

(** The [finally] block. *)
Definition finally_ : M Sys unit :=
  modify (fun s => set_osc_manager
                     (OSC.clear_mute_callback (osc_manager s)) s) ;;
  modify (fun s => if negb (task_done (message_task s))
                   then set_message_task (cancel (message_task s)) s else s) ;;
  modify (fun s => if negb (task_done (video_sender_task s))
                   then set_video_sender_task (cancel (video_sender_task s)) s
                   else s) ;;
  s <- get ;;
  match client s with
  | Some _ => try_except (on_client Client.close) (fun _ => ret tt)
  | None => ret tt
  end ;;
  modify (set_at Ended).

(** The test of [while websocket_active] at the top of the outer loop:
    another turn starts with step 1 or, when a client exists, with the
    inner loop; otherwise the [finally] block runs. *)
Definition outer_loop_top : M Sys unit :=
  s <- get ;;
  if websocket_active s then
    match client s with
    | None => modify (set_at Connecting)
    | Some _ => modify (set_at Receiving)
    end
  else finally_.

(** One turn of the supervisor's [try] body from the awaited point on,
    with the clause [except Exception] around it. *)
Definition guarded (body : M Sys Client.loop_status) (now : Q) : M Sys unit :=
  fun s =>
    match body s with
    | (Ok Client.Continue, s') => outer_loop_top s'
    | (Ok Client.Stop, s') => finally_ s'
    | (Raise e, s') =>
        match handle_exception e now s' with
        | (Ok Client.Continue, s'') => outer_loop_top s''
        | (Ok Client.Stop, s'') => finally_ s''
        | (Raise e', s'') => (finally_ ;; modify (log (Propagated e'))) s''
        end
    end.

(** The reader task of the current client takes the next item of its
    connection. *)
Definition reader_turn (item : Client.stream_item) (s : Sys) : Sys :=
  match message_task s, client s with
  | Running, Some c =>
      let self_ := {| view := @fst Client.WebTranslateClient Sys;
                      update := fun c' p => (c', snd p) |} in
      let osc_ := {| view := fun p : Client.WebTranslateClient * Sys =>
                               osc_manager (snd p);
                     update := fun o p => (fst p, set_osc_manager o (snd p)) |}
      in
      let sys_ := {| view := @snd Client.WebTranslateClient Sys;
                     update := fun s' p => (fst p, s') |} in
      let '(r, (c', s')) :=
        Client.reader_iteration self_ osc_ b64decode
          (fun text => zoom sys_ (on_text_received text))
          (Some (fun audio => zoom sys_ (on_audio_received audio)))
          item (c, s) in
      let s' := set_client (Some c') s' in
      match r with
      | Ok Client.Continue => s'
      | Ok Client.Stop => set_message_task (Done (Ok tt)) s'
      | Raise e => set_message_task (Done (Raise e)) s'
      end
  | _, _ => s
  end.

(** One step of the session.  An input that nothing is waiting for is
    left aside. *)
Definition step (now : Q) (i : input) (s : Sys) : Sys :=
  match i, at_ s with
  | _, Ended => s
  | Connected outcome, Connecting =>
      snd (guarded (create_client outcome now ;; ret Client.Continue) now s)
  | Received r, Receiving => snd (guarded (handle_received r now) now s)
  | FromUpstream item, _ => reader_turn item s
  | UpstreamCloses e, _ =>
      match client s with
      | Some c =>
          set_client
            (Some (Client.set_ws (option_map (ws_fail e) (Client.ws c)) c)) s
      | None => s
      end
  | MuteSelf mute_value, _ =>
      if OSC._mute_callback (osc_manager s) then
        match client s with
        | Some c =>
            set_client (Some (snd (handle_mute_change mute_value now c))) s
        | None => s
        end
      else s
  | _, _ => s
  end.

(** A run over timed inputs. *)
Definition run (inputs : list (Q * input)) (s : Sys) : Sys :=
  fold_left (fun s ti => step (fst ti) (snd ti) s) inputs s.

End Supervisor.

(** The state [websocket_endpoint] is in when it enters its outer loop,
    for the parameters of the connection and a configured API key. *)
Definition start (osc : OSC.OSCManager) (api_key : str)
  (target_language voice audio_enabled : pyval)
  (osc_mute_control send_to_osc line_breaks_enabled : bool) : Sys :=
  {| osc_manager := OSC.set_line_breaks_enabled line_breaks_enabled osc;
     websocket := {| browser_failure := None; browser_sent := [] |};
     api_key := api_key;
     target_language := target_language;
     voice := voice;
     audio_enabled := audio_enabled;
     osc_mute_control := osc_mute_control;
     send_to_osc := send_to_osc;
     reconnect_manager := Reconnect.init;
     client := None;
     message_task := NoTask;
     video_sender_task := NoTask;
     websocket_active := true;
     video_queue := [];
     at_ := Connecting;
     trace := [] |}.

End Server.

(* ================================================================== *)
(** ** web_server.py: the video sender task *)
(* ================================================================== *)

Module VideoSender.
Import Py Exc Val.
Local Open Scope py_scope.

(** One turn of the loop of [stream_video_data_task] on the item that
    [await video_queue.get()] gives, at the clock reading [now]: [Stop] is
    the [break] at the [None] sentinel; an exception of [send_image_frame]
    is caught and logged, and the loop goes on. *)
Definition video_iteration (frame : option bytes) (now : Q)
  : M Client.WebTranslateClient Client.loop_status :=
  match frame with
  | None => ret Client.Stop
  | Some f =>
      try_except (Client.send_image_frame f now ;; ret Client.Continue)
        (fun _ => ret Client.Continue)
  end.

(** [stream_video_data_task] on the items its queue yields, each with the
    clock reading at which it is taken; the result is what is left in the
    queue when the loop ends at a sentinel, and nothing when the task has
    taken everything and waits for more. *)
Fixpoint stream_video_data_task (queue : list (Q * option bytes))
  : M Client.WebTranslateClient (list (Q * option bytes)) :=
  match queue with
  | [] => ret []
  | (now, frame) :: queue' =>
      status <- video_iteration frame now ;;
      match status with
      | Client.Continue => stream_video_data_task queue'
      | Client.Stop => ret queue'
      end
  end.

End VideoSender.

(* ================================================================== *)
(** ** Notions used to state the properties *)
(* ================================================================== *)

Import Py.

(** Moving a search result one position to the right; [-1] stays. *)
Definition shift (r : Z) : Z := if r =? -1 then -1 else r + 1.

(** The smaller of two search results, [-1] meaning "none". *)
Definition min_idx (a b : Z) : Z :=
  if a =? -1 then b else if b =? -1 then a else Z.min a b.

(** Index of the first character satisfying [P], or [-1]. *)
Fixpoint first_idx (P : char -> bool) (s : str) : Z :=
  match s with
  | [] => -1
  | c :: s' => if P c then 0 else shift (first_idx P s')
  end.

Definition head_is (c : char) (e : str) : bool :=
  match e with h :: _ => h =? c | [] => false end.

(** The characters that open some entry of [SENTENCE_ENDERS]. *)
Definition is_ender (c : char) : bool :=
  existsb (head_is c) OSC.SENTENCE_ENDERS.

(** The smallest [find] result over a list of enders. *)
Definition min_find (L : list str) (text : str) : Z :=
  fold_right (fun e r => min_idx (find e text) r) (-1) L.

(** The sentences of a text: it is cut after every ender character, as
    [_truncate_text] cuts it.  [cur] is the sentence being read, in
    reverse. *)
Fixpoint sentences_from (cur t : str) : list str :=
  match t with
  | [] => match cur with [] => [] | _ :: _ => [rev cur] end
  | c :: t' =>
      if is_ender c then rev (c :: cur) :: sentences_from [] t'
      else sentences_from (c :: cur) t'
  end.

Definition sentences (t : str) : list str := sentences_from [] t.

(** The last sentence of a text, without the blanks that separate it from
    the sentence before. *)
Definition final_sentence (t : str) : str := lstrip (last (sentences t) []).



(** [d] occurs in [s] at offset [i]. *)
Definition occurs_at (d s : str) (i : nat) : Prop :=
  exists l r, s = l ++ d ++ r /\ length l = i.

(** [i] is the offset of the last occurrence of [d] in [s]. *)
Definition last_occurrence (d s : str) (i : nat) : Prop :=
  occurs_at d s i /\ forall j, occurs_at d s j -> (j <= i)%nat.

Definition absent (d s : str) : Prop := forall j, ~ occurs_at d s j.

(** Non-empty after trimming. *)
Definition nonblank (s : str) : Prop := strip s <> [].

(** The non-whitespace characters of a text, in order. *)
Definition ink (s : str) : str := filter (fun c => negb (isspace c)) s.

(** A character that cannot break a line: not whitespace, or the plain
    space. *)
Definition inline_char (c : char) : Prop := isspace c = true -> c = 32.

(** A streamed text with a bracketed stash broken over two lines. *)
Definition C8_sample : str :=
  lit "Well. It works ... [may" ++ [LF] ++ lit "be]" ++ [LF] ++ lit " so".

(** A computation that relates every state to the state it leaves. *)
Definition preserves {S A} (R : S -> S -> Prop) (m : Exc.M S A) : Prop :=
  forall s, R s (snd (m s)).

(** The session settings [websocket_endpoint] hands to a new client. *)
Definition same_session (s s' : Server.Sys) : Prop :=
  Server.target_language s' = Server.target_language s /\
  Server.voice s' = Server.voice s /\
  Server.audio_enabled s' = Server.audio_enabled s.

(** What the reader task and the mute callback never write: the session
    settings, the reconnect manager, the place the supervisor is at and
    the trace of its calls. *)
Definition untouched (s s' : Server.Sys) : Prop :=
  same_session s s' /\
  Server.reconnect_manager s' = Server.reconnect_manager s /\
  Server.at_ s' = Server.at_ s /\
  Server.trace s' = Server.trace s.

(** The same, and the task handles, on the pair of a client object and
    the session state that the body of the reader task runs on. *)
Definition untouched2 (p p' : Client.WebTranslateClient * Server.Sys) : Prop :=
  untouched (snd p) (snd p') /\
  Server.message_task (snd p') = Server.message_task (snd p).

(** A text frame that is a [session.update] instruction. *)
Definition is_session_update (i : Server.input) : bool :=
  match i with
  | Server.Received (Server.RecvText (Server.Json (Val.PyDict d))) =>
      Val.val_is_str (Val.dict_get d (lit "type") Val.PyNone)
        (lit "session.update")
  | _ => false
  end.

(** A client as [create_and_connect_client] returns it for the default
    parameters: constructed, connected, its session configured at time 0. *)
Definition sample_ws : Val.Ws :=
  {| Val.ws_failure := None;
     Val.ws_sent :=
       [Val.SessionUpdate 0 [lit "text"; lit "audio"]
          (Some (Val.PyStr (lit "Cherry"))) (Val.PyStr (lit "en"))] |}.

Definition sample_client : Client.WebTranslateClient :=
  {| Client.api_key := lit "sk-test";
     Client.target_language := Val.PyStr (lit "en");
     Client.audio_enabled := Val.PyBool true;
     Client.voice := Val.PyStr (lit "Cherry");
     Client.ws := Some sample_ws;
     Client.input_rate := 16000;
     Client.is_connected := true;
     Client.is_processing_audio := true;
     Client.osc_mute_control_enabled := true;
     Client.send_to_osc_enabled := true;
     Client.translation_start_time := None |}.

(** A [base64.b64decode] that accepts nothing, for runs without audio. *)
Definition no_b64 (v : Val.pyval) : Exc.result Val.bytes :=
  Exc.Raise (Exc.simple_error Exc.OtherError (lit "binascii.Error")).

(** The OSC manager of a fresh process. *)
Definition fresh_osc : OSC.OSCManager :=
  {| OSC._line_breaks_enabled := false; OSC._mute_callback := false;
     OSC.osc_calls := [] |}.

(** A session opened with the default parameters. *)
Definition sample_start : Server.Sys :=
  Server.start fresh_osc (lit "sk-test") (Val.PyStr (lit "en"))
    (Val.PyStr (lit "Cherry")) (Val.PyBool true) true true false.

(** The exception of a connection the service closed with code 1011. *)
Definition closed_1011 : Exc.exn :=
  {| Exc.exn_kind_of := Exc.ConnectionClosed;
     Exc.exn_code := Some 1011;
     Exc.exn_arg0 := Some (lit "received 1011 (internal error)") |}.

(** The sample session once its first client is connected. *)
Definition sample_streaming : Server.Sys :=
  Server.run no_b64 [(0%Q, Server.Connected (Exc.Ok Val.fresh_ws))]
    sample_start.

(** The session settings are kept and the trace of calls only grows. *)
Definition session_kept (s s' : Server.Sys) : Prop :=
  same_session s s' /\
  exists rest, Server.trace s' = Server.trace s ++ rest.

(** The [session.update] frame of a browser that changes the target
    language only. *)
Definition language_update : Server.input :=
  Server.Received
    (Server.RecvText
       (Server.Json
          (Val.PyDict
             [(lit "type", Val.PyStr (lit "session.update"));
              (lit "target_language", Val.PyStr (lit "ja"))]))).

(** The reconnect manager is the same object in the same state. *)
Definition same_manager (s s' : Server.Sys) : Prop :=
  Server.reconnect_manager s' = Server.reconnect_manager s.

(** The attempt counter stays within the ceiling. *)
Definition attempts_bounded (s : Server.Sys) : Prop :=
  0 <= Reconnect.reconnect_attempts (Server.reconnect_manager s)
    <= Reconnect.MAX_RECONNECT_ATTEMPTS.

(* ================================================================== *)
(** ** Further notions used to state properties *)
(* ================================================================== *)

(** A character that is no whitespace, no sentence-break punctuation of
    the first substitution and no closing quote or bracket. *)
Definition token_char (c : char) : bool :=
  negb (isspace c) && negb (OSC.is_break_punct c) && negb (OSC.is_closer c).

(** A call on the UDP client whose first argument, if it is a string, is
    at most 144 code points long. *)
Definition payload_ok (c : OSC.osc_call) : Prop :=
  match c with
  | OSC.SendMessage _ (Val.PyStr r :: _) => len r <= 144
  | _ => True
  end.

(** Every call made so far carries a bounded payload; as a relation
    between a state and a later one, the bound is kept. *)
Definition payloads_ok (o : OSC.OSCManager) : Prop :=
  Forall payload_ok (OSC.osc_calls o).

Definition keeps_payloads (s s' : Server.Sys) : Prop :=
  payloads_ok (Server.osc_manager s) -> payloads_ok (Server.osc_manager s').

Definition keeps_payloads2 (p p' : Client.WebTranslateClient * Server.Sys)
  : Prop :=
  keeps_payloads (snd p) (snd p').

(** A final translation of 200 characters, as the service sends it. *)
Definition long_final_text : Server.input :=
  Server.FromUpstream
    (Client.StreamMessage
       (Some (Val.PyDict
                [(lit "type", Val.PyStr (lit "response.text.done"));
                 (lit "text", Val.PyStr (repeat 97 200))]))).

(** What the [finally] block of [websocket_endpoint] leaves behind: no
    mute callback registered, no task of the session running, and the
    client, if there is one, disconnected with its connection closed. *)
Definition cleaned_up (s : Server.Sys) : Prop :=
  OSC._mute_callback (Server.osc_manager s) = false /\
  Server.message_task s <> Server.Running /\
  Server.video_sender_task s <> Server.Running /\
  forall c, Server.client s = Some c ->
    Client.is_connected c = false /\
    forall w, Client.ws c = Some w -> Val.ws_failure w <> None.

(** The position in [websocket_endpoint] is the same. *)
Definition same_place (s s' : Server.Sys) : Prop :=
  Server.at_ s' = Server.at_ s.

(** No attempt is counted while the supervisor is in its receive loop. *)
Definition fresh_while_receiving (s : Server.Sys) : Prop :=
  Server.at_ s = Server.Receiving ->
  Reconnect.reconnect_attempts (Server.reconnect_manager s) = 0.

(** The reconnect manager and the position are the same. *)
Definition same_manager_place (s s' : Server.Sys) : Prop :=
  Server.reconnect_manager s' = Server.reconnect_manager s /\
  Server.at_ s' = Server.at_ s.

(** A connection the service closed abnormally, without a close frame. *)
Definition closed_1006 : Exc.exn :=
  {| Exc.exn_kind_of := Exc.ConnectionClosed;
     Exc.exn_code := Some 1006; Exc.exn_arg0 := None |}.

(** Everything the supervisor decides on is as before, and a client that
    was there is still there. *)
Definition supervision_kept (s s' : Server.Sys) : Prop :=
  Server.websocket s' = Server.websocket s /\
  Server.reconnect_manager s' = Server.reconnect_manager s /\
  Server.message_task s' = Server.message_task s /\
  Server.video_sender_task s' = Server.video_sender_task s /\
  Server.websocket_active s' = Server.websocket_active s /\
  Server.video_queue s' = Server.video_queue s /\
  Server.at_ s' = Server.at_ s /\
  Server.trace s' = Server.trace s /\
  (Server.client s <> None -> Server.client s' <> None).

(** A [session.update] frame that changes only the language, met by a
    client whose connection the service has closed. *)
Definition sample_closed_upstream : Server.Sys :=
  Server.run no_b64
    [(0%Q, Server.Connected (Exc.Ok Val.fresh_ws));
     (1%Q, Server.UpstreamCloses closed_1006)]
    sample_start.

(** A binary frame of the browser tagged as audio. *)
Definition is_audio_frame (ti : Q * Server.input) : bool :=
  match snd ti with
  | Server.Received (Server.RecvBytes (tag :: _)) => tag =? 0
  | _ => false
  end.


(** The text shown for an incomplete recognition: the confirmed part,
    three dots, and the stash in brackets without its leading space. *)
Definition partial_text (result stash : str) : str :=
  result ++ lit " ... ["
  ++ (if startswith (lit " ") stash then slice_from 1 stash else stash)
  ++ lit "]".

(** The frames of a video queue that stand before its first sentinel, and
    the items behind that sentinel. *)
Fixpoint before_sentinel (queue : list (Q * option Val.bytes))
  : list (Q * Val.bytes) :=
  match queue with
  | (t, Some f) :: queue' => (t, f) :: before_sentinel queue'
  | _ => []
  end.

Fixpoint after_sentinel (queue : list (Q * option Val.bytes))
  : list (Q * option Val.bytes) :=
  match queue with
  | (_, Some _) :: queue' => after_sentinel queue'
  | (_, None) :: queue' => queue'
  | [] => []
  end.

(** The image messages for the frames that are not empty. *)
Definition image_messages (frames : list (Q * Val.bytes))
  : list Val.upstream_msg :=
  map (fun tf => Val.InputImageBufferAppend (fst tf) (snd tf))
    (filter (fun tf => match snd tf with [] => false | _ :: _ => true end)
       frames).

(** A [base64.b64decode] that knows one string. *)
Definition sample_b64 (v : Val.pyval) : Exc.result Val.bytes :=
  if Val.val_is_str v (lit "AQI=") then Exc.Ok [1; 2]
  else Exc.Raise (Exc.simple_error Exc.OtherError (lit "binascii.Error")).

(** The sample session with the browser connection broken. *)
Definition sample_broken_browser : Server.Sys :=
  Server.set_websocket
    {| Server.browser_failure := Some closed_1006; Server.browser_sent := [] |}
    sample_streaming.

(** An exception whose error code, as the supervisor works it out, is on
    the retry list. *)
Definition retryable (e : Exc.exn) : bool :=
  Reconnect.code_in (Server.error_code_of e) [1006; 1011; 1012; 1013; 1014; 1015].

(** Connection attempts that all fail, each at its time with its
    exception. *)
Definition failed_connects (fails : list (Q * Exc.exn)) : list (Q * Server.input) :=
  map (fun te => (fst te, Server.Connected (Exc.Raise (snd te)))) fails.

(** The supervisor is about to connect, for the [k]-th time in a row. *)
Definition connecting_again (k : Z) (s : Server.Sys) : Prop :=
  Server.at_ s = Server.Connecting /\
  Server.websocket_active s = true /\
  truthy (Server.api_key s) = true /\
  Reconnect.reconnect_attempts (Server.reconnect_manager s) = k.

(* ================================================================== *)
(** * Properties *)
(* ================================================================== *)

Example truncate_short :
  OSC._truncate_text (lit "Hello. World") 144 = Some (lit "Hello. World").
Proof. reflexivity. Qed.

Example truncate_small_limit :
  OSC._truncate_text (lit "Hello. World, again") 6 = Some (lit "again").
Proof. reflexivity. Qed.

(* ------------------------------------------------------------------ *)
(** ** Indices returned by [find] *)
(* ------------------------------------------------------------------ *)

Lemma first_idx_range P s :
  first_idx P s = -1 \/ 0 <= first_idx P s < len s.
Proof.
  induction s as [|c s IH]; [now left|].
  cbn [first_idx]. unfold len in *. cbn [length].
  destruct (P c); [right; lia|].
  unfold shift. destruct (first_idx P s =? -1) eqn:E; [now left|].
  apply Z.eqb_neq in E. right. lia.
Qed.

Lemma first_idx_split P s :
  first_idx P s <> -1 ->
  exists pre e post,
    s = pre ++ e :: post /\ len pre = first_idx P s /\
    P e = true /\ forallb (fun c => negb (P c)) pre = true.
Proof.
  induction s as [|c s IH]; cbn [first_idx]; [congruence|].
  destruct (P c) eqn:Pc.
  - intros _. now exists [], c, s.
  - unfold shift. destruct (first_idx P s =? -1) eqn:E; [congruence|].
    intros _. apply Z.eqb_neq in E.
    destruct (IH E) as (pre & e & post & -> & Hl & He & Hpre).
    exists (c :: pre), e, post. repeat split; auto.
    + unfold len in *. cbn [length]. lia.
    + cbn. now rewrite Pc.
Qed.

Lemma first_idx_none P s :
  first_idx P s = -1 -> forallb (fun c => negb (P c)) s = true.
Proof.
  induction s as [|c s IH]; cbn [first_idx]; [reflexivity|].
  destruct (P c) eqn:Pc; [discriminate|].
  unfold shift. destruct (first_idx P s =? -1) eqn:E.
  - intros _. apply Z.eqb_eq in E. cbn. now rewrite Pc, IH.
  - pose proof (first_idx_range P s). apply Z.eqb_neq in E. lia.
Qed.

Ltac case_Z_tests :=
  repeat match goal with
    | |- context [?a =? ?b] => destruct (Z.eqb_spec a b)
    | |- context [?a <? ?b] => destruct (Z.ltb_spec a b)
    end.

Lemma find_from_range sub s :
  forall i, 0 <= i -> find_from sub s i = -1 \/ i <= find_from sub s i.
Proof.
  induction s as [|c s IH]; intros i Hi; cbn [find_from].
  - destruct (startswith sub []); [right; lia|now left].
  - destruct (startswith sub (c :: s)); [right; lia|].
    destruct (IH (i + 1) ltac:(lia)); [now left|right; lia].
Qed.

Lemma find_from_shift sub s :
  forall i, 0 <= i ->
    find_from sub s i =
    (if find_from sub s 0 =? -1 then -1 else find_from sub s 0 + i).
Proof.
  induction s as [|c s IH]; intros i Hi; cbn [find_from].
  - destruct (startswith sub []); cbn; [lia|reflexivity].
  - destruct (startswith sub (c :: s)); cbn [Z.eqb]; [cbn; lia|].
    rewrite (IH (i + 1)), (IH (0 + 1)) by lia.
    pose proof (find_from_range sub s 0 ltac:(lia)).
    case_Z_tests; lia.
Qed.

Lemma find_cons_miss e c s :
  head_is c e = false -> e <> [] ->
  find e (c :: s) = shift (find e s).
Proof.
  intros Hh Hne. unfold find. cbn [find_from].
  destruct e as [|h e']; [congruence|]. cbn [startswith].
  cbn [head_is] in Hh. rewrite Hh. cbn [andb].
  rewrite find_from_shift by lia. unfold shift.
  destruct (find_from (h :: e') s 0 =? -1); reflexivity.
Qed.

Lemma find_nil e : e <> [] -> find e [] = -1.
Proof. destruct e; [congruence|reflexivity]. Qed.

Lemma find_range e s : find e s = -1 \/ 0 <= find e s.
Proof. apply find_from_range. lia. Qed.

Lemma min_idx_range a b :
  (a = -1 \/ 0 <= a) -> (b = -1 \/ 0 <= b) ->
  min_idx a b = -1 \/ 0 <= min_idx a b.
Proof.
  unfold min_idx. intros Ha Hb.
  destruct (a =? -1) eqn:Ea; [exact Hb|].
  destruct (b =? -1) eqn:Eb; [exact Ha|].
  apply Z.eqb_neq in Ea, Eb. right. lia.
Qed.

Lemma min_find_range L text : min_find L text = -1 \/ 0 <= min_find L text.
Proof.
  induction L as [|e L IH]; cbn; [now left|].
  apply min_idx_range; [apply find_range|exact IH].
Qed.

Lemma min_idx_shift a b :
  (a = -1 \/ 0 <= a) -> (b = -1 \/ 0 <= b) ->
  min_idx (shift a) (shift b) = shift (min_idx a b).
Proof.
  unfold min_idx, shift. intros Ha Hb.
  destruct (a =? -1) eqn:Ea; cbn [Z.eqb]; [reflexivity|].
  apply Z.eqb_neq in Ea.
  destruct (a + 1 =? -1) eqn:Ea'; [apply Z.eqb_eq in Ea'; lia|].
  destruct (b =? -1) eqn:Eb; cbn [Z.eqb].
  - now rewrite (proj2 (Z.eqb_neq a (-1)) Ea).
  - apply Z.eqb_neq in Eb.
    destruct (b + 1 =? -1) eqn:Eb'; [apply Z.eqb_eq in Eb'; lia|].
    destruct (Z.min a b =? -1) eqn:Em; [apply Z.eqb_eq in Em; lia|lia].
Qed.

Lemma pick_min_idx acc f m :
  (acc = -1 \/ 0 <= acc) -> (f = -1 \/ 0 <= f) -> (m = -1 \/ 0 <= m) ->
  min_idx (if negb (f =? -1) && ((acc =? -1) || (f <? acc)) then f else acc) m
  = min_idx acc (min_idx f m).
Proof.
  intros Ha Hf Hm. unfold min_idx.
  destruct (Z.eqb_spec f (-1)), (Z.eqb_spec acc (-1)), (Z.ltb_spec f acc),
    (Z.eqb_spec m (-1)); cbn [negb andb orb]; case_Z_tests; lia.
Qed.

Lemma fold_pick_min_find (text : str) L acc :
  (acc = -1 \/ 0 <= acc) ->
  fold_left
    (fun first_end ender =>
       let idx := find ender text in
       if negb (idx =? -1) && ((first_end =? -1) || (idx <? first_end))
       then idx else first_end) L acc
  = min_idx acc (min_find L text).
Proof.
  revert acc. induction L as [|e L IH]; intros acc Hacc; cbn [fold_left].
  - cbn [min_find fold_right]. unfold min_idx.
    destruct (acc =? -1) eqn:E; [now apply Z.eqb_eq in E|reflexivity].
  - pose proof (find_range e text) as Hf.
    pose proof (min_find_range L text) as Hm.
    rewrite IH.
    + cbn [min_find fold_right]. fold (min_find L text). cbv zeta.
      now apply pick_min_idx.
    + cbv zeta. destruct (_ && _); assumption.
Qed.

Lemma min_find_nil L : Forall (fun e => e <> []) L -> min_find L [] = -1.
Proof.
  induction 1 as [|e L He _ IH]; [reflexivity|].
  change (min_find (e :: L) []) with (min_idx (find e []) (min_find L [])).
  now rewrite IH, find_nil.
Qed.

Lemma min_find_cons_miss L c s :
  Forall (fun e => e <> []) L ->
  existsb (head_is c) L = false ->
  min_find L (c :: s) = shift (min_find L s).
Proof.
  induction 1 as [|e L He _ IH]; cbn [existsb min_find fold_right];
    [reflexivity|].
  intros Hex. apply orb_false_iff in Hex as [Hh Hex].
  fold (min_find L (c :: s)). fold (min_find L s).
  rewrite IH, find_cons_miss by assumption.
  apply min_idx_shift; [apply find_range|apply min_find_range].
Qed.

Lemma min_find_hit L e s :
  In e L -> find e s = 0 -> min_find L s = 0.
Proof.
  induction L as [|x L IH]; cbn [In min_find fold_right]; [tauto|].
  fold (min_find L s). intros [->|Hin] Hf.
  - rewrite Hf. unfold min_idx.
    pose proof (min_find_range L s). case_Z_tests; lia.
  - rewrite (IH Hin Hf). unfold min_idx.
    pose proof (find_range x s). case_Z_tests; lia.
Qed.

(** Search for the earliest occurrence of any ender is search for the
    first character that opens an ender, provided every ender's first
    character is an ender by itself. *)
Lemma min_find_first_idx L text :
  Forall (fun e => e <> []) L ->
  (forall c, existsb (head_is c) L = true -> In [c] L) ->
  min_find L text = first_idx (fun c => existsb (head_is c) L) text.
Proof.
  intros Hne Hhd. induction text as [|c s IH]; cbn [first_idx].
  - now apply min_find_nil.
  - destruct (existsb (head_is c) L) eqn:Ex.
    + apply (min_find_hit L [c]); [now apply Hhd|].
      unfold find. cbn. now rewrite Z.eqb_refl.
    + rewrite min_find_cons_miss by assumption. now rewrite IH.
Qed.

Lemma first_sentence_end_spec text :
  OSC.first_sentence_end text = first_idx is_ender text.
Proof.
  unfold OSC.first_sentence_end.
  rewrite fold_pick_min_find by now left.
  unfold min_idx at 1. cbn [Z.eqb].
  apply min_find_first_idx.
  - unfold OSC.SENTENCE_ENDERS. repeat constructor; discriminate.
  - intros c Hc. unfold OSC.SENTENCE_ENDERS in *.
    cbn [existsb head_is] in Hc.
    repeat (apply orb_true_iff in Hc as [Hc|Hc];
            [apply Z.eqb_eq in Hc; subst c; cbn [In]; tauto|]).
    discriminate.
Qed.

(* ------------------------------------------------------------------ *)
(** ** Lengths of stripped and sliced strings *)
(* ------------------------------------------------------------------ *)

Lemma lstrip_length s : (length (lstrip s) <= length s)%nat.
Proof.
  induction s as [|c s IH]; cbn [lstrip]; [lia|].
  destruct (isspace c); cbn [length]; lia.
Qed.

Lemma len_nonneg s : 0 <= len s.
Proof. unfold len. lia. Qed.

Lemma slice_from_len i s :
  0 <= i -> len (slice_from i s) = Z.max 0 (len s - i).
Proof.
  intros Hi. unfold slice_from, clamp, len.
  destruct (Z.ltb_spec i 0); [lia|].
  rewrite length_skipn. lia.
Qed.

Lemma slice_from_split pre post :
  slice_from (len pre) (pre ++ post) = post.
Proof.
  unfold slice_from, clamp, len.
  destruct (Z.ltb_spec (Z.of_nat (length pre)) 0); [lia|].
  rewrite length_app.
  replace (Z.to_nat _) with (length pre + 0)%nat by lia.
  now rewrite skipn_app, Nat.add_0_r, skipn_all, Nat.sub_diag.
Qed.

(* ------------------------------------------------------------------ *)
(** ** Truncation: bound, totality, idempotence *)
(* ------------------------------------------------------------------ *)

Lemma truncate_loop_bounded fuel :
  forall text m,
    0 <= m -> (length text < fuel)%nat ->
    exists r, OSC.truncate_loop fuel text m = Some r /\ len r <= m.
Proof.
  induction fuel as [|fuel IH]; intros text m Hm Hfuel; [lia|].
  cbn [OSC.truncate_loop].
  destruct (Z.gtb_spec (len text) m) as [Hgt|Hle].
  2:{ exists text. split; [reflexivity|lia]. }
  cbv zeta. rewrite first_sentence_end_spec.
  destruct (first_idx_range is_ender text) as [E|E].
  - rewrite E. cbn [Z.eqb negb].
    eexists. split; [reflexivity|].
    rewrite slice_from_len by lia. lia.
  - destruct (Z.eqb_spec (first_idx is_ender text) (-1)); [lia|].
    cbn [negb]. apply IH; [exact Hm|].
    pose proof (lstrip_length (slice_from (first_idx is_ender text + 1) text)).
    pose proof (slice_from_len (first_idx is_ender text + 1) text ltac:(lia)).
    unfold len in *. lia.
Qed.

Lemma truncate_text_bounded text m :
  0 <= m -> exists r, OSC._truncate_text text m = Some r /\ len r <= m.
Proof.
  intros Hm. unfold OSC._truncate_text.
  destruct (Z.leb_spec (len text) m).
  - now exists text.
  - apply truncate_loop_bounded; [exact Hm|lia].
Qed.

Lemma truncate_text_fixed text m :
  len text <= m -> OSC._truncate_text text m = Some text.
Proof.
  intros H. unfold OSC._truncate_text.
  now rewrite (proj2 (Z.leb_le _ _) H).
Qed.

(** C2.  For every input string the truncation function returns (the loop
    terminates), its result is at most 144 code points long, and truncating
    that result again returns it unchanged. *)
Theorem C2_truncate_bounded_idempotent :
  forall t : str,
  exists r,
    OSC._truncate_text t OSC.MAX_LENGTH = Some r /\
    len r <= 144 /\
    OSC._truncate_text r OSC.MAX_LENGTH = Some r.
Proof.
  intros t.
  destruct (truncate_text_bounded t OSC.MAX_LENGTH) as (r & Hr & Hlen);
    [unfold OSC.MAX_LENGTH; lia|].
  exists r. repeat split; [exact Hr|exact Hlen|].
  now apply truncate_text_fixed.
Qed.

(* ------------------------------------------------------------------ *)
(** ** Sentences *)
(* ------------------------------------------------------------------ *)

Example sentences_two :
  sentences (lit "Hi there. Bye") = [lit "Hi there."; lit " Bye"].
Proof. reflexivity. Qed.

Example final_sentence_two : final_sentence (lit "Hi there. Bye") = lit "Bye".
Proof. reflexivity. Qed.

Lemma ender_not_space c : is_ender c = true -> isspace c = false.
Proof.
  unfold is_ender, OSC.SENTENCE_ENDERS. cbn [existsb head_is]. intros Hc.
  repeat (apply orb_true_iff in Hc as [Hc|Hc];
          [apply Z.eqb_eq in Hc; subst c; reflexivity|]).
  discriminate.
Qed.

Lemma sentences_from_cur cur t :
  sentences_from cur t =
  match sentences t with
  | [] => match cur with [] => [] | _ :: _ => [rev cur] end
  | s :: ss => (rev cur ++ s) :: ss
  end.
Proof.
  unfold sentences. revert cur.
  induction t as [|c t IH]; intros cur; cbn [sentences_from].
  - destruct cur; reflexivity.
  - destruct (is_ender c).
    + reflexivity.
    + rewrite (IH (c :: cur)), (IH [c]).
      destruct (sentences_from [] t); cbn [rev app];
        now rewrite <- ?app_assoc.
Qed.

Lemma sentences_nil_iff t : sentences t = [] <-> t = [].
Proof.
  split; [|now intros ->].
  destruct t as [|c t]; [reflexivity|].
  unfold sentences. cbn [sentences_from].
  destruct (is_ender c); [discriminate|].
  rewrite sentences_from_cur. destruct (sentences t); discriminate.
Qed.

Lemma sentences_cut pre e post :
  forallb (fun c => negb (is_ender c)) pre = true -> is_ender e = true ->
  sentences (pre ++ e :: post) = (pre ++ [e]) :: sentences post.
Proof.
  intros Hpre He. induction pre as [|c pre IH].
  - unfold sentences. cbn [app sentences_from]. now rewrite He.
  - cbn [forallb] in Hpre. apply andb_true_iff in Hpre as [Hc Hpre].
    apply negb_true_iff in Hc.
    unfold sentences. cbn [app sentences_from]. rewrite Hc.
    rewrite sentences_from_cur. rewrite (IH Hpre). reflexivity.
Qed.



Lemma final_sentence_space c u :
  isspace c = true -> final_sentence (c :: u) = final_sentence u.
Proof.
  intros Hc. unfold final_sentence, sentences. cbn [sentences_from].
  destruct (is_ender c) eqn:E;
    [apply ender_not_space in E; congruence|].
  rewrite sentences_from_cur. fold (sentences u).
  destruct (sentences u) as [|s [|s' ss]] eqn:Es.
  - cbn. now rewrite Hc.
  - cbn [rev app last lstrip]. now rewrite Hc.
  - reflexivity.
Qed.

Lemma final_sentence_lstrip u : final_sentence (lstrip u) = final_sentence u.
Proof.
  induction u as [|c u IH]; [reflexivity|].
  cbn [lstrip]. destruct (isspace c) eqn:E; [|reflexivity].
  now rewrite final_sentence_space.
Qed.

Lemma final_sentence_cut pre e post :
  forallb (fun c => negb (is_ender c)) pre = true -> is_ender e = true ->
  post <> [] ->
  final_sentence (pre ++ e :: post) = final_sentence post.
Proof.
  intros Hpre He Hpost. unfold final_sentence.
  rewrite sentences_cut by assumption.
  destruct (sentences post) eqn:Es; [|reflexivity].
  apply sentences_nil_iff in Es. contradiction.
Qed.

(* ------------------------------------------------------------------ *)
(** ** Truncation and the final sentence *)
(* ------------------------------------------------------------------ *)

Lemma lstrip_le_len s : len (lstrip s) <= len s.
Proof. pose proof (lstrip_length s). unfold len. lia. Qed.





Example split_sample :
  OSC._split_confirmed_unconfirmed (lit "A.B...C")
  = Some (lit "A.B", lit "...", lit "C").
Proof. reflexivity. Qed.

Example format_sample :
  OSC._format_text_for_chatbox (lit "Hi there. How are you? Fine ... [so  far]")
  = lit "Hi there." ++ [LF] ++ lit "How are you?" ++ [LF] ++ lit "Fine..."
    ++ [LF] ++ lit "[so far]".
Proof. reflexivity. Qed.

Example format_decimal :
  OSC._format_text_for_chatbox (lit "Pi is 3.14. See example.com. ")
  = lit "Pi is 3.14." ++ [LF] ++ lit "See example.com." ++ [LF].
Proof. reflexivity. Qed.

(* ------------------------------------------------------------------ *)
(** ** Occurrences and [rfind] *)
(* ------------------------------------------------------------------ *)

Lemma startswith_iff d s : startswith d s = true <-> exists r, s = d ++ r.
Proof.
  revert s. induction d as [|a d IH]; intros s; cbn [startswith].
  - split; [intros _; now exists s|reflexivity].
  - destruct s as [|b s].
    + split; [discriminate|intros [r Hr]; discriminate].
    + rewrite andb_true_iff, Z.eqb_eq, IH. split.
      * intros [-> [r ->]]. now exists r.
      * intros [r Hr]. cbn in Hr. injection Hr as -> ->. split; eauto.
Qed.

Lemma occurs_at_nil d j : occurs_at d [] j <-> d = [] /\ j = 0%nat.
Proof.
  split.
  - intros (l & r & H & Hl). symmetry in H.
    apply app_eq_nil in H as [-> H]. apply app_eq_nil in H as [-> _].
    now subst.
  - intros [-> ->]. now exists [], [].
Qed.

Lemma occurs_at_cons d c s j :
  occurs_at d (c :: s) j <->
  (j = 0%nat /\ startswith d (c :: s) = true) \/
  (exists j', j = S j' /\ occurs_at d s j').
Proof.
  split.
  - intros (l & r & H & Hl). destruct l as [|x l].
    + left. split; [now subst|]. apply startswith_iff. now exists r.
    + right. cbn in H. injection H as -> ->.
      exists (length l). split; [now subst|]. now exists l, r.
  - intros [[-> H]|(j' & -> & l & r & -> & <-)].
    + apply startswith_iff in H as [r Hr]. now exists [], r.
    + now exists (c :: l), r.
Qed.

Lemma rfind_from_spec d s :
  forall i, 0 <= i ->
    (rfind_from d s i = -1 /\ absent d s) \/
    (exists j, rfind_from d s i = i + Z.of_nat j /\ last_occurrence d s j).
Proof.
  induction s as [|c s IH]; intros i Hi; cbn [rfind_from].
  - destruct d as [|a d]; cbn [startswith].
    + right. exists 0%nat. split; [lia|]. split.
      * now apply occurs_at_nil.
      * intros j Hj. apply occurs_at_nil in Hj. lia.
    + left. split; [reflexivity|]. intros j Hj.
      apply occurs_at_nil in Hj as [Hj _]. discriminate.
  - cbv zeta. destruct (IH (i + 1) ltac:(lia)) as [[-> Habs]|(j & -> & Hocc & Hlast)].
    + rewrite Z.eqb_refl. destruct (startswith d (c :: s)) eqn:Hsw.
      * right. exists 0%nat. split; [lia|]. split.
        -- apply occurs_at_cons. now left.
        -- intros j Hj. apply occurs_at_cons in Hj as [[-> _]|(j' & _ & Hj')];
             [lia|]. now apply Habs in Hj'.
      * left. split; [reflexivity|]. intros j Hj.
        apply occurs_at_cons in Hj as [[_ Hj]|(j' & _ & Hj')];
          [congruence|now apply Habs in Hj'].
    + destruct (Z.eqb_spec (i + 1 + Z.of_nat j) (-1)); [lia|].
      right. exists (S j). split; [lia|]. split.
      * apply occurs_at_cons. right. now exists j.
      * intros k Hk. apply occurs_at_cons in Hk as [[-> _]|(k' & -> & Hk')];
          [lia|]. apply Hlast in Hk'. lia.
Qed.

Lemma rfind_spec d s :
  (rfind d s = -1 /\ absent d s) \/
  (exists j, rfind d s = Z.of_nat j /\ last_occurrence d s j).
Proof. apply (rfind_from_spec d s 0). lia. Qed.

Lemma last_occurrence_unique d s i j :
  last_occurrence d s i -> last_occurrence d s j -> i = j.
Proof.
  intros [Hi Li] [Hj Lj]. apply Li in Hj. apply Lj in Hi. lia.
Qed.

Lemma rfind_last d s i : last_occurrence d s i -> rfind d s = Z.of_nat i.
Proof.
  intros Hl. destruct (rfind_spec d s) as [[_ Habs]|(j & -> & Hj)].
  - destruct Hl as [Ho _]. now apply Habs in Ho.
  - f_equal. eapply last_occurrence_unique; eassumption.
Qed.

Lemma rfind_absent d s : absent d s -> rfind d s = -1.
Proof.
  intros Habs. destruct (rfind_spec d s) as [[H _]|(j & _ & [Ho _])];
    [exact H|now apply Habs in Ho].
Qed.

Lemma last_occurrence_by_rfind d s j :
  rfind d s = Z.of_nat j -> last_occurrence d s j.
Proof.
  intros H. destruct (rfind_spec d s) as [[E _]|(k & E & Hk)]; [lia|].
  now replace j with k by lia.
Qed.

Lemma absent_by_rfind d s : rfind d s = -1 -> absent d s.
Proof.
  intros H. destruct (rfind_spec d s) as [[_ Ha]|(k & E & _)]; [exact Ha|lia].
Qed.

Lemma slice_to_split pre post : slice_to (len pre) (pre ++ post) = pre.
Proof.
  unfold slice_to, clamp, len.
  destruct (Z.ltb_spec (Z.of_nat (length pre)) 0); [lia|].
  rewrite length_app.
  replace (Z.to_nat _) with (length pre + 0)%nat by lia.
  now rewrite firstn_app_2, firstn_0, app_nil_r.
Qed.

Lemma len_app a b : len (a ++ b) = len a + len b.
Proof. unfold len. rewrite length_app. lia. Qed.

Lemma slice_from_split3 l d r :
  slice_from (len l + len d) (l ++ d ++ r) = r.
Proof. rewrite <- len_app, app_assoc. apply slice_from_split. Qed.

Lemma truthy_iff s : truthy s = true <-> s <> [].
Proof. destruct s; cbn; split; congruence. Qed.

(* ------------------------------------------------------------------ *)
(** ** The confirmed / unconfirmed split *)
(* ------------------------------------------------------------------ *)

Lemma find_last_delim_sound t d :
  OSC.find_last_delim t d <> -1 ->
  exists l r,
    t = l ++ d ++ r /\ OSC.find_last_delim t d = len l /\
    last_occurrence d t (length l) /\ nonblank l /\ nonblank r.
Proof.
  remember (OSC.find_last_delim t d) as i eqn:Hi. intros Hne.
  unfold OSC.find_last_delim in Hi. cbv zeta in Hi.
  destruct (rfind_spec d t) as [[E _]|(j & E & Hlast)]; rewrite E in Hi.
  - now rewrite Z.eqb_refl in Hi.
  - destruct (Z.eqb_spec (Z.of_nat j) (-1)); [lia|].
    destruct Hlast as [(l & r & Ht & Hl) Hmax]. subst j.
    change (Z.of_nat (length l)) with (len l) in Hi.
    rewrite Ht in Hi. rewrite slice_to_split, slice_from_split3 in Hi.
    destruct (truthy (strip l)) eqn:El; [|now cbn in Hi].
    destruct (truthy (strip r)) eqn:Er; [|now cbn in Hi].
    cbn [andb] in Hi. apply truthy_iff in El, Er.
    exists l, r.
    split; [exact Ht|]. split; [exact Hi|].
    split; [|split; assumption].
    split; [now exists l, r|exact Hmax].
Qed.

Lemma find_last_delim_complete t d l r :
  t = l ++ d ++ r -> last_occurrence d t (length l) ->
  nonblank l -> nonblank r ->
  OSC.find_last_delim t d = len l.
Proof.
  intros Ht Hlast Hl Hr. unfold OSC.find_last_delim. cbv zeta.
  rewrite (rfind_last _ _ _ Hlast).
  destruct (Z.eqb_spec (Z.of_nat (length l)) (-1)); [lia|].
  change (Z.of_nat (length l)) with (len l).
  rewrite Ht at 1 2. rewrite slice_to_split, slice_from_split3.
  apply truthy_iff in Hl, Hr. now rewrite Hl, Hr.
Qed.

Lemma find_last_delim_absent t d :
  absent d t -> OSC.find_last_delim t d = -1.
Proof.
  intros H. unfold OSC.find_last_delim. cbv zeta.
  now rewrite (rfind_absent _ _ H).
Qed.

Lemma normalize_newlines_nil : OSC.normalize_newlines [] = [].
Proof. reflexivity. Qed.

Lemma split_sound text c d u :
  OSC._split_confirmed_unconfirmed text = Some (c, d, u) ->
  (d = OSC.DOTS \/ d = OSC.CJK_ELLIPSIS) /\
  exists l r,
    OSC.normalize_newlines text = l ++ d ++ r /\
    last_occurrence d (OSC.normalize_newlines text) (length l) /\
    nonblank l /\ nonblank r /\ c = rstrip l /\ u = strip r.
Proof.
  unfold OSC._split_confirmed_unconfirmed.
  destruct (truthy text); cbn [negb]; [|discriminate].
  cbv zeta. set (t := OSC.normalize_newlines text).
  destruct (Z.eqb_spec (OSC.find_last_delim t OSC.DOTS) (-1)) as [E|E];
    cbv beta iota.
  - destruct (Z.eqb_spec (OSC.find_last_delim t OSC.CJK_ELLIPSIS) (-1))
      as [E'|E']; [discriminate|].
    destruct (find_last_delim_sound _ _ E') as (l & r & Ht & Hi & Hlast & Hl & Hr).
    rewrite Hi. intros H. injection H as <- <- <-. split; [now right|].
    exists l, r. rewrite Ht at 3 4.
    now rewrite slice_to_split, slice_from_split3.
  - rewrite (proj2 (Z.eqb_neq _ _) E).
    destruct (find_last_delim_sound _ _ E) as (l & r & Ht & Hi & Hlast & Hl & Hr).
    rewrite Hi. intros H. injection H as <- <- <-. split; [now left|].
    exists l, r. rewrite Ht at 3 4.
    now rewrite slice_to_split, slice_from_split3.
Qed.

Lemma split_complete text d l r :
  OSC.normalize_newlines text = l ++ d ++ r ->
  last_occurrence d (OSC.normalize_newlines text) (length l) ->
  nonblank l -> nonblank r ->
  d = OSC.DOTS \/
  (d = OSC.CJK_ELLIPSIS /\ absent OSC.DOTS (OSC.normalize_newlines text)) ->
  OSC._split_confirmed_unconfirmed text = Some (rstrip l, d, strip r).
Proof.
  intros Ht Hlast Hl Hr Hd. unfold OSC._split_confirmed_unconfirmed.
  destruct text as [|x text].
  { exfalso. rewrite normalize_newlines_nil in Ht. symmetry in Ht.
    apply app_eq_nil in Ht as [_ Ht]. apply app_eq_nil in Ht as [Ht _].
    destruct Hd as [->|[-> _]]; discriminate. }
  cbn [truthy negb]. cbv zeta.
  set (t := OSC.normalize_newlines (x :: text)) in *.
  pose proof (find_last_delim_complete t d l r Ht Hlast Hl Hr) as Hf.
  pose proof (len_nonneg l).
  assert (Hne : (len l =? -1) = false) by (apply Z.eqb_neq; lia).
  destruct Hd as [->|[-> Habs]].
  - rewrite Hf, Hne. cbv beta iota. rewrite Hne.
    rewrite Ht. now rewrite slice_to_split, slice_from_split3.
  - rewrite (find_last_delim_absent _ _ Habs), Z.eqb_refl, Hf.
    cbv beta iota. rewrite Hne.
    rewrite Ht. now rewrite slice_to_split, slice_from_split3.
Qed.

Lemma split_none_when_absent text :
  absent OSC.DOTS (OSC.normalize_newlines text) ->
  absent OSC.CJK_ELLIPSIS (OSC.normalize_newlines text) ->
  OSC._split_confirmed_unconfirmed text = None.
Proof.
  intros H1 H2. unfold OSC._split_confirmed_unconfirmed.
  destruct (truthy text); [|reflexivity]. cbn [negb]. cbv zeta.
  rewrite (find_last_delim_absent _ _ H1), Z.eqb_refl.
  cbv beta iota.
  now rewrite (find_last_delim_absent _ _ H2), Z.eqb_refl.
Qed.

(** When the last ["..."] is a degenerate candidate the code goes on to
    try the last ["……"], not only when ["..."] is absent. *)
Example split_falls_back_after_degenerate_dots :
  OSC._split_confirmed_unconfirmed (lit "...a" ++ OSC.CJK_ELLIPSIS ++ lit "b")
  = Some (lit "...a", OSC.CJK_ELLIPSIS, lit "b").
Proof. reflexivity. Qed.

(** C6.  The split uses the last occurrence of ["..."], and when ["..."] is
    absent the last occurrence of ["……"]; whatever it returns is such a
    last occurrence with non-blank text on both sides, the confirmed part
    being the text before it (right-trimmed) and the unconfirmed part the
    text after it (trimmed); without either delimiter there is no split.
    The four sample inputs behave as listed. *)
Theorem C6_split_last_valid_delimiter :
  (forall text c d u,
      OSC._split_confirmed_unconfirmed text = Some (c, d, u) ->
      (d = OSC.DOTS \/ d = OSC.CJK_ELLIPSIS) /\
      exists l r,
        OSC.normalize_newlines text = l ++ d ++ r /\
        last_occurrence d (OSC.normalize_newlines text) (length l) /\
        nonblank l /\ nonblank r /\ c = rstrip l /\ u = strip r) /\
  (forall text l r,
      OSC.normalize_newlines text = l ++ OSC.DOTS ++ r ->
      last_occurrence OSC.DOTS (OSC.normalize_newlines text) (length l) ->
      nonblank l -> nonblank r ->
      OSC._split_confirmed_unconfirmed text
      = Some (rstrip l, OSC.DOTS, strip r)) /\
  (forall text l r,
      absent OSC.DOTS (OSC.normalize_newlines text) ->
      OSC.normalize_newlines text = l ++ OSC.CJK_ELLIPSIS ++ r ->
      last_occurrence OSC.CJK_ELLIPSIS (OSC.normalize_newlines text) (length l) ->
      nonblank l -> nonblank r ->
      OSC._split_confirmed_unconfirmed text
      = Some (rstrip l, OSC.CJK_ELLIPSIS, strip r)) /\
  (forall text,
      absent OSC.DOTS (OSC.normalize_newlines text) ->
      absent OSC.CJK_ELLIPSIS (OSC.normalize_newlines text) ->
      OSC._split_confirmed_unconfirmed text = None) /\
  OSC._split_confirmed_unconfirmed (lit "A.B...C")
  = Some (lit "A.B", lit "...", lit "C") /\
  OSC._split_confirmed_unconfirmed (lit "no delimiter here") = None /\
  OSC._split_confirmed_unconfirmed (lit "...leading") = None /\
  OSC._split_confirmed_unconfirmed (lit "trailing...") = None.
Proof.
  split; [exact split_sound|].
  split; [intros; apply split_complete; auto|].
  split; [intros; apply split_complete; auto|].
  split; [exact split_none_when_absent|].
  repeat split.
Qed.

Lemma C6_split_last_valid_delimiter_witness :
  ((lit "..." = OSC.DOTS \/ lit "..." = OSC.CJK_ELLIPSIS) /\
   exists l r,
     OSC.normalize_newlines (lit "A.B...C") = l ++ lit "..." ++ r /\
     last_occurrence (lit "...") (OSC.normalize_newlines (lit "A.B...C"))
       (length l) /\
     nonblank l /\ nonblank r /\ lit "A.B" = rstrip l /\ lit "C" = strip r) /\
  OSC._split_confirmed_unconfirmed (lit "So... it. goes ... on")
  = Some (rstrip (lit "So... it. goes "), OSC.DOTS, strip (lit " on")) /\
  OSC._split_confirmed_unconfirmed (lit "a " ++ OSC.CJK_ELLIPSIS ++ lit " b")
  = Some (rstrip (lit "a "), OSC.CJK_ELLIPSIS, strip (lit " b")) /\
  OSC._split_confirmed_unconfirmed (lit "plain") = None.
Proof.
  destruct C6_split_last_valid_delimiter as (Hsound & Hdots & Hcjk & Hnone & _).
  split; [|split; [|split]].
  - apply (Hsound (lit "A.B...C")). reflexivity.
  - apply (Hdots (lit "So... it. goes ... on")).
    + reflexivity.
    + apply last_occurrence_by_rfind. reflexivity.
    + vm_compute. discriminate.
    + vm_compute. discriminate.
  - apply (Hcjk (lit "a " ++ OSC.CJK_ELLIPSIS ++ lit " b")).
    + apply absent_by_rfind. reflexivity.
    + reflexivity.
    + apply last_occurrence_by_rfind. reflexivity.
    + vm_compute. discriminate.
    + vm_compute. discriminate.
  - apply (Hnone (lit "plain")); apply absent_by_rfind; reflexivity.
Defined.

(* ------------------------------------------------------------------ *)
(** ** What trimming and line-break insertion leave untouched *)
(* ------------------------------------------------------------------ *)

Lemma ink_app a b : ink (a ++ b) = ink a ++ ink b.
Proof. apply filter_app. Qed.

Lemma ink_rev s : ink (rev s) = rev (ink s).
Proof. unfold ink. now rewrite filter_rev. Qed.

Lemma ink_lstrip s : ink (lstrip s) = ink s.
Proof.
  induction s as [|c s IH]; [reflexivity|].
  cbn [lstrip]. destruct (isspace c) eqn:E; [|reflexivity].
  cbn [ink filter]. rewrite E. exact IH.
Qed.

Lemma ink_rstrip s : ink (rstrip s) = ink s.
Proof.
  unfold rstrip. now rewrite ink_rev, ink_lstrip, ink_rev, rev_involutive.
Qed.

Lemma ink_strip s : ink (strip s) = ink s.
Proof. unfold strip. now rewrite ink_rstrip, ink_lstrip. Qed.

Lemma lstrip_nil_iff s : lstrip s = [] <-> ink s = [].
Proof.
  induction s as [|c s IH]; [tauto|].
  cbn [lstrip ink filter]. destruct (isspace c); cbn [negb]; [exact IH|].
  split; discriminate.
Qed.

Lemma rev_nil_iff (s : str) : rev s = [] <-> s = [].
Proof.
  split; [|now intros ->]. intros H.
  apply (f_equal (@length _)) in H. rewrite length_rev in H.
  now destruct s.
Qed.

Lemma strip_nil_iff s : strip s = [] <-> ink s = [].
Proof.
  unfold strip, rstrip.
  rewrite rev_nil_iff, lstrip_nil_iff, ink_rev, rev_nil_iff.
  now rewrite ink_lstrip.
Qed.

Lemma nonblank_ink s : nonblank s <-> ink s <> [].
Proof. unfold nonblank. now rewrite strip_nil_iff. Qed.

Lemma ink_collapse_ws s b : ink (collapse_ws s b) = ink s.
Proof.
  revert b. induction s as [|c s IH]; intros b; [reflexivity|].
  cbn [collapse_ws ink filter]. fold (ink s).
  destruct (isspace c) eqn:E; cbn [negb].
  - destruct b; [apply IH|]. cbn [ink filter]. apply IH.
  - cbn [ink filter]. rewrite E. cbn [negb]. f_equal. apply IH.
Qed.

Lemma ink_sub_enders s b : ink (OSC.sub_enders s b) = ink s.
Proof.
  revert b. induction s as [|c s IH]; intros b; [reflexivity|].
  cbn [OSC.sub_enders ink filter]. fold (ink s).
  destruct (isspace c) eqn:E; cbn [negb].
  - destruct b; cbn [andb]; [apply IH|].
    destruct (_ && _); cbn [ink filter]; rewrite E; cbn [negb];
      change (isspace LF) with true; cbn [negb]; apply IH.
  - rewrite andb_false_r.
    destruct (_ && _); cbn [ink filter]; rewrite E; cbn [negb];
      change (isspace LF) with true; cbn [negb]; f_equal; apply IH.
Qed.

Lemma ink_sub_dots s p b : ink (OSC.sub_dots s p b) = ink s.
Proof.
  revert p b. induction s as [|c s IH]; intros p b; [reflexivity|].
  cbn [OSC.sub_dots ink filter]. fold (ink s).
  destruct (isspace c) eqn:E; cbn [negb].
  - destruct b; cbn [andb]; [apply IH|].
    destruct (Z.eqb_spec c 46) as [->|_]; [discriminate|].
    cbn [andb ink filter]. rewrite E. apply IH.
  - rewrite andb_false_r.
    destruct (_ && _) eqn:M; cbn [ink filter].
    + repeat (apply andb_true_iff in M as [M _]).
      apply Z.eqb_eq in M. subst c.
      change (isspace 46) with false. change (isspace LF) with true.
      cbn [negb]. f_equal. apply IH.
    + rewrite E. cbn [negb]. f_equal. apply IH.
Qed.

Lemma skipn_app_exact {A} (a b : list A) : skipn (length a) (a ++ b) = b.
Proof. induction a; [reflexivity|assumption]. Qed.

Lemma ink_replace_skip old new :
  old <> [] -> ink old = [] -> ink new = [] ->
  forall s k, ink (replace_skip old new s k) = ink (skipn k s).
Proof.
  intros Hne Hold Hnew. induction s as [|c s IH]; intros k.
  - now destruct k.
  - cbn [replace_skip]. destruct k as [|k]; [|apply IH].
    cbn [skipn]. destruct (startswith old (c :: s)) eqn:Hsw.
    + apply startswith_iff in Hsw as [r Hr].
      destruct old as [|o old']; [congruence|].
      cbn [app] in Hr. injection Hr as -> ->.
      rewrite ink_app, Hnew, IH. cbn [app].
      replace (length (o :: old') - 1)%nat with (length old')
        by (cbn [length]; lia).
      rewrite skipn_app_exact.
      change (o :: old' ++ r) with ((o :: old') ++ r).
      now rewrite ink_app, Hold.
    + cbn [ink filter]. fold (ink s). fold (ink (replace_skip old new s 0)).
      now rewrite IH.
Qed.

Lemma ink_normalize_newlines s : ink (OSC.normalize_newlines s) = ink s.
Proof.
  unfold OSC.normalize_newlines, replace.
  rewrite ink_replace_skip by (discriminate || reflexivity).
  cbn [skipn].
  rewrite ink_replace_skip by (discriminate || reflexivity).
  reflexivity.
Qed.

Lemma ink_insert_newlines s :
  ink (OSC._insert_newlines_after_sentence_enders s) = ink s.
Proof.
  unfold OSC._insert_newlines_after_sentence_enders.
  destruct (truthy s); cbn [negb]; [|reflexivity].
  cbv zeta. now rewrite ink_sub_dots, ink_sub_enders, ink_normalize_newlines.
Qed.

(** After a successful split neither side can be rendered empty. *)
Lemma split_sides_have_ink text c d u :
  OSC._split_confirmed_unconfirmed text = Some (c, d, u) ->
  rstrip (OSC._insert_newlines_after_sentence_enders c) <> [] /\
  strip (collapse_ws u false) <> [].
Proof.
  intros H. apply split_sound in H as (_ & l & r & _ & _ & Hl & Hr & -> & ->).
  apply nonblank_ink in Hl, Hr. split.
  - intros E. apply (f_equal ink) in E.
    rewrite ink_rstrip, ink_insert_newlines, ink_rstrip in E. now apply Hl.
  - intros E. apply strip_nil_iff in E.
    rewrite ink_collapse_ws, ink_strip in E. now apply Hr.
Qed.

(* ------------------------------------------------------------------ *)
(** ** Single-line segments *)
(* ------------------------------------------------------------------ *)

Lemma LF_not_inline : ~ inline_char LF.
Proof. intros H. specialize (H eq_refl). discriminate. Qed.

Lemma lstrip_incl s : incl (lstrip s) s.
Proof.
  induction s as [|c s IH]; [easy|].
  cbn [lstrip]. destruct (isspace c); [|easy].
  now apply incl_tl.
Qed.

Lemma strip_incl s : incl (strip s) s.
Proof.
  unfold strip, rstrip. intros c Hc.
  apply in_rev, lstrip_incl, in_rev in Hc. now apply lstrip_incl.
Qed.

Lemma Forall_incl {A} (P : A -> Prop) (a b : list A) :
  incl a b -> Forall P b -> Forall P a.
Proof. intros Hi Hb. apply Forall_forall. intros x Hx.
  eapply Forall_forall in Hb; eauto. Qed.

Lemma collapse_ws_inline s b : Forall inline_char (collapse_ws s b).
Proof.
  revert b. induction s as [|c s IH]; intros b; [constructor|].
  cbn [collapse_ws]. destruct (isspace c) eqn:E.
  - destruct b; [apply IH|]. constructor; [now intros _|apply IH].
  - constructor; [|apply IH]. intros H. congruence.
Qed.

Lemma bracket_content_inline s : Forall inline_char (OSC.bracket_content s).
Proof.
  unfold OSC.bracket_content.
  eapply Forall_incl; [apply strip_incl|apply collapse_ws_inline].
Qed.

Lemma protect_brackets_inline s :
  forall k n, Forall (Forall inline_char) (snd (OSC.protect_brackets s k n)).
Proof.
  induction s as [|c s IH]; intros k n; cbn [OSC.protect_brackets];
    [constructor|].
  destruct k as [|k]; [|apply IH].
  destruct (if c =? 91 then OSC.until_close s else None) as [inside|].
  - specialize (IH (S (length inside)) (S n)).
    destruct (OSC.protect_brackets s (S (length inside)) (S n)).
    cbn [snd] in *. constructor; [apply bracket_content_inline|exact IH].
  - specialize (IH 0%nat n). destruct (OSC.protect_brackets s 0 n).
    exact IH.
Qed.

Lemma replace_skip_Forall (P : char -> Prop) old new :
  Forall P new ->
  forall s k, Forall P s -> Forall P (replace_skip old new s k).
Proof.
  intros Hnew. induction s as [|c s IH]; intros k Hs; [constructor|].
  inversion Hs as [|? ? Hc Hs']; subst. cbn [replace_skip].
  destruct k as [|k]; [|now apply IH].
  destruct (startswith old (c :: s)).
  - apply Forall_app. split; [exact Hnew|now apply IH].
  - constructor; [exact Hc|now apply IH].
Qed.

Lemma restore_brackets_Forall (P : char -> Prop) segs :
  Forall (Forall P) segs ->
  forall idx s, Forall P s -> Forall P (OSC.restore_brackets segs idx s).
Proof.
  induction 1 as [|content segs Hc _ IH]; intros idx s Hs; [exact Hs|].
  cbn [OSC.restore_brackets]. apply IH. now apply replace_skip_Forall.
Qed.

Lemma startswith_app_stop x old :
  ~ In x old ->
  forall a b, startswith old (a ++ x :: b) = startswith old a.
Proof.
  induction old as [|o old IH]; intros Hx a b; [now destruct a|].
  destruct a as [|c a]; cbn [app startswith].
  - destruct (Z.eqb_spec o x); [|reflexivity].
    exfalso. apply Hx. now left.
  - rewrite IH; [reflexivity|]. intros H. apply Hx. now right.
Qed.

Lemma startswith_length old s :
  startswith old s = true -> (length old <= length s)%nat.
Proof.
  intros H. apply startswith_iff in H as [r ->]. rewrite length_app. lia.
Qed.

(** A replacement never reaches across a character that the pattern does
    not contain. *)
Lemma replace_skip_app x old new :
  old <> [] -> ~ In x old ->
  forall a b k, (k <= length a)%nat ->
    replace_skip old new (a ++ x :: b) k
    = replace_skip old new a k ++ x :: replace_skip old new b 0.
Proof.
  intros Hne Hx. induction a as [|c a IH]; intros b k Hk.
  - destruct k; [|cbn in Hk; lia].
    pose proof (startswith_app_stop x old Hx [] b) as Hs.
    cbn [app] in *. cbn [replace_skip]. rewrite Hs.
    destruct old; [congruence|reflexivity].
  - cbn [app replace_skip]. destruct k as [|k].
    + change (c :: a ++ x :: b) with ((c :: a) ++ x :: b).
      rewrite (startswith_app_stop x old Hx).
      destruct (startswith old (c :: a)) eqn:Hsw.
      * apply startswith_length in Hsw. cbn [length] in Hsw.
        rewrite IH by lia. now rewrite app_assoc.
      * rewrite IH by lia. reflexivity.
    + cbn [length] in Hk. apply IH. lia.
Qed.

Lemma digits_range d c : In c (digits d) -> 48 <= c <= 57.
Proof.
  induction d; cbn [digits In]; try tauto;
    (intros [<-|H]; [lia|now apply IHd]).
Qed.

Lemma placeholder_no_LF n : ~ In LF (OSC.placeholder n).
Proof.
  unfold OSC.placeholder. intros H.
  apply in_app_or in H as [H|H].
  - revert H. vm_compute. intuition discriminate.
  - apply in_app_or in H as [H|H].
    + apply digits_range in H. unfold LF in H. lia.
    + revert H. vm_compute. intuition discriminate.
Qed.

Lemma placeholder_not_nil n : OSC.placeholder n <> [].
Proof. discriminate. Qed.

Lemma restore_brackets_app segs :
  forall idx a b,
    OSC.restore_brackets segs idx (a ++ LF :: b)
    = OSC.restore_brackets segs idx a ++ LF :: OSC.restore_brackets segs idx b.
Proof.
  induction segs as [|content segs IH]; intros idx a b; [reflexivity|].
  cbn [OSC.restore_brackets]. unfold replace.
  rewrite replace_skip_app;
    [apply IH|apply placeholder_not_nil|apply placeholder_no_LF|lia].
Qed.

(** C8.  Whenever the split of the (bracket-protected) text succeeds, the
    text rendered for the chatbox is the rendered confirmed part with its
    delimiter, one newline, and the rendered unconfirmed part; the
    unconfirmed part contains no newline, indeed no whitespace character
    other than the plain space. *)
Theorem C8_unconfirmed_single_line :
  forall text protected_text segs confirmed delim unconfirmed,
    OSC.protect_brackets (OSC.normalize_newlines text) 0 0
    = (protected_text, segs) ->
    OSC._split_confirmed_unconfirmed protected_text
    = Some (confirmed, delim, unconfirmed) ->
    let confirmed_part :=
      OSC.restore_brackets segs 0
        (rstrip (OSC._insert_newlines_after_sentence_enders confirmed)
         ++ delim) in
    let unconfirmed_part :=
      OSC.restore_brackets segs 0 (strip (collapse_ws unconfirmed false)) in
    OSC._format_text_for_chatbox text
    = confirmed_part ++ [LF] ++ unconfirmed_part /\
    ~ In LF unconfirmed_part /\
    Forall inline_char unconfirmed_part.
Proof.
  intros text p segs c d u Hprot Hsplit. cbv zeta.
  assert (Hinline :
    Forall inline_char
      (OSC.restore_brackets segs 0 (strip (collapse_ws u false)))).
  { apply restore_brackets_Forall.
    - pose proof (protect_brackets_inline (OSC.normalize_newlines text) 0 0) as H.
      now rewrite Hprot in H.
    - eapply Forall_incl; [apply strip_incl|apply collapse_ws_inline]. }
  split; [|split; [|exact Hinline]].
  - unfold OSC._format_text_for_chatbox.
    destruct text as [|x text].
    { cbn in Hprot. injection Hprot as <- <-. discriminate. }
    cbn [truthy negb]. cbv zeta. rewrite Hprot, Hsplit.
    destruct (split_sides_have_ink _ _ _ _ Hsplit) as [Hc Hu].
    apply truthy_iff in Hc, Hu. rewrite Hc, Hu. cbn [negb].
    rewrite app_assoc. cbn [app].
    apply restore_brackets_app.
  - intros HLF. eapply Forall_forall in Hinline; [|exact HLF].
    now apply LF_not_inline.
Qed.

Lemma C8_unconfirmed_single_line_witness :
  OSC._format_text_for_chatbox C8_sample
  = (lit "Well." ++ [LF] ++ lit "It works...") ++ [LF] ++ lit "[may be] so" /\
  ~ In LF (lit "[may be] so") /\
  Forall inline_char (lit "[may be] so").
Proof.
  apply (C8_unconfirmed_single_line C8_sample
           (lit "Well. It works ... __BRACKETED_0__" ++ [LF] ++ lit " so")
           [lit "[may be]"] (lit "Well. It works") (lit "...")
           (lit "__BRACKETED_0__" ++ [LF] ++ lit " so")); reflexivity.
Defined.

(* ------------------------------------------------------------------ *)
(** ** The reconnect manager *)
(* ------------------------------------------------------------------ *)

Lemma py_min_Qmin a b : Reconnect.py_min a b = Qmin a b.
Proof.
  unfold Reconnect.py_min, Qmin, GenericMinMax.gmin.
  rewrite <- (Qcompare_antisym a b). now destruct (a ?= b)%Q.
Qed.

Lemma code_is_true code n : Reconnect.code_is code n = true <-> code = Some n.
Proof.
  destruct code as [c|]; cbn [Reconnect.code_is].
  - rewrite Z.eqb_eq. split; congruence.
  - split; discriminate.
Qed.

Lemma code_in_true code codes :
  Reconnect.code_in code codes = true <->
  exists c, code = Some c /\ In c codes.
Proof.
  unfold Reconnect.code_in. rewrite existsb_exists. split.
  - intros (n & Hin & H). apply code_is_true in H. eauto.
  - intros (c & -> & Hin). exists c. split; [exact Hin|].
    now apply code_is_true.
Qed.

Lemma attempts_after_increments times rm :
  Reconnect.reconnect_attempts (fold_left Reconnect.increment_attempts times rm)
  = Reconnect.reconnect_attempts rm + Z.of_nat (length times).
Proof.
  revert rm. induction times as [|t times IH]; intros rm; cbn [fold_left length].
  - lia.
  - rewrite IH. cbn [Reconnect.increment_attempts Reconnect.reconnect_attempts].
    lia.
Qed.

(** C5.  [should_reconnect] answers retry exactly for the codes 1006,
    1011, 1012, 1013, 1014, 1015 while fewer than 5 attempts were made,
    and give-up for every code (and for no code) from 5 attempts on; five
    [increment_attempts] after a reset are such a state. *)
Theorem C5_should_reconnect_classification :
  (forall rm code,
      Reconnect.should_reconnect rm code = true <->
      Reconnect.reconnect_attempts rm < 5 /\
      exists c, code = Some c /\ In c [1006; 1011; 1012; 1013; 1014; 1015]) /\
  (forall rm code,
      5 <= Reconnect.reconnect_attempts rm ->
      Reconnect.should_reconnect rm code = false) /\
  (forall rm times code,
      length times = 5%nat ->
      Reconnect.should_reconnect
        (fold_left Reconnect.increment_attempts times (Reconnect.reset rm))
        code = false).
Proof.
  assert (Hstop : forall rm code,
             5 <= Reconnect.reconnect_attempts rm ->
             Reconnect.should_reconnect rm code = false).
  { intros rm code H. unfold Reconnect.should_reconnect,
      Reconnect.MAX_RECONNECT_ATTEMPTS.
    destruct (Z.geb_spec (Reconnect.reconnect_attempts rm) 5); [reflexivity|lia]. }
  split; [|split; [exact Hstop|]].
  - intros rm code. unfold Reconnect.should_reconnect,
      Reconnect.MAX_RECONNECT_ATTEMPTS.
    destruct (Z.geb_spec (Reconnect.reconnect_attempts rm) 5) as [Hge|Hlt].
    + split; [discriminate|lia].
    + destruct (Reconnect.code_is code 1011) eqn:E1.
      * apply code_is_true in E1. subst code. split; [|reflexivity].
        intros _. split; [exact Hlt|]. exists 1011. cbn [In]. tauto.
      * destruct (Reconnect.code_in code _) eqn:E2.
        -- apply code_in_true in E2. tauto.
        -- split; [discriminate|]. intros [_ H].
           apply code_in_true in H. congruence.
  - intros rm times code Hlen. apply Hstop.
    rewrite attempts_after_increments, Hlen. cbn. lia.
Qed.

Lemma C5_should_reconnect_classification_witness :
  Reconnect.should_reconnect
    {| Reconnect.reconnect_attempts := 7; Reconnect.last_reconnect_time := 0;
       Reconnect.is_reconnecting := false |} (Some 1011) = false /\
  Reconnect.should_reconnect
    (fold_left Reconnect.increment_attempts [1; 2; 3; 4; 5]%Q
       (Reconnect.reset Reconnect.init)) (Some 1006) = false.
Proof.
  destruct C5_should_reconnect_classification as (_ & Hstop & Hfive).
  split.
  - apply Hstop. cbn. lia.
  - apply Hfive. reflexivity.
Defined.

Lemma pow2_ge_32 a : 5 <= a -> (32 <= 2 ^ a)%Q.
Proof.
  intros Ha. change 32%Q with (2 ^ 5)%Q.
  apply Qpower_le_compat_l; [exact Ha|]. discriminate.
Qed.

(** C4, as amended.  For every attempt count from 0 to 1023 and every
    code other than 1011 the delay is min(1.0 * 2^a, 30.0) seconds, which
    is 30.0 from the fifth attempt on; it is 1.0, 8.0 and 30.0 at 0, 3
    and 10 attempts; for code 1011 it is 0.0 at every attempt count. *)
Theorem C4_reconnect_delay :
  (forall rm code,
      code <> Some 1011 ->
      0 <= Reconnect.reconnect_attempts rm <= 1023 ->
      Reconnect.get_reconnect_delay rm code
      = Exc.Ok (Qmin (1 * 2 ^ Reconnect.reconnect_attempts rm) 30)) /\
  (forall rm code,
      code <> Some 1011 ->
      5 <= Reconnect.reconnect_attempts rm <= 1023 ->
      Reconnect.get_reconnect_delay rm code = Exc.Ok 30%Q) /\
  (forall rm, Reconnect.get_reconnect_delay rm (Some 1011) = Exc.Ok 0%Q) /\
  (forall t r code,
      code <> Some 1011 ->
      Reconnect.get_reconnect_delay
        {| Reconnect.reconnect_attempts := 0; Reconnect.last_reconnect_time := t;
           Reconnect.is_reconnecting := r |} code = Exc.Ok 1%Q /\
      Reconnect.get_reconnect_delay
        {| Reconnect.reconnect_attempts := 3; Reconnect.last_reconnect_time := t;
           Reconnect.is_reconnecting := r |} code = Exc.Ok 8%Q /\
      Reconnect.get_reconnect_delay
        {| Reconnect.reconnect_attempts := 10; Reconnect.last_reconnect_time := t;
           Reconnect.is_reconnecting := r |} code = Exc.Ok 30%Q).
Proof.
  assert (Hgen : forall rm code,
             code <> Some 1011 ->
             0 <= Reconnect.reconnect_attempts rm <= 1023 ->
             Reconnect.get_reconnect_delay rm code
             = Exc.Ok (Qmin (1 * 2 ^ Reconnect.reconnect_attempts rm) 30)).
  { intros rm code Hcode Ha. unfold Reconnect.get_reconnect_delay.
    destruct (Reconnect.code_is code 1011) eqn:E;
      [apply code_is_true in E; contradiction|].
    unfold Reconnect.float_pow2.
    destruct (Z.gtb_spec (Reconnect.reconnect_attempts rm) 1023); [lia|].
    destruct (Z.ltb_spec (Reconnect.reconnect_attempts rm) (-1074)); [lia|].
    now rewrite py_min_Qmin. }
  split; [exact Hgen|]. split; [|split].
  - intros rm code Hcode Ha. rewrite Hgen by (assumption || lia).
    f_equal. unfold Qmin, GenericMinMax.gmin.
    pose proof (pow2_ge_32 (Reconnect.reconnect_attempts rm) ltac:(lia)) as H.
    destruct (Qcompare_spec (1 * 2 ^ Reconnect.reconnect_attempts rm) 30)
      as [E|E|E]; [| |reflexivity]; exfalso.
    + rewrite Qmult_1_l in E. rewrite E in H. now apply H.
    + rewrite Qmult_1_l in E. apply (Qlt_not_le _ _ E).
      eapply Qle_trans; [|exact H]. discriminate.
  - intros rm. reflexivity.
  - intros t r code Hcode.
    rewrite !Hgen by (assumption || (cbn; lia)). cbn. repeat split.
Qed.

Lemma C4_reconnect_delay_witness :
  Reconnect.get_reconnect_delay
    {| Reconnect.reconnect_attempts := 4; Reconnect.last_reconnect_time := 0;
       Reconnect.is_reconnecting := false |} (Some 1006)
  = Exc.Ok (Qmin (1 * 2 ^ 4) 30) /\
  Reconnect.get_reconnect_delay
    {| Reconnect.reconnect_attempts := 6; Reconnect.last_reconnect_time := 0;
       Reconnect.is_reconnecting := false |} None
  = Exc.Ok 30%Q /\
  Reconnect.get_reconnect_delay
    {| Reconnect.reconnect_attempts := 3; Reconnect.last_reconnect_time := 0;
       Reconnect.is_reconnecting := false |} (Some 1012)
  = Exc.Ok 8%Q.
Proof.
  destruct C4_reconnect_delay as (Hmin & Hcap & _ & Hvals).
  split; [|split].
  - apply Hmin; [discriminate|cbn; lia].
  - apply Hcap; [discriminate|cbn; lia].
  - apply (Hvals 0%Q false (Some 1012)). discriminate.
Defined.

(** C4 as stated fails at 1024 attempts: [2.0 ** 1024] raises
    [OverflowError], so no delay is returned at all. *)
Lemma C4_counterexample :
  let rm := {| Reconnect.reconnect_attempts := 1024;
               Reconnect.last_reconnect_time := 0;
               Reconnect.is_reconnecting := false |} in
  Reconnect.get_reconnect_delay rm None = Exc.Raise Exc.overflow_error /\
  Reconnect.get_reconnect_delay rm None
  <> Exc.Ok (Qmin (1 * 2 ^ Reconnect.reconnect_attempts rm) 30).
Proof.
  cbv zeta. assert (H : Reconnect.get_reconnect_delay
    {| Reconnect.reconnect_attempts := 1024; Reconnect.last_reconnect_time := 0;
       Reconnect.is_reconnecting := false |} None
    = Exc.Raise Exc.overflow_error) by reflexivity.
  split; [exact H|]. rewrite H. discriminate.
Qed.

(* ------------------------------------------------------------------ *)
(** ** The mute bridge of the upstream client *)
(* ------------------------------------------------------------------ *)

Lemma send_silence_connected (c : Client.WebTranslateClient) w now :
  Client.is_connected c = true ->
  Client.ws c = Some w ->
  Val.ws_failure w = None ->
  Client.input_rate c = 16000 ->
  Client._send_silence 3 now c
  = (Exc.Ok tt,
     Client.set_ws
       (Some {| Val.ws_failure := None;
                Val.ws_sent :=
                  Val.ws_sent w
                  ++ [Val.InputAudioBufferAppend now (repeat 0 (Z.to_nat 96000))]
             |}) c).
Proof.
  intros Hc Hw Hf Hr.
  unfold Client._send_silence, Exc.bind, Exc.get, Exc.try_except.
  rewrite Hc, Hw, Hr. cbn [negb orb].
  change (Val.py_int (inject_Z 16000 * 3)) with 48000.
  change (48000 * 2) with 96000.
  unfold Client.send. rewrite Hw. unfold Val.ws_send. rewrite Hf.
  reflexivity.
Qed.

Lemma pause_when_paused (c : Client.WebTranslateClient) now :
  Client.is_processing_audio c = false ->
  Client.pause_audio_processing now c = (Exc.Ok tt, c).
Proof.
  intros H. unfold Client.pause_audio_processing, Exc.bind, Exc.get.
  now rewrite H.
Qed.

Lemma pause_leaves_paused (c : Client.WebTranslateClient) now :
  Client.is_processing_audio (snd (Client.pause_audio_processing now c))
  = false.
Proof.
  unfold Client.pause_audio_processing, Exc.bind, Exc.get, Exc.modify.
  destruct (Client.is_processing_audio c) eqn:E; [|exact E].
  cbn [fst snd].
  unfold Client._send_silence, Exc.bind, Exc.get, Exc.try_except, Exc.ret.
  cbn [Client.is_connected Client.ws Client.set_translation_start_time
         Client.set_is_processing_audio].
  destruct (negb (Client.is_connected c) || _); [reflexivity|].
  unfold Client.send.
  cbn [Client.ws Client.set_translation_start_time
         Client.set_is_processing_audio].
  destruct (Client.ws c) as [w|]; [|reflexivity].
  destruct (Val.ws_send _ w) as [[|e] w']; reflexivity.
Qed.

(** C9.  The second of two consecutive [mute=true] signals is a no-op in
    every state; on a connected client that is forwarding audio the two
    signals together put exactly one message on the upstream connection,
    the 3-second block of silence (48000 samples, 96000 zero bytes), and
    leave forwarding suspended; a [mute=false] signal on a client that is
    forwarding audio changes nothing. *)
Theorem C9_mute_idempotent :
  (forall c t1 t2,
      let c1 := snd (Client.pause_audio_processing t1 c) in
      Client.pause_audio_processing t2 c1 = (Exc.Ok tt, c1)) /\
  (forall c w t1 t2,
      Client.is_processing_audio c = true ->
      Client.is_connected c = true ->
      Client.ws c = Some w ->
      Val.ws_failure w = None ->
      Client.input_rate c = 16000 ->
      let c2 :=
        snd (Client.pause_audio_processing t2
               (snd (Client.pause_audio_processing t1 c))) in
      Client.ws c2
      = Some {| Val.ws_failure := None;
                Val.ws_sent :=
                  Val.ws_sent w
                  ++ [Val.InputAudioBufferAppend t1 (repeat 0 (Z.to_nat 96000))]
             |} /\
      Client.is_processing_audio c2 = false) /\
  (forall c,
      Client.is_processing_audio c = true ->
      Client.resume_audio_processing c = (Exc.Ok tt, c)).
Proof.
  split; [|split].
  - intros c t1 t2 c1. apply pause_when_paused. apply pause_leaves_paused.
  - intros c w t1 t2 Hp Hc Hw Hf Hr. cbv zeta.
    rewrite (pause_when_paused _ t2 (pause_leaves_paused c t1)).
    cbn [snd]. split; [|apply pause_leaves_paused].
    unfold Client.pause_audio_processing, Exc.bind, Exc.get, Exc.modify.
    rewrite Hp.
    rewrite (send_silence_connected _ w t1) by assumption.
    reflexivity.
  - intros c Hp. unfold Client.resume_audio_processing, Exc.modify.
    destruct c. cbn in Hp. subst. reflexivity.
Qed.

Example sample_client_is_connected_client :
  match Client.__init__ (lit "sk-test") (Val.PyStr (lit "en"))
          (Val.PyStr (lit "Cherry")) (Val.PyBool true) true true with
  | Exc.Ok c => Client.connect (Exc.Ok Val.fresh_ws) 0 c
  | Exc.Raise e => (Exc.Raise e, sample_client)
  end = (Exc.Ok tt, sample_client).
Proof. reflexivity. Qed.

Lemma C9_mute_idempotent_witness :
  (let c2 :=
     snd (Client.pause_audio_processing 2
            (snd (Client.pause_audio_processing 1 sample_client))) in
   Client.ws c2
   = Some {| Val.ws_failure := None;
             Val.ws_sent :=
               Val.ws_sent sample_ws
               ++ [Val.InputAudioBufferAppend 1 (repeat 0 (Z.to_nat 96000))]
          |} /\
   Client.is_processing_audio c2 = false) /\
  Client.resume_audio_processing sample_client = (Exc.Ok tt, sample_client).
Proof.
  destruct C9_mute_idempotent as (_ & Honce & Hresume).
  split.
  - apply (Honce sample_client sample_ws 1%Q 2%Q); reflexivity.
  - apply (Hresume sample_client). reflexivity.
Defined.

(* ------------------------------------------------------------------ *)
(** ** Computations that keep a relation between states *)
(* ------------------------------------------------------------------ *)

Section Preserves.

Context {S : Type}.
Variable R : S -> S -> Prop.
Hypothesis R_refl : forall s, R s s.
Hypothesis R_trans : forall a b c, R a b -> R b c -> R a c.

Lemma preserves_ret {A} (a : A) : preserves R (Exc.ret a).
Proof. intros s. apply R_refl. Qed.

Lemma preserves_raise {A} e : preserves R (@Exc.raise S A e).
Proof. intros s. apply R_refl. Qed.

Lemma preserves_lift {A} (r : Exc.result A) : preserves R (Exc.lift r).
Proof. intros s. apply R_refl. Qed.

Lemma preserves_get : preserves R Exc.get.
Proof. intros s. apply R_refl. Qed.

Lemma preserves_modify f : (forall s, R s (f s)) -> preserves R (Exc.modify f).
Proof. intros H s. apply H. Qed.

Lemma preserves_bind {A B} (m : Exc.M S A) (k : A -> Exc.M S B) :
  preserves R m -> (forall a, preserves R (k a)) -> preserves R (Exc.bind m k).
Proof.
  intros Hm Hk s. unfold Exc.bind. specialize (Hm s).
  destruct (m s) as [[a|e] s']; cbn [snd] in *; [|exact Hm].
  eapply R_trans; [exact Hm|apply Hk].
Qed.

Lemma preserves_try_except {A} (m : Exc.M S A) h :
  preserves R m -> (forall e, preserves R (h e)) ->
  preserves R (Exc.try_except m h).
Proof.
  intros Hm Hh s. unfold Exc.try_except. specialize (Hm s).
  destruct (m s) as [[a|e] s']; cbn [snd] in *; [exact Hm|].
  eapply R_trans; [exact Hm|apply Hh].
Qed.

Lemma preserves_when b (m : Exc.M S unit) :
  preserves R m -> preserves R (Exc.when b m).
Proof. intros Hm. destruct b; [exact Hm|apply preserves_ret]. Qed.

Lemma preserves_zoom {T A} (l : Exc.lens S T) (m : Exc.M T A) :
  (forall s t, R s (Exc.update l t s)) -> preserves R (Exc.zoom l m).
Proof.
  intros H s. unfold Exc.zoom. destruct (m (Exc.view l s)) as [r t].
  apply H.
Qed.

End Preserves.

Lemma same_session_refl s : same_session s s.
Proof. now repeat split. Qed.

Lemma same_session_trans a b c :
  same_session a b -> same_session b c -> same_session a c.
Proof.
  unfold same_session. intros (H1 & H2 & H3) (H4 & H5 & H6).
  repeat split; congruence.
Qed.

Lemma untouched_refl s : untouched s s.
Proof. repeat split. Qed.

Lemma untouched_trans a b c : untouched a b -> untouched b c -> untouched a c.
Proof.
  unfold untouched. intros (H1 & H2 & H3 & H4) (H5 & H6 & H7 & H8).
  split; [eapply same_session_trans; eassumption|].
  repeat split; congruence.
Qed.

Lemma untouched2_refl p : untouched2 p p.
Proof. split; [apply untouched_refl|reflexivity]. Qed.

Lemma untouched2_trans a b c :
  untouched2 a b -> untouched2 b c -> untouched2 a c.
Proof.
  intros [H1 H2] [H3 H4].
  split; [eapply untouched_trans; eassumption|congruence].
Qed.

(* ------------------------------------------------------------------ *)
(** ** What the reader task can touch *)
(* ------------------------------------------------------------------ *)

Section ReaderFrame.

Context {S : Type}.
Variable R : S -> S -> Prop.
Hypothesis R_refl : forall s, R s s.
Hypothesis R_trans : forall a b c, R a b -> R b c -> R a c.

Variable self_ : Exc.lens S Client.WebTranslateClient.
Variable osc_ : Exc.lens S OSC.OSCManager.
Variable b64decode : Val.pyval -> Exc.result Val.bytes.
Variable on_text_received : Val.pyval -> Exc.M S unit.
Variable on_audio_received : option (Val.bytes -> Exc.M S unit).

Hypothesis self_frame : forall s t, R s (Exc.update self_ t s).
Hypothesis osc_frame : forall s t, R s (Exc.update osc_ t s).
Hypothesis text_frame : forall text, preserves R (on_text_received text).
Hypothesis audio_frame :
  forall f, on_audio_received = Some f -> forall a, preserves R (f a).

Ltac frame_step :=
  first
    [ apply (preserves_ret R R_refl)
    | apply (preserves_raise R R_refl)
    | apply (preserves_lift R R_refl)
    | apply preserves_zoom; assumption
    | apply text_frame
    | apply (preserves_when R R_refl)
    | apply (preserves_bind R R_trans); [|intros ?]
    | apply (preserves_try_except R R_trans); [|intros ?] ].

Ltac frame_cases :=
  match goal with
  | |- preserves _ (if ?b then _ else _) => destruct b
  | |- preserves _ (match ?x with _ => _ end) => destruct x
  end.

Lemma send_osc_text_frame text ongoing :
  preserves R (Client.send_osc_text self_ osc_ text ongoing).
Proof. unfold Client.send_osc_text. repeat frame_step. Qed.

Lemma deliver_text_frame event key :
  preserves R (Client.deliver_text on_text_received event key).
Proof. unfold Client.deliver_text. repeat frame_step. Qed.

Lemma handle_partial_frame event :
  preserves R (Client.handle_partial self_ osc_ event).
Proof.
  unfold Client.handle_partial.
  repeat first [apply send_osc_text_frame | frame_step | frame_cases].
Qed.

Lemma handle_event_frame message :
  preserves R
    (Client.handle_event self_ osc_ b64decode on_text_received
       on_audio_received message).
Proof.
  unfold Client.handle_event.
  repeat first
    [ apply send_osc_text_frame | apply deliver_text_frame
    | apply handle_partial_frame | frame_step
    | match goal with
      | |- preserves _ (match on_audio_received with _ => _ end) =>
          destruct on_audio_received as [f|] eqn:Ef;
          [apply (audio_frame f eq_refl)|]
      end
    | frame_cases ].
Qed.

Lemma reader_iteration_frame item :
  preserves R
    (Client.reader_iteration self_ osc_ b64decode on_text_received
       on_audio_received item).
Proof.
  unfold Client.reader_iteration.
  repeat first [apply handle_event_frame | frame_step | frame_cases].
Qed.

End ReaderFrame.

Lemma on_text_received_untouched text s c :
  untouched2 (c, s) (c, snd (Server.on_text_received text s)).
Proof.
  unfold Server.on_text_received, Exc.bind, Exc.get, Exc.ret, Exc.modify.
  destruct (Server.websocket_active s); cbn [negb snd];
    [|apply untouched2_refl].
  destruct (Server.browser_send _ _) as [r b]. repeat split.
Qed.

Lemma on_audio_received_untouched audio s c :
  untouched2 (c, s) (c, snd (Server.on_audio_received audio s)).
Proof.
  unfold Server.on_audio_received, Exc.bind, Exc.get, Exc.ret,
    Exc.try_except, Exc.modify.
  destruct (Server.websocket_active s); cbn [negb snd];
    [|apply untouched2_refl].
  destruct (Server.browser_send _ _) as [[|e] b]; repeat split.
Qed.

(** One turn of the reader task: it never ends with an exception, it
    writes nothing the supervisor decides on, and when it ends on
    anything but the normal end of the stream the client is marked
    disconnected. *)
Lemma reader_turn_outcome b64decode item s c :
  Server.message_task s = Server.Running ->
  Server.client s = Some c ->
  let s' := Server.reader_turn b64decode item s in
  untouched s s' /\
  (Server.message_task s' = Server.Running \/
   (Server.message_task s' = Server.Done (Exc.Ok tt) /\
    (item = Client.StreamEnds \/
     exists c', Server.client s' = Some c' /\
                Client.is_connected c' = false))).
Proof.
  intros Ht Hc. unfold Server.reader_turn. rewrite Ht, Hc. cbv zeta.
  match goal with
  | |- context [Client.reader_iteration ?a ?b ?d ?t ?au item (c, s)] =>
      pose proof (reader_iteration_frame untouched2 untouched2_refl
                    untouched2_trans a b d t au) as Hframe;
      set (self_ := a) in *; set (osc_ := b) in *;
      set (on_text := t) in *; set (on_audio := au) in *
  end.
  assert (Hfr : untouched2 (c, s)
            (snd (Client.reader_iteration self_ osc_ b64decode on_text
                    on_audio item (c, s)))).
  { apply Hframe.
    - intros p t. repeat split.
    - intros p t. repeat split.
    - intros text [c0 s0]. unfold on_text, Exc.zoom.
      cbn [Exc.view Exc.update fst snd].
      pose proof (on_text_received_untouched text s0 c0) as H.
      destruct (Server.on_text_received text s0). exact H.
    - intros f Hf a [c0 s0]. unfold on_audio in Hf. injection Hf as <-.
      unfold Exc.zoom. cbn [Exc.view Exc.update fst snd].
      pose proof (on_audio_received_untouched a s0 c0) as H.
      destruct (Server.on_audio_received a s0). exact H. }
  unfold Client.reader_iteration, Exc.try_except in *.
  destruct (match item with
            | Client.StreamMessage message =>
                (Client.handle_event self_ osc_ b64decode on_text on_audio
                   message;; Exc.ret Client.Continue)%py
            | Client.StreamRaises e => Exc.raise e
            | Client.StreamEnds => Exc.ret Client.Stop
            end (c, s)) as [[st|e] [c1 s1]] eqn:Hbody.
  - destruct Hfr as [Hu Hm]. cbn [snd] in Hu, Hm.
    destruct st.
    + split; [|left; cbn; congruence].
      eapply untouched_trans; [exact Hu|]. repeat split.
    + split; [eapply untouched_trans; [exact Hu|]; repeat split|].
      right. split; [reflexivity|]. left.
      destruct item as [m|e|]; [|discriminate|reflexivity].
      unfold Exc.bind in Hbody.
      destruct (Client.handle_event _ _ _ _ _ _ _) as [[[]|e] p];
        discriminate.
  - cbn in Hfr. destruct Hfr as [Hu Hm].
    change (Exc.update self_ ?t ?p) with (t, snd p) in *.
    cbn [snd fst] in *.
    split; [eapply untouched_trans; [exact Hu|]; repeat split|].
    right. split; [reflexivity|]. right.
    eexists. split; reflexivity.
Qed.

(* ------------------------------------------------------------------ *)
(** ** Upstream failures and the supervisor *)
(* ------------------------------------------------------------------ *)

Example sample_streaming_state :
  Server.at_ sample_streaming = Server.Receiving /\
  Server.client sample_streaming = Some sample_client /\
  Server.message_task sample_streaming = Server.Running /\
  Server.trace sample_streaming
  = [Server.Constructed (Val.PyStr (lit "en")) (Val.PyStr (lit "Cherry"))
       (Val.PyBool true)].
Proof. repeat split. Qed.

Lemma reader_ends_on_exception b64decode e s c :
  Server.message_task s = Server.Running ->
  Server.client s = Some c ->
  Server.message_task (Server.reader_turn b64decode (Client.StreamRaises e) s)
  = Server.Done (Exc.Ok tt).
Proof.
  intros Ht Hc. unfold Server.reader_turn. rewrite Ht, Hc. reflexivity.
Qed.

Lemma reader_ends_on_undecodable b64decode s c :
  Server.message_task s = Server.Running ->
  Server.client s = Some c ->
  Server.message_task
    (Server.reader_turn b64decode (Client.StreamMessage None) s)
  = Server.Done (Exc.Ok tt).
Proof.
  intros Ht Hc. unfold Server.reader_turn. rewrite Ht, Hc. reflexivity.
Qed.

(** An audio frame for a client marked disconnected changes nothing: it
    is dropped and the supervisor goes on waiting. *)
Lemma audio_dropped_when_disconnected b64decode now s c audio :
  Server.at_ s = Server.Receiving ->
  Server.websocket_active s = true ->
  Server.client s = Some c ->
  Client.is_connected c = false ->
  Server.step b64decode now (Server.Received (Server.RecvBytes (0 :: audio))) s
  = s.
Proof.
  intros Hat Hact Hc Hcon. destruct s. cbn in Hat, Hact, Hc. subst.
  unfold Server.step, Server.guarded, Server.handle_received, Exc.bind,
    Server.on_client.
  cbn [Server.at_ Server.client Z.eqb].
  unfold Client.send_audio_chunk, Exc.bind, Exc.get. rewrite Hcon.
  reflexivity.
Qed.

(** C3, as amended.  When a turn of the upstream reading loop ends the loop
    on anything but the normal end of the stream -- an exception of the
    transport, a message that is not JSON, or any failure while the event
    is handled -- the client is marked disconnected, the reader task
    finishes without an exception, and nothing the supervisor decides on
    is written: its reconnect manager, its position and its trace of
    calls are as before.  Transport exceptions and undecodable messages
    do end the loop.  Audio frames that arrive afterwards are dropped and
    the supervisor keeps waiting. *)
Theorem C3_reader_failure_stays_in_reader :
  (forall b64decode item s c,
      Server.message_task s = Server.Running ->
      Server.client s = Some c ->
      item <> Client.StreamEnds ->
      let s' := Server.reader_turn b64decode item s in
      Server.message_task s' <> Server.Running ->
      Server.message_task s' = Server.Done (Exc.Ok tt) /\
      (exists c', Server.client s' = Some c' /\
                  Client.is_connected c' = false) /\
      untouched s s') /\
  (forall b64decode item s c,
      Server.message_task s = Server.Running ->
      Server.client s = Some c ->
      (item = Client.StreamMessage None \/
       exists e, item = Client.StreamRaises e) ->
      Server.message_task (Server.reader_turn b64decode item s)
      <> Server.Running) /\
  (forall b64decode now s c audio,
      Server.at_ s = Server.Receiving ->
      Server.websocket_active s = true ->
      Server.client s = Some c ->
      Client.is_connected c = false ->
      Server.step b64decode now
        (Server.Received (Server.RecvBytes (0 :: audio))) s = s).
Proof.
  split; [|split].
  - intros b64decode item s c Ht Hc Hitem s' Hended.
    destruct (reader_turn_outcome b64decode item s c Ht Hc)
      as [Hu [Hrun|[Hdone [Hend|Hdis]]]]; fold s' in Hu |- *.
    + contradiction.
    + contradiction.
    + auto.
  - intros b64decode item s c Ht Hc [->|[e ->]].
    + now rewrite (reader_ends_on_undecodable _ _ _ Ht Hc).
    + now rewrite (reader_ends_on_exception _ _ _ _ Ht Hc).
  - exact audio_dropped_when_disconnected.
Qed.

Lemma C3_reader_failure_stays_in_reader_witness :
  let s' := Server.reader_turn no_b64 (Client.StreamRaises closed_1011)
              sample_streaming in
  (Server.message_task s' = Server.Done (Exc.Ok tt) /\
   (exists c', Server.client s' = Some c' /\ Client.is_connected c' = false) /\
   untouched sample_streaming s') /\
  Server.step no_b64 5 (Server.Received (Server.RecvBytes [0; 1; 2])) s' = s'.
Proof.
  destruct C3_reader_failure_stays_in_reader as (Hend & Hdoes & Hdrop).
  cbv zeta. split.
  - apply (Hend no_b64 (Client.StreamRaises closed_1011) sample_streaming
             sample_client); [reflexivity|reflexivity|discriminate|].
    apply (Hdoes no_b64 _ sample_streaming sample_client);
      [reflexivity|reflexivity|]. right. now exists closed_1011.
  - apply (Hdrop no_b64 5%Q _
             (Client.set_is_connected false sample_client)); reflexivity.
Defined.

(** C3 as stated fails: the service closes the connection with code 1011,
    the reader marks the client disconnected and finishes, and the
    supervisor is never asked whether to reconnect -- not then, and not
    when the next audio frame arrives, which is dropped. *)
Lemma C3_counterexample :
  let s :=
    Server.run no_b64
      [(0%Q, Server.Connected (Exc.Ok Val.fresh_ws));
       (1%Q, Server.FromUpstream (Client.StreamRaises closed_1011));
       (2%Q, Server.Received (Server.RecvBytes [0; 7; 7]))]
      sample_start in
  Reconnect.should_reconnect (Server.reconnect_manager s)
    (Server.error_code_of closed_1011) = true /\
  Server.client s = Some (Client.set_is_connected false sample_client) /\
  Server.message_task s = Server.Done (Exc.Ok tt) /\
  Server.at_ s = Server.Receiving /\
  Server.websocket_active s = true /\
  Server.reconnect_manager s = Reconnect.init /\
  Server.trace s
  = [Server.Constructed (Val.PyStr (lit "en")) (Val.PyStr (lit "Cherry"))
       (Val.PyBool true)].
Proof. cbv zeta. repeat split. Qed.

(* ------------------------------------------------------------------ *)
(** ** The receive timeout *)
(* ------------------------------------------------------------------ *)

Lemma should_reconnect_no_code rm : Reconnect.should_reconnect rm None = false.
Proof.
  unfold Reconnect.should_reconnect.
  now destruct (Reconnect.reconnect_attempts rm >=? _).
Qed.

(** C1 (what the code does instead).  In every state in which the
    supervisor awaits a client message, the expiry of the receive timeout
    reaches the clause [except Exception]: the reconnect manager is asked
    with no error code, answers no, and the session is ended -- the
    [while ... else] branch that was meant to handle the timeout is not
    an exception handler. *)
Theorem C1_timeout_treated_as_error :
  forall b64decode now s,
    Server.at_ s = Server.Receiving ->
    let s' :=
      Server.step b64decode now
        (Server.Received (Server.RecvRaises Exc.timeout_error)) s in
    Server.trace s' = Server.trace s ++ [Server.AskedReconnect None false] /\
    Server.websocket_active s' = false /\
    Server.at_ s' = Server.Ended.
Proof.
  intros b64decode now s Hat. cbv zeta.
  unfold Server.step. rewrite Hat.
  unfold Server.guarded, Server.handle_received, Exc.raise.
  unfold Server.handle_exception, Exc.bind, Exc.get, Exc.modify.
  change (Server.error_code_of Exc.timeout_error) with (@None Z).
  rewrite should_reconnect_no_code. cbn [snd fst Exc.ret].
  unfold Server.finally_, Exc.bind, Exc.get, Exc.modify, Exc.try_except,
    Server.on_client, Exc.ret.
  destruct s as [o w k tl v ae mc so rm [c|] mt vt act q p tr];
    destruct mt as [| |?|], vt as [| |?|]; cbn; repeat split.
Qed.

Lemma C1_timeout_treated_as_error_witness :
  let s' :=
    Server.step no_b64 60
      (Server.Received (Server.RecvRaises Exc.timeout_error))
      sample_streaming in
  Server.trace s'
  = Server.trace sample_streaming ++ [Server.AskedReconnect None false] /\
  Server.websocket_active s' = false /\
  Server.at_ s' = Server.Ended.
Proof.
  apply (C1_timeout_treated_as_error no_b64 60%Q sample_streaming).
  reflexivity.
Defined.

(* ------------------------------------------------------------------ *)
(** ** Session settings across reconnections *)
(* ------------------------------------------------------------------ *)

Lemma session_kept_refl s : session_kept s s.
Proof.
  split; [apply same_session_refl|]. exists []. now rewrite app_nil_r.
Qed.

Lemma session_kept_trans a b c :
  session_kept a b -> session_kept b c -> session_kept a c.
Proof.
  intros [H1 [r1 E1]] [H2 [r2 E2]].
  split; [eapply same_session_trans; eassumption|].
  exists (r1 ++ r2). now rewrite E2, E1, app_assoc.
Qed.

Lemma session_kept_fields s s' :
  Server.target_language s' = Server.target_language s ->
  Server.voice s' = Server.voice s ->
  Server.audio_enabled s' = Server.audio_enabled s ->
  Server.trace s' = Server.trace s ->
  session_kept s s'.
Proof.
  intros H1 H2 H3 H4. split; [now repeat split|].
  exists []. now rewrite app_nil_r.
Qed.

Lemma on_client_kept {A} (m : Exc.M Client.WebTranslateClient A) :
  preserves session_kept (Server.on_client m).
Proof.
  intros s. unfold Server.on_client.
  destruct (Server.client s); [|apply session_kept_refl].
  destruct (m w). now apply session_kept_fields.
Qed.

Lemma log_kept a : preserves session_kept (Exc.modify (Server.log a)).
Proof.
  intros s. split; [now repeat split|]. now exists [a].
Qed.

Ltac kept_modify :=
  apply preserves_modify; intros ?;
  repeat match goal with
    | |- context [if ?b then _ else _] => destruct b
    end;
  first [apply session_kept_refl | now apply session_kept_fields].

Ltac kept_step :=
  first
    [ apply (preserves_ret session_kept session_kept_refl)
    | apply (preserves_raise session_kept session_kept_refl)
    | apply (preserves_lift session_kept session_kept_refl)
    | apply (preserves_get session_kept session_kept_refl)
    | apply on_client_kept
    | apply log_kept
    | kept_modify
    | apply (preserves_when session_kept session_kept_refl)
    | apply (preserves_bind session_kept session_kept_trans); [|intros ?]
    | apply (preserves_try_except session_kept session_kept_trans);
      [|intros ?]
    | match goal with
      | |- preserves _ (if ?b then _ else _) => destruct b
      | |- preserves _ (match ?x with _ => _ end) => destruct x
      end ].

Lemma finally_kept : preserves session_kept Server.finally_.
Proof. unfold Server.finally_. repeat kept_step. Qed.

Lemma outer_loop_top_kept : preserves session_kept Server.outer_loop_top.
Proof.
  unfold Server.outer_loop_top.
  repeat first [apply finally_kept | kept_step].
Qed.

Lemma handle_exception_kept e now :
  preserves session_kept (Server.handle_exception e now).
Proof. unfold Server.handle_exception. repeat kept_step. Qed.

Lemma guarded_kept body now :
  preserves session_kept body ->
  preserves session_kept (Server.guarded body now).
Proof.
  intros Hb s. unfold Server.guarded. specialize (Hb s).
  destruct (body s) as [[[]|e] s1]; cbn [snd] in Hb.
  - eapply session_kept_trans; [exact Hb|apply outer_loop_top_kept].
  - eapply session_kept_trans; [exact Hb|apply finally_kept].
  - pose proof (handle_exception_kept e now s1) as He.
    destruct (Server.handle_exception e now s1) as [[[]|e'] s2];
      cbn [snd] in He.
    + eapply session_kept_trans; [exact Hb|].
      eapply session_kept_trans; [exact He|apply outer_loop_top_kept].
    + eapply session_kept_trans; [exact Hb|].
      eapply session_kept_trans; [exact He|apply finally_kept].
    + eapply session_kept_trans; [exact Hb|].
      eapply session_kept_trans; [exact He|].
      assert (H : preserves session_kept
                    (Server.finally_ ;; Exc.modify (Server.log (Server.Propagated e')))%py)
        by repeat first [apply finally_kept | kept_step].
      apply H.
Qed.

Lemma create_client_kept outcome now :
  preserves session_kept (Server.create_client outcome now).
Proof.
  unfold Server.create_client, Server.create_and_connect_client.
  repeat kept_step.
Qed.

Lemma handle_text_kept t now :
  is_session_update (Server.Received (Server.RecvText t)) = false ->
  preserves session_kept (Server.handle_text t now).
Proof.
  intros H. unfold Server.handle_text.
  apply (preserves_try_except session_kept session_kept_trans);
    [|intros ?; kept_step].
  destruct t as [|v|]; try (intros s; apply session_kept_refl).
  match goal with
  | |- preserves _ (Exc.bind _ ?k) =>
      assert (Hk : preserves session_kept (k v)); [|intros s; exact (Hk s)]
  end.
  cbv beta.
  destruct v as [| | | | |d];
    [kept_step|kept_step|kept_step|kept_step|kept_step|].
  cbn [is_session_update] in H. rewrite H. repeat kept_step.
Qed.

Lemma handle_received_kept r now :
  is_session_update (Server.Received r) = false ->
  preserves session_kept (Server.handle_received r now).
Proof.
  intros H. unfold Server.handle_received.
  destruct r as [data|t| | |e]; try solve [repeat kept_step].
  destruct t; try solve [repeat kept_step].
  apply (preserves_bind session_kept session_kept_trans);
    [now apply handle_text_kept|intros ?; kept_step].
Qed.

(** Only a [session.update] frame changes the settings a later client is
    created with; every other step keeps them, and only adds to the
    trace. *)
Lemma step_kept b64decode now i s :
  is_session_update i = false ->
  session_kept s (Server.step b64decode now i s).
Proof.
  intros H.
  assert (Hreader : session_kept s (Server.reader_turn b64decode
                                      match i with
                                      | Server.FromUpstream item => item
                                      | _ => Client.StreamEnds
                                      end s)).
  { unfold Server.reader_turn.
    destruct (Server.message_task s) eqn:Ht; try apply session_kept_refl.
    destruct (Server.client s) as [c|] eqn:Hc; try apply session_kept_refl.
    destruct (reader_turn_outcome b64decode
                match i with
                | Server.FromUpstream item => item
                | _ => Client.StreamEnds
                end s c Ht Hc) as [(Hs & _ & _ & Htr) _].
    unfold Server.reader_turn in Hs, Htr. rewrite Ht, Hc in Hs, Htr.
    split; [exact Hs|]. exists []. now rewrite app_nil_r. }
  unfold Server.step.
  destruct (Server.at_ s) eqn:Hat, i as [outcome|r|item|e|m];
    try apply session_kept_refl; try exact Hreader;
    try (apply guarded_kept;
         first [ now apply handle_received_kept
               | apply (preserves_bind session_kept session_kept_trans);
                 [apply create_client_kept|intros ?; kept_step] ]);
    repeat match goal with
      | |- session_kept _ (if ?b then _ else _) => destruct b
      | |- session_kept _ (match ?x with _ => _ end) => destruct x
      end;
    first [apply session_kept_refl | now apply session_kept_fields].
Qed.

Lemma run_kept b64decode inputs :
  forall s,
    Forall (fun ti => is_session_update (snd ti) = false) inputs ->
    session_kept s (Server.run b64decode inputs s).
Proof.
  induction inputs as [|[now i] inputs IH]; intros s H;
    [apply session_kept_refl|].
  inversion H as [|? ? Hi Hrest]; subst. cbn [Server.run fold_left fst snd].
  eapply session_kept_trans; [apply step_kept; exact Hi|].
  apply IH. exact Hrest.
Qed.

(** What a [session.update] frame does to the supervisor's variables. *)
Lemma session_update_sets_settings b64decode now s d :
  Server.at_ s = Server.Receiving ->
  Val.val_is_str (Val.dict_get d (lit "type") Val.PyNone)
    (lit "session.update") = true ->
  let s' :=
    Server.step b64decode now
      (Server.Received (Server.RecvText (Server.Json (Val.PyDict d)))) s in
  Server.target_language s' = Server.target_language s /\
  Server.voice s' = Val.dict_get d (lit "voice") Val.PyNone /\
  Server.audio_enabled s' = Val.dict_get d (lit "audio_enabled") Val.PyNone.
Proof.
  intros Hat Htype. cbv zeta.
  set (s1 := Server.set_voice_audio
               (Val.dict_get d (lit "voice") Val.PyNone)
               (Val.dict_get d (lit "audio_enabled") Val.PyNone) s).
  set (rest :=
         (Exc.try_except
            (s0 <- Exc.get ;;
             match Server.client s0 with
             | Some _ =>
                 Server.on_client
                   (Client.update_session
                      (Val.dict_get d (lit "target_language") Val.PyNone)
                      (Server.voice s0) (Server.audio_enabled s0) now)
             | None => Exc.ret tt
             end)
            (fun _ => Exc.ret tt) ;;
          Exc.ret Client.Continue)%py).
  assert (Heq :
    Server.step b64decode now
      (Server.Received (Server.RecvText (Server.Json (Val.PyDict d)))) s
    = snd (Server.guarded rest now s1)).
  { unfold Server.step. rewrite Hat.
    unfold Server.guarded, Server.handle_received, Server.handle_text, rest.
    unfold Exc.bind at 1 2 3. unfold Exc.try_except at 1.
    unfold Exc.bind at 1. unfold Exc.lift at 1. cbv beta iota.
    rewrite Htype.
    unfold Exc.bind at 1. unfold Exc.modify at 1. cbv beta iota.
    fold s1. reflexivity. }
  rewrite Heq.
  assert (Hkept : session_kept s1 (snd (Server.guarded rest now s1))).
  { apply guarded_kept. unfold rest. repeat kept_step. }
  destruct Hkept as [(H1 & H2 & H3) _]. rewrite H1, H2, H3. repeat split.
Qed.

(** A client is created with the supervisor's variables as they are. *)
Lemma creation_uses_settings b64decode now outcome s :
  Server.at_ s = Server.Connecting ->
  exists rest,
    Server.trace (Server.step b64decode now (Server.Connected outcome) s)
    = Server.trace s
      ++ Server.Constructed (Server.target_language s) (Server.voice s)
           (Server.audio_enabled s) :: rest.
Proof.
  intros Hat.
  set (a := Server.Constructed (Server.target_language s) (Server.voice s)
              (Server.audio_enabled s)).
  set (body :=
         ((c <- (c <- Exc.lift
                        (Client.__init__ (Server.api_key s)
                           (Server.target_language s) (Server.voice s)
                           (Server.audio_enabled s) (Server.osc_mute_control s)
                           (Server.send_to_osc s)) ;;
                 let '(r, c) := Client.connect outcome now c in
                 match r with
                 | Exc.Raise e => Exc.raise e
                 | Exc.Ok _ =>
                     Exc.modify
                       (fun s => Server.set_osc_manager
                                   (OSC.set_mute_callback (Server.osc_manager s))
                                   s) ;;
                     Exc.ret c
                 end) ;;
           Exc.modify (Server.set_client (Some c)) ;;
           Exc.modify (Server.set_message_task Server.Running) ;;
           Exc.modify (Server.set_video_sender_task Server.Running) ;;
           Exc.modify
             (fun s => Server.set_reconnect_manager
                         (Reconnect.reset (Server.reconnect_manager s)) s)) ;;
          Exc.ret Client.Continue)%py).
  assert (Heq :
    Server.step b64decode now (Server.Connected outcome) s
    = snd (Server.guarded body now (Server.log a s))).
  { unfold Server.step. rewrite Hat. reflexivity. }
  rewrite Heq.
  assert (Hkept : session_kept (Server.log a s)
                    (snd (Server.guarded body now (Server.log a s)))).
  { apply guarded_kept. unfold body. repeat kept_step. }
  destruct Hkept as [_ [rest Hrest]]. exists rest.
  rewrite Hrest. cbn [Server.log Server.trace].
  now rewrite <- app_assoc.
Qed.

Lemma dict_get_missing d k default :
  Val.lookup d k = None -> Val.dict_get d k default = default.
Proof. unfold Val.dict_get. now intros ->. Qed.

(** C10.  Handling a [session.update] frame leaves the supervisor's
    [target_language] as it was at connection time and sets its [voice]
    and [audio_enabled] to the frame's values, which are [None] for
    fields the frame omits; no step other than a [session.update] frame
    changes these variables; and a client created when the supervisor
    reconnects is constructed with them.  So after a frame without
    [voice] and [audio_enabled], every later reconnection constructs its
    client with the original language, [voice=None] and
    [audio_enabled=None]. *)
Theorem C10_session_update_settings_on_reconnect :
  (forall b64decode now s d,
      Server.at_ s = Server.Receiving ->
      Val.val_is_str (Val.dict_get d (lit "type") Val.PyNone)
        (lit "session.update") = true ->
      let s' :=
        Server.step b64decode now
          (Server.Received (Server.RecvText (Server.Json (Val.PyDict d)))) s in
      Server.target_language s' = Server.target_language s /\
      Server.voice s' = Val.dict_get d (lit "voice") Val.PyNone /\
      Server.audio_enabled s'
      = Val.dict_get d (lit "audio_enabled") Val.PyNone) /\
  (forall b64decode now s d inputs now' outcome,
      Server.at_ s = Server.Receiving ->
      Val.val_is_str (Val.dict_get d (lit "type") Val.PyNone)
        (lit "session.update") = true ->
      Val.lookup d (lit "voice") = None ->
      Val.lookup d (lit "audio_enabled") = None ->
      Forall (fun ti => is_session_update (snd ti) = false) inputs ->
      let s1 :=
        Server.run b64decode inputs
          (Server.step b64decode now
             (Server.Received (Server.RecvText (Server.Json (Val.PyDict d))))
             s) in
      Server.at_ s1 = Server.Connecting ->
      Server.voice s1 = Val.PyNone /\
      Server.audio_enabled s1 = Val.PyNone /\
      exists rest,
        Server.trace (Server.step b64decode now' (Server.Connected outcome) s1)
        = Server.trace s1
          ++ Server.Constructed (Server.target_language s) Val.PyNone
               Val.PyNone :: rest).
Proof.
  split; [exact session_update_sets_settings|].
  intros b64decode now s d inputs now' outcome Hat Htype Hv Hae Hin s1 Hat1.
  destruct (session_update_sets_settings b64decode now s d Hat Htype)
    as (Htl & Hvoice & Haudio).
  rewrite (dict_get_missing _ _ _ Hv) in Hvoice.
  rewrite (dict_get_missing _ _ _ Hae) in Haudio.
  destruct (run_kept b64decode inputs
              (Server.step b64decode now
                 (Server.Received
                    (Server.RecvText (Server.Json (Val.PyDict d)))) s) Hin)
    as [(Ktl & Kv & Ka) _].
  fold s1 in Ktl, Kv, Ka.
  rewrite Hvoice in Kv. rewrite Haudio in Ka. rewrite Htl in Ktl.
  split; [exact Kv|]. split; [exact Ka|].
  destruct (creation_uses_settings b64decode now' outcome s1 Hat1)
    as [rest Hrest].
  exists rest. now rewrite Hrest, Ktl, Kv, Ka.
Qed.

Lemma C10_session_update_settings_on_reconnect_witness :
  let s1 :=
    Server.run no_b64
      [(2%Q, Server.UpstreamCloses closed_1011);
       (3%Q, Server.Received (Server.RecvBytes [0; 7; 7]))]
      (Server.step no_b64 1 language_update sample_streaming) in
  Server.voice s1 = Val.PyNone /\
  Server.audio_enabled s1 = Val.PyNone /\
  exists rest,
    Server.trace
      (Server.step no_b64 4 (Server.Connected (Exc.Ok Val.fresh_ws)) s1)
    = Server.trace s1
      ++ Server.Constructed (Server.target_language sample_streaming)
           Val.PyNone Val.PyNone :: rest.
Proof.
  apply (proj2 C10_session_update_settings_on_reconnect no_b64 1%Q
           sample_streaming
           [(lit "type", Val.PyStr (lit "session.update"));
            (lit "target_language", Val.PyStr (lit "ja"))]);
    try reflexivity.
  repeat constructor.
Defined.

(** A whole session from its start: the frame reaches the live client,
    the connection then fails with code 1011, and the new client
    is constructed with no voice and no audio setting, so that it asks
    for text only in the original language. *)
Example reconnect_after_language_update :
  let s :=
    Server.run no_b64
      [(0%Q, Server.Connected (Exc.Ok Val.fresh_ws));
       (1%Q, language_update);
       (2%Q, Server.UpstreamCloses closed_1011);
       (3%Q, Server.Received (Server.RecvBytes [0; 7; 7]));
       (4%Q, Server.Connected (Exc.Ok Val.fresh_ws))]
      sample_start in
  Server.trace s
  = [Server.Constructed (Val.PyStr (lit "en")) (Val.PyStr (lit "Cherry"))
       (Val.PyBool true);
     Server.AskedReconnect (Some 1011) true;
     Server.Constructed (Val.PyStr (lit "en")) Val.PyNone Val.PyNone] /\
  option_map Client.ws (Server.client s)
  = Some (Some {| Val.ws_failure := None;
                  Val.ws_sent :=
                    [Val.SessionUpdate 4 [lit "text"] None
                       (Val.PyStr (lit "en"))] |}).
Proof. cbv zeta. split; reflexivity. Qed.

(* ------------------------------------------------------------------ *)
(** ** The attempt counter never passes the ceiling *)
(* ------------------------------------------------------------------ *)

Lemma same_manager_refl s : same_manager s s.
Proof. reflexivity. Qed.

Lemma same_manager_trans a b c :
  same_manager a b -> same_manager b c -> same_manager a c.
Proof. unfold same_manager. congruence. Qed.

Lemma on_client_same_manager {A} (m : Exc.M Client.WebTranslateClient A) :
  preserves same_manager (Server.on_client m).
Proof.
  intros s. unfold Server.on_client.
  destruct (Server.client s); [|reflexivity]. now destruct (m w).
Qed.

Ltac manager_step :=
  first
    [ apply (preserves_ret same_manager same_manager_refl)
    | apply (preserves_raise same_manager same_manager_refl)
    | apply (preserves_lift same_manager same_manager_refl)
    | apply (preserves_get same_manager same_manager_refl)
    | apply on_client_same_manager
    | apply preserves_modify; intros ?;
      repeat match goal with
        | |- context [if ?b then _ else _] => destruct b
        end;
      reflexivity
    | apply (preserves_when same_manager same_manager_refl)
    | apply (preserves_bind same_manager same_manager_trans); [|intros ?]
    | apply (preserves_try_except same_manager same_manager_trans);
      [|intros ?]
    | match goal with
      | |- preserves _ (if ?b then _ else _) => destruct b
      | |- preserves _ (match ?x with _ => _ end) => destruct x
      end ].

Lemma finally_same_manager : preserves same_manager Server.finally_.
Proof. unfold Server.finally_. repeat manager_step. Qed.

Lemma outer_loop_top_same_manager :
  preserves same_manager Server.outer_loop_top.
Proof.
  unfold Server.outer_loop_top.
  repeat first [apply finally_same_manager | manager_step].
Qed.

Lemma handle_text_same_manager t now :
  preserves same_manager (Server.handle_text t now).
Proof. unfold Server.handle_text. repeat manager_step. Qed.

Lemma handle_received_same_manager r now :
  preserves same_manager (Server.handle_received r now).
Proof.
  unfold Server.handle_received.
  repeat first [apply handle_text_same_manager | manager_step].
Qed.

Lemma should_reconnect_below_ceiling rm code :
  Reconnect.should_reconnect rm code = true ->
  Reconnect.reconnect_attempts rm < Reconnect.MAX_RECONNECT_ATTEMPTS.
Proof.
  unfold Reconnect.should_reconnect.
  destruct (Z.geb_spec (Reconnect.reconnect_attempts rm)
              Reconnect.MAX_RECONNECT_ATTEMPTS); [discriminate|lia].
Qed.

Lemma handle_exception_bounded e now s :
  attempts_bounded s ->
  attempts_bounded (snd (Server.handle_exception e now s)).
Proof.
  intros Hb. unfold Server.handle_exception.
  unfold Exc.bind at 1. unfold Exc.get at 1. cbv beta iota zeta.
  unfold Exc.bind at 1. unfold Exc.modify at 1. cbv beta iota.
  destruct (Reconnect.should_reconnect (Server.reconnect_manager s)
              (Server.error_code_of e)) eqn:E.
  - apply should_reconnect_below_ceiling in E.
    unfold Exc.bind at 1. unfold Exc.modify at 1. cbv beta iota.
    match goal with
    | |- attempts_bounded (snd (?m ?s1)) =>
        assert (H : preserves same_manager m) by repeat manager_step;
        specialize (H s1)
    end.
    unfold attempts_bounded in *. rewrite H.
    cbn [Server.reconnect_manager Server.set_reconnect_manager Server.log
           Reconnect.increment_attempts Reconnect.reconnect_attempts].
    lia.
  - exact Hb.
Qed.

Lemma create_client_bounded outcome now s :
  attempts_bounded s ->
  attempts_bounded (snd (Server.create_client outcome now s)).
Proof.
  intros Hb. unfold Server.create_client.
  unfold Exc.bind at 1.
  assert (H : same_manager s
                (snd (Server.create_and_connect_client outcome now s))).
  { revert s Hb. intros s _. revert s.
    unfold Server.create_and_connect_client. repeat manager_step. }
  destruct (Server.create_and_connect_client outcome now s) as [[c|e0] s1];
    cbn [snd] in H.
  - cbn. unfold attempts_bounded, Reconnect.MAX_RECONNECT_ATTEMPTS. cbn. lia.
  - cbn [snd]. unfold attempts_bounded in *. now rewrite H.
Qed.

Lemma guarded_bounded body now s :
  attempts_bounded s ->
  attempts_bounded (snd (body s)) ->
  attempts_bounded (snd (Server.guarded body now s)).
Proof.
  intros Hb Hbody. unfold Server.guarded.
  assert (Htop : forall s1, attempts_bounded s1 ->
                   attempts_bounded (snd (Server.outer_loop_top s1))).
  { intros s1 H1. unfold attempts_bounded in *.
    now rewrite (outer_loop_top_same_manager s1). }
  assert (Hfin : forall s1, attempts_bounded s1 ->
                   attempts_bounded (snd (Server.finally_ s1))).
  { intros s1 H1. unfold attempts_bounded in *.
    now rewrite (finally_same_manager s1). }
  destruct (body s) as [[[]|e] s1]; cbn [snd] in Hbody; auto.
  pose proof (handle_exception_bounded e now s1 Hbody) as He.
  destruct (Server.handle_exception e now s1) as [[[]|e'] s2];
    cbn [snd] in He; auto.
  unfold Exc.bind, Exc.modify. specialize (Hfin s2 He).
  destruct (Server.finally_ s2) as [[[]|e''] s3]; exact Hfin.
Qed.

Lemma reader_turn_bounded b64decode item s :
  attempts_bounded s ->
  attempts_bounded (Server.reader_turn b64decode item s).
Proof.
  intros Hb.
  destruct (Server.message_task s) eqn:Ht;
    try (unfold Server.reader_turn; rewrite Ht; exact Hb).
  destruct (Server.client s) as [c|] eqn:Hc;
    [|unfold Server.reader_turn; rewrite Ht, Hc; exact Hb].
  destruct (reader_turn_outcome b64decode item s c Ht Hc)
    as [(_ & Hrm & _) _].
  unfold attempts_bounded in *. now rewrite Hrm.
Qed.

Lemma step_bounded b64decode now i s :
  attempts_bounded s -> attempts_bounded (Server.step b64decode now i s).
Proof.
  intros Hb. unfold Server.step.
  destruct i as [outcome|r|item|e|m].
  - destruct (Server.at_ s); try exact Hb.
    apply guarded_bounded; [exact Hb|].
    unfold Exc.bind.
    pose proof (create_client_bounded outcome now s Hb) as H.
    destruct (Server.create_client outcome now s) as [[[]|?] ?]; exact H.
  - destruct (Server.at_ s); try exact Hb.
    apply guarded_bounded; [exact Hb|].
    unfold attempts_bounded in *.
    now rewrite (handle_received_same_manager r now s).
  - destruct (Server.at_ s); try exact Hb; now apply reader_turn_bounded.
  - destruct (Server.at_ s), (Server.client s); exact Hb.
  - destruct (Server.at_ s), (OSC._mute_callback (Server.osc_manager s)),
      (Server.client s); exact Hb.
Qed.

(** The invariant of the reconnect state: whatever happens to a session,
    its attempt counter stays between 0 and the ceiling of 5. *)
Lemma attempts_stay_bounded b64decode inputs :
  forall s,
    attempts_bounded s -> attempts_bounded (Server.run b64decode inputs s).
Proof.
  induction inputs as [|[now i] inputs IH]; intros s Hb; [exact Hb|].
  cbn [Server.run fold_left fst snd]. apply IH. now apply step_bounded.
Qed.

Example start_is_bounded : attempts_bounded sample_start.
Proof. unfold attempts_bounded, Reconnect.MAX_RECONNECT_ATTEMPTS. cbn. lia. Qed.

(** The mute bridge seen from the session: two [MuteSelf=True] messages
    in a row put one message on the upstream connection after the session
    configuration, and a [MuteSelf=False] before any of them changes
    nothing. *)
Example mute_twice_in_session :
  let s :=
    Server.run no_b64 [(1%Q, Server.MuteSelf true); (2%Q, Server.MuteSelf true)]
      sample_streaming in
  option_map
    (fun c => (Client.is_processing_audio c,
               option_map (fun w => length (Val.ws_sent w)) (Client.ws c)))
    (Server.client s)
  = Some (false, Some 2%nat) /\
  Server.step no_b64 1 (Server.MuteSelf false) sample_streaming
  = sample_streaming.
Proof. cbv zeta. split; vm_compute; reflexivity. Qed.

(* ================================================================== *)
(** * Further properties of the embedded code *)
(* ================================================================== *)

(* ------------------------------------------------------------------ *)
(** ** Truncation keeps a suffix *)
(* ------------------------------------------------------------------ *)

Lemma lstrip_suffix s : exists ws, s = ws ++ lstrip s.
Proof.
  induction s as [|c s [ws IH]]; [now exists []|].
  cbn [lstrip]. destruct (isspace c).
  - exists (c :: ws). cbn [app]. now rewrite <- IH.
  - now exists [].
Qed.

Lemma slice_from_suffix i s : exists pre, s = pre ++ slice_from i s.
Proof.
  unfold slice_from. exists (firstn (clamp i s) s).
  now rewrite firstn_skipn.
Qed.

Lemma truncate_loop_suffix fuel :
  forall text m r,
    OSC.truncate_loop fuel text m = Some r -> exists pre, text = pre ++ r.
Proof.
  induction fuel as [|fuel IH]; intros text m r; cbn [OSC.truncate_loop];
    [discriminate|].
  destruct (len text >? m); [|intros H; injection H as <-; now exists []].
  cbv zeta. destruct (negb (OSC.first_sentence_end text =? -1)).
  - intros H. apply IH in H as [pre2 H].
    destruct (slice_from_suffix (OSC.first_sentence_end text + 1) text)
      as [pre0 H0].
    destruct (lstrip_suffix
                (slice_from (OSC.first_sentence_end text + 1) text))
      as [pre1 H1].
    exists (pre0 ++ pre1 ++ pre2).
    rewrite <- !app_assoc. now rewrite <- H, <- H1.
  - intros H. injection H as <-. apply slice_from_suffix.
Qed.

Lemma truncate_text_suffix t :
  exists pre r,
    OSC._truncate_text t OSC.MAX_LENGTH = Some r /\
    t = pre ++ r /\ len r <= 144.
Proof.
  destruct (truncate_text_bounded t OSC.MAX_LENGTH) as (r & Hr & Hlen);
    [unfold OSC.MAX_LENGTH; lia|].
  assert (Hs : exists pre, t = pre ++ r).
  { unfold OSC._truncate_text in Hr.
    destruct (len t <=? OSC.MAX_LENGTH).
    - injection Hr as <-. now exists [].
    - eapply truncate_loop_suffix. exact Hr. }
  destruct Hs as [pre Hs]. now exists pre, r.
Qed.

(** X1.  Truncation only ever drops a prefix: whatever it returns is a
    suffix of its input, at most 144 code points long. *)
Theorem X1_truncate_returns_suffix :
  forall t : str,
  exists pre r,
    OSC._truncate_text t OSC.MAX_LENGTH = Some r /\
    t = pre ++ r /\ len r <= 144.
Proof.
  intros t. destruct (truncate_text_suffix t) as (pre & r & Hr & Hsplit & Hlen).
  exists pre, r. split; [exact Hr|]. split; [exact Hsplit|exact Hlen].
Qed.

Lemma first_idx_all_miss P s :
  forallb (fun c => negb (P c)) s = true -> first_idx P s = -1.
Proof.
  induction s as [|c s IH]; [reflexivity|].
  cbn [forallb first_idx]. intros H. apply andb_true_iff in H as [Hc Hs].
  apply negb_true_iff in Hc. now rewrite Hc, (IH Hs).
Qed.

(** X2.  A text longer than the limit that holds no sentence ender at all
    is cut to exactly its last 144 code points. *)
Theorem X2_truncate_without_punctuation :
  forall t : str,
    forallb (fun c => negb (is_ender c)) t = true ->
    len t > 144 ->
    OSC._truncate_text t OSC.MAX_LENGTH
    = Some (skipn (length t - 144) t) /\
    len (skipn (length t - 144) t) = 144.
Proof.
  intros t Hno Hlong. unfold OSC._truncate_text, OSC.MAX_LENGTH.
  destruct (Z.leb_spec (len t) 144); [lia|].
  cbn [OSC.truncate_loop].
  destruct (Z.gtb_spec (len t) 144); [|lia].
  cbv zeta. rewrite first_sentence_end_spec, (first_idx_all_miss _ _ Hno).
  cbn [Z.eqb negb].
  unfold slice_from, clamp.
  destruct (Z.ltb_spec (len t - 144) 0); [lia|].
  replace (Z.to_nat (Z.min (len t) (len t - 144))) with (length t - 144)%nat
    by (unfold len in *; lia).
  split; [reflexivity|]. unfold len in *. rewrite length_skipn. lia.
Qed.

Lemma X2_truncate_without_punctuation_witness :
  OSC._truncate_text (repeat 97 200) OSC.MAX_LENGTH
  = Some (skipn (length (repeat 97 200) - 144) (repeat 97 200)) /\
  len (skipn (length (repeat 97 200) - 144) (repeat 97 200)) = 144.
Proof.
  apply (X2_truncate_without_punctuation (repeat 97 200)).
  - vm_compute. reflexivity.
  - vm_compute. reflexivity.
Defined.

(* ------------------------------------------------------------------ *)
(** ** Truncation can drop everything *)
(* ------------------------------------------------------------------ *)

Lemma concat_sentences_from cur t :
  concat (sentences_from cur t) = rev cur ++ t.
Proof.
  revert cur. induction t as [|c t IH]; intros cur; cbn [sentences_from].
  - destruct cur; cbn [concat]; now rewrite ?app_nil_r.
  - destruct (is_ender c); cbn [concat]; rewrite IH; cbn [rev app];
      now rewrite <- app_assoc.
Qed.

Lemma last_le_concat {A} (l : list (list A)) :
  (length (last l []) <= length (concat l))%nat.
Proof.
  induction l as [|x l IH]; [cbn; lia|].
  cbn [concat]. rewrite length_app. destruct l as [|y l]; [cbn; lia|].
  change (last (x :: y :: l) []) with (last (y :: l) []). lia.
Qed.

Lemma final_sentence_le t : len (final_sentence t) <= len t.
Proof.
  unfold final_sentence.
  pose proof (last_le_concat (sentences t)) as H1.
  assert (Hc : concat (sentences t) = t)
    by (unfold sentences; now rewrite concat_sentences_from).
  rewrite Hc in H1.
  eapply Z.le_trans; [apply lstrip_le_len|].
  unfold len. apply Nat2Z.inj_le. exact H1.
Qed.

Lemma lstrip_keeps_last body e :
  isspace e = false -> exists body', lstrip (body ++ [e]) = body' ++ [e].
Proof.
  intros He. induction body as [|c body [b IH]]; cbn [app lstrip].
  - rewrite He. now exists [].
  - destruct (isspace c); [now exists b|now exists (c :: body)].
Qed.

Lemma app_last_split {A} (pre post body : list A) x e :
  pre ++ x :: post = body ++ [e] -> post <> [] ->
  exists body', post = body' ++ [e].
Proof.
  intros H Hpost.
  destruct (exists_last Hpost) as (body' & e' & ->).
  exists body'. f_equal.
  change (pre ++ x :: body' ++ [e']) with (pre ++ (x :: body') ++ [e']) in H.
  rewrite app_assoc in H. apply app_inj_tail in H as [_ ->]. reflexivity.
Qed.

Lemma truncate_loop_drops_all fuel :
  forall text body e,
    (length text < fuel)%nat ->
    text = body ++ [e] -> is_ender e = true ->
    len (final_sentence text) > 144 ->
    OSC.truncate_loop fuel text 144 = Some [].
Proof.
  induction fuel as [|fuel IH]; intros text body e Hfuel Ht He Hfin; [lia|].
  pose proof (final_sentence_le text) as Hle.
  cbn [OSC.truncate_loop].
  destruct (Z.gtb_spec (len text) 144) as [_|]; [|lia].
  cbv zeta. rewrite first_sentence_end_spec.
  destruct (Z.eqb_spec (first_idx is_ender text) (-1)) as [E|E]; cbn [negb].
  { apply first_idx_none in E. rewrite Ht, forallb_app in E.
    apply andb_true_iff in E as [_ E]. cbn [forallb] in E.
    now rewrite He in E. }
  destruct (first_idx_split _ _ E) as (pre & e' & post & Hsplit & Hl & He' & Hpre).
  rewrite <- Hl.
  assert (Hcut : slice_from (len pre + 1) text = post).
  { rewrite Hsplit. replace (len pre + 1) with (len (pre ++ [e'])).
    - change (e' :: post) with ([e'] ++ post).
      rewrite app_assoc. apply slice_from_split.
    - unfold len. rewrite length_app. cbn [length]. lia. }
  rewrite Hcut.
  destruct post as [|p post'].
  - cbn [lstrip]. destruct fuel; [unfold len in *; lia|reflexivity].
  - destruct (app_last_split pre (p :: post') body e' e) as [body' Hb];
      [now rewrite <- Hsplit|discriminate|].
    destruct (lstrip_keeps_last body' e (ender_not_space _ He)) as [b2 Hb2].
    apply (IH _ b2 e).
    + pose proof (lstrip_length (p :: post')).
      rewrite Hsplit, length_app in Hfuel. cbn [length] in *. lia.
    + now rewrite Hb.
    + exact He.
    + rewrite final_sentence_lstrip.
      rewrite Hsplit in Hfin.
      now rewrite final_sentence_cut in Hfin by (assumption || discriminate).
Qed.

(** X3.  A text that ends with a sentence ender and whose final sentence
    alone exceeds 144 code points is truncated to the empty string: every
    sentence, the last one included, is removed. *)
Theorem X3_truncate_drops_overlong_closed_sentence :
  forall body e,
    is_ender e = true ->
    len (final_sentence (body ++ [e])) > 144 ->
    OSC._truncate_text (body ++ [e]) OSC.MAX_LENGTH = Some [].
Proof.
  intros body e He Hfin.
  pose proof (final_sentence_le (body ++ [e])) as Hle.
  unfold OSC._truncate_text, OSC.MAX_LENGTH.
  destruct (Z.leb_spec (len (body ++ [e])) 144); [lia|].
  apply (truncate_loop_drops_all _ _ body e); auto.
Qed.

Lemma X3_truncate_drops_overlong_closed_sentence_witness :
  OSC._truncate_text ((lit "Hi. " ++ repeat 97 150) ++ [46]) OSC.MAX_LENGTH
  = Some [].
Proof.
  apply (X3_truncate_drops_overlong_closed_sentence
           (lit "Hi. " ++ repeat 97 150) 46).
  - reflexivity.
  - vm_compute. reflexivity.
Defined.

(* ------------------------------------------------------------------ *)
(** ** Line-break insertion touches whitespace only *)
(* ------------------------------------------------------------------ *)

Lemma sub_enders_chars (P : char -> Prop) s b :
  P LF -> Forall P s -> Forall P (OSC.sub_enders s b).
Proof.
  intros HLF. revert b. induction s as [|c s IH]; intros b Hs; [constructor|].
  inversion Hs as [|? ? Hc Hs']; subst. cbn [OSC.sub_enders].
  destruct (b && isspace c); [now apply IH|].
  destruct (_ && _); repeat constructor; auto.
Qed.

Lemma sub_dots_chars (P : char -> Prop) s p b :
  P LF -> Forall P s -> Forall P (OSC.sub_dots s p b).
Proof.
  intros HLF. revert p b.
  induction s as [|c s IH]; intros p b Hs; [constructor|].
  inversion Hs as [|? ? Hc Hs']; subst. cbn [OSC.sub_dots].
  destruct (b && isspace c); [now apply IH|].
  destruct (_ && _) eqn:M.
  - repeat (apply andb_true_iff in M as [M _]). apply Z.eqb_eq in M. subst c.
    repeat constructor; auto.
  - constructor; auto.
Qed.

(** X4.  [_insert_newlines_after_sentence_enders] changes whitespace only:
    the non-whitespace characters of the result are those of the input,
    in the same order, and every character of the result is a newline or
    a character of the input. *)
Theorem X4_insert_newlines_touches_whitespace_only :
  forall text : str,
    ink (OSC._insert_newlines_after_sentence_enders text) = ink text /\
    forall c,
      In c (OSC._insert_newlines_after_sentence_enders text) ->
      c = LF \/ In c text.
Proof.
  intros text. split; [apply ink_insert_newlines|].
  apply Forall_forall.
  unfold OSC._insert_newlines_after_sentence_enders.
  destruct (truthy text); cbn [negb];
    [|apply Forall_forall; intros c Hc; now right].
  cbv zeta.
  apply sub_dots_chars; [now left|].
  apply sub_enders_chars; [now left|].
  unfold OSC.normalize_newlines, replace.
  apply replace_skip_Forall; [repeat constructor; now left|].
  apply replace_skip_Forall; [repeat constructor; now left|].
  apply Forall_forall. intros c Hc. now right.
Qed.

(* ------------------------------------------------------------------ *)
(** ** Decimals and domain names are not broken *)
(* ------------------------------------------------------------------ *)

Lemma replace_skip_no_head old new s :
  old <> [] ->
  Forall (fun c => head_is c old = false) s ->
  replace_skip old new s 0 = s.
Proof.
  intros Hne. induction 1 as [|c s Hc _ IH]; [reflexivity|].
  cbn [replace_skip]. destruct old as [|o old']; [congruence|].
  cbn [startswith]. cbn [head_is] in Hc. rewrite Hc. cbn [andb].
  now rewrite IH.
Qed.

Lemma token_char_spec c :
  token_char c = true ->
  isspace c = false /\ OSC.is_break_punct c = false /\ OSC.is_closer c = false.
Proof.
  unfold token_char. intros H.
  apply andb_true_iff in H as [H H3]. apply andb_true_iff in H as [H1 H2].
  now rewrite negb_true_iff in *.
Qed.

Lemma normalize_newlines_token s :
  forallb token_char s = true -> OSC.normalize_newlines s = s.
Proof.
  intros H. unfold OSC.normalize_newlines, replace.
  assert (Hcr : Forall (fun c => (CR =? c) = false) s).
  { apply Forall_forall. intros c Hc.
    rewrite forallb_forall in H. apply H, token_char_spec in Hc as [Hc _].
    destruct (Z.eqb_spec CR c) as [<-|]; [discriminate|reflexivity]. }
  rewrite (replace_skip_no_head [CR; LF] [LF] s) by (discriminate || exact Hcr).
  now rewrite replace_skip_no_head by (discriminate || exact Hcr).
Qed.

Lemma sub_enders_token s :
  forallb token_char s = true -> OSC.sub_enders s false = s.
Proof.
  induction s as [|c s IH]; [reflexivity|].
  cbn [forallb]. intros H. apply andb_true_iff in H as [Hc Hs].
  apply token_char_spec in Hc as (_ & Hp & _).
  cbn [OSC.sub_enders andb]. rewrite Hp. cbn [andb]. now rewrite IH.
Qed.

Lemma sub_dots_token s :
  forall p,
    forallb token_char s = true -> last s 0 <> 46 ->
    OSC.sub_dots s p false = s.
Proof.
  induction s as [|c s IH]; intros p H Hlast; [reflexivity|].
  cbn [forallb] in H. apply andb_true_iff in H as [Hc Hs].
  cbn [OSC.sub_dots andb].
  destruct s as [|n s'].
  - cbn [last] in Hlast.
    destruct (Z.eqb_spec c 46); [contradiction|reflexivity].
  - assert (Hn : OSC.dot_lookahead (n :: s') = false).
    { cbn [forallb] in Hs. apply andb_true_iff in Hs as [Hn _].
      apply token_char_spec in Hn as (H1 & _ & H3).
      cbn [OSC.dot_lookahead]. now rewrite H1, H3. }
    rewrite Hn, andb_false_r. cbn [andb].
    rewrite IH; [reflexivity|exact Hs|exact Hlast].
Qed.

(** X5.  A text without whitespace, sentence-break punctuation and closing
    quotes or brackets that does not end with a full stop -- a decimal
    such as 3.14, a name such as example.com -- is returned unchanged by
    [_insert_newlines_after_sentence_enders]: its inner full stops break
    no line. *)
Theorem X5_insert_newlines_keeps_tokens :
  forall text : str,
    forallb token_char text = true ->
    last text 0 <> 46 ->
    OSC._insert_newlines_after_sentence_enders text = text.
Proof.
  intros text H Hlast. unfold OSC._insert_newlines_after_sentence_enders.
  destruct (truthy text); cbn [negb]; [|reflexivity].
  cbv zeta. rewrite (normalize_newlines_token _ H), (sub_enders_token _ H).
  now apply sub_dots_token.
Qed.

Lemma X5_insert_newlines_keeps_tokens_witness :
  OSC._insert_newlines_after_sentence_enders (lit "v3.14.example.com")
  = lit "v3.14.example.com".
Proof.
  apply (X5_insert_newlines_keeps_tokens (lit "v3.14.example.com")).
  - reflexivity.
  - vm_compute. discriminate.
Defined.

(* ------------------------------------------------------------------ *)
(** ** Formatting a text without brackets touches whitespace only *)
(* ------------------------------------------------------------------ *)

Lemma protect_brackets_none s n :
  Forall (fun c => c <> 91) s -> OSC.protect_brackets s 0 n = (s, []).
Proof.
  induction 1 as [|c s Hc _ IH]; [reflexivity|].
  cbn [OSC.protect_brackets].
  destruct (Z.eqb_spec c 91); [contradiction|]. now rewrite IH.
Qed.

Lemma normalize_newlines_no_bracket s :
  Forall (fun c => c <> 91) s ->
  Forall (fun c => c <> 91) (OSC.normalize_newlines s).
Proof.
  intros H. unfold OSC.normalize_newlines, replace.
  apply replace_skip_Forall; [repeat constructor; discriminate|].
  apply replace_skip_Forall; [repeat constructor; discriminate|exact H].
Qed.

(** X6.  On a text without an opening square bracket
    [_format_text_for_chatbox] changes whitespace only: the
    non-whitespace characters of the rendered text are those of the
    input, in the same order, whether or not the text is split into a
    confirmed and an unconfirmed part. *)
Theorem X6_format_touches_whitespace_only :
  forall text : str,
    ~ In 91 text ->
    ink (OSC._format_text_for_chatbox text) = ink text.
Proof.
  intros text Hno. unfold OSC._format_text_for_chatbox.
  destruct (truthy text); cbn [negb]; [|reflexivity]. cbv zeta.
  assert (Hn : Forall (fun c => c <> 91) (OSC.normalize_newlines text)).
  { apply normalize_newlines_no_bracket, Forall_forall.
    intros c Hc ->. contradiction. }
  rewrite (protect_brackets_none _ 0 Hn).
  destruct (OSC._split_confirmed_unconfirmed (OSC.normalize_newlines text))
    as [[[c d] u]|] eqn:Hsplit.
  - destruct (split_sides_have_ink _ _ _ _ Hsplit) as [Hc Hu].
    apply truthy_iff in Hc, Hu. rewrite Hc, Hu. cbn [negb].
    cbn [OSC.restore_brackets].
    apply split_sound in Hsplit as (_ & l & r & Hlr & _ & _ & _ & -> & ->).
    rewrite !ink_app, ink_rstrip, ink_insert_newlines, ink_rstrip, ink_strip,
      ink_collapse_ws, ink_strip.
    cbn [ink filter app]. change (isspace LF) with true. cbn [negb].
    rewrite <- (ink_normalize_newlines text).
    rewrite <- (ink_normalize_newlines (OSC.normalize_newlines text)), Hlr.
    now rewrite !ink_app.
  - cbn [OSC.restore_brackets].
    now rewrite ink_insert_newlines, ink_normalize_newlines.
Qed.

Lemma X6_format_touches_whitespace_only_witness :
  ink (OSC._format_text_for_chatbox (lit "Yes.  Go on ...  next   one"))
  = ink (lit "Yes.  Go on ...  next   one").
Proof.
  apply (X6_format_touches_whitespace_only
           (lit "Yes.  Go on ...  next   one")).
  vm_compute. intuition discriminate.
Defined.

(* ------------------------------------------------------------------ *)
(** ** What [send_text] puts on the UDP client *)
(* ------------------------------------------------------------------ *)

(** X7.  [send_text] with sending enabled, on a string: exactly two calls
    are made, the typing indicator with [ongoing] and the chatbox input
    with the flags [True] and [not ongoing]; the text of the input is a
    suffix of the text (formatted first when line breaks are enabled) and
    at most 144 code points long; nothing else of the manager changes.
    With sending disabled the manager is left as it is. *)
Theorem X7_send_text_calls :
  (forall (self : OSC.OSCManager) (text : str) (ongoing : bool),
      exists pre r,
        OSC.send_text (Val.PyStr text) ongoing true self
        = (Exc.Ok tt,
           {| OSC._line_breaks_enabled := OSC._line_breaks_enabled self;
              OSC._mute_callback := OSC._mute_callback self;
              OSC.osc_calls :=
                OSC.osc_calls self
                ++ [OSC.SendMessage (lit "/chatbox/typing")
                      [Val.PyBool ongoing];
                    OSC.SendMessage (lit "/chatbox/input")
                      [Val.PyStr r; Val.PyBool true;
                       Val.PyBool (negb ongoing)]] |}) /\
        (if OSC._line_breaks_enabled self
         then OSC._format_text_for_chatbox text else text) = pre ++ r /\
        len r <= 144) /\
  (forall self text ongoing,
      OSC.send_text text ongoing false self = (Exc.Ok tt, self)).
Proof.
  split; [|reflexivity].
  intros self text ongoing.
  set (shown := if OSC._line_breaks_enabled self
                then OSC._format_text_for_chatbox text else text).
  destruct (truncate_text_suffix shown) as (pre & r & Hr & Hs & Hlen).
  exists pre, r. split; [|now split].
  unfold OSC.send_text. cbn [negb].
  unfold Exc.bind at 1. unfold Exc.get at 1. cbv beta iota.
  assert (Hfmt :
    (if OSC._line_breaks_enabled self
     then Exc.lift (OSC.format_val (Val.PyStr text))
     else Exc.ret (Val.PyStr text)) self
    = (Exc.Ok (Val.PyStr shown), self)).
  { unfold shown. destruct (OSC._line_breaks_enabled self); [|reflexivity].
    unfold Exc.lift, OSC.format_val. cbn [Val.val_truthy].
    destruct text as [|c text]; reflexivity. }
  unfold Exc.bind at 1. rewrite Hfmt.
  unfold Exc.bind at 1. unfold Exc.lift at 1, OSC.truncate_val.
  rewrite Hr. unfold Exc.bind, Exc.modify, OSC.call. cbn.
  now rewrite <- app_assoc.
Qed.

(* ------------------------------------------------------------------ *)
(** ** Generic steps for relations kept by the supervisor *)
(* ------------------------------------------------------------------ *)

(** The supervisor's operations keep every preorder on session states
    that calls on the client and changes outside its view keep. *)
Section SupervisorFrame.

Variable R : Server.Sys -> Server.Sys -> Prop.
Hypothesis R_refl : forall s, R s s.
Hypothesis R_trans : forall a b c, R a b -> R b c -> R a c.
Hypothesis R_client :
  forall A (m : Exc.M Client.WebTranslateClient A),
    preserves R (Server.on_client m).
Hypothesis R_log : forall a s, R s (Server.log a s).
Hypothesis R_set_osc :
  forall s, R s (Server.set_osc_manager
                   (OSC.set_mute_callback (Server.osc_manager s)) s).
Hypothesis R_clear_osc :
  forall s, R s (Server.set_osc_manager
                   (OSC.clear_mute_callback (Server.osc_manager s)) s).
Hypothesis R_line_breaks :
  forall b s, R s (Server.set_osc_manager
                     (OSC.set_line_breaks_enabled b (Server.osc_manager s)) s).
Hypothesis R_voice_audio : forall v ae s, R s (Server.set_voice_audio v ae s).
Hypothesis R_manager : forall r s, R s (Server.set_reconnect_manager r s).
Hypothesis R_set_client : forall c s, R s (Server.set_client c s).
Hypothesis R_message_task : forall t s, R s (Server.set_message_task t s).
Hypothesis R_video_task : forall t s, R s (Server.set_video_sender_task t s).
Hypothesis R_active : forall b s, R s (Server.set_websocket_active b s).
Hypothesis R_queue : forall x s, R s (Server.queue_put x s).
Hypothesis R_at : forall p s, R s (Server.set_at p s).

Ltac frame :=
  first
    [ apply (preserves_ret R R_refl)
    | apply (preserves_raise R R_refl)
    | apply (preserves_lift R R_refl)
    | apply (preserves_get R R_refl)
    | apply R_client
    | apply preserves_modify; intros ?;
      repeat match goal with
        | |- context [if ?b then _ else _] => destruct b
        end;
      first
        [ apply R_refl | apply R_log | apply R_set_osc | apply R_clear_osc
        | apply R_line_breaks | apply R_voice_audio | apply R_manager
        | apply R_set_client | apply R_message_task | apply R_video_task
        | apply R_active | apply R_queue | apply R_at ]
    | apply (preserves_when R R_refl)
    | apply (preserves_bind R R_trans); [|intros ?]
    | apply (preserves_try_except R R_trans); [|intros ?]
    | match goal with
      | |- preserves _ (if ?b then _ else _) => destruct b
      | |- preserves _ (match ?x with _ => _ end) => destruct x
      end ].

Lemma finally_frame : preserves R Server.finally_.
Proof. unfold Server.finally_. repeat frame. Qed.

Lemma outer_loop_top_frame : preserves R Server.outer_loop_top.
Proof.
  unfold Server.outer_loop_top. repeat first [apply finally_frame | frame].
Qed.

Lemma handle_exception_frame e now :
  preserves R (Server.handle_exception e now).
Proof. unfold Server.handle_exception. repeat frame. Qed.

Lemma create_client_frame outcome now :
  preserves R (Server.create_client outcome now).
Proof.
  unfold Server.create_client, Server.create_and_connect_client.
  repeat frame.
Qed.

Lemma handle_text_frame t now : preserves R (Server.handle_text t now).
Proof. unfold Server.handle_text. repeat frame. Qed.

Lemma handle_received_frame r now :
  preserves R (Server.handle_received r now).
Proof.
  unfold Server.handle_received. repeat first [apply handle_text_frame | frame].
Qed.

Lemma guarded_frame body now :
  preserves R body -> preserves R (Server.guarded body now).
Proof.
  intros Hb s. unfold Server.guarded. specialize (Hb s).
  destruct (body s) as [[[]|e] s1]; cbn [snd] in Hb.
  - eapply R_trans; [exact Hb|apply outer_loop_top_frame].
  - eapply R_trans; [exact Hb|apply finally_frame].
  - pose proof (handle_exception_frame e now s1) as He.
    destruct (Server.handle_exception e now s1) as [[[]|e'] s2];
      cbn [snd] in He.
    + eapply R_trans; [exact Hb|].
      eapply R_trans; [exact He|apply outer_loop_top_frame].
    + eapply R_trans; [exact Hb|].
      eapply R_trans; [exact He|apply finally_frame].
    + eapply R_trans; [exact Hb|].
      eapply R_trans; [exact He|].
      assert (H : preserves R
                    (Server.finally_ ;;
                     Exc.modify (Server.log (Server.Propagated e')))%py)
        by repeat first [apply finally_frame | frame].
      apply H.
Qed.

(** The supervisor's own steps, and the steps of the environment that do
    not run the reader task. *)
Lemma supervisor_step_frame b64decode now i s :
  (forall item, i <> Server.FromUpstream item) ->
  R s (Server.step b64decode now i s).
Proof.
  intros Hi. unfold Server.step.
  destruct i as [outcome|r|item|e|m].
  - destruct (Server.at_ s); try apply R_refl.
    apply guarded_frame.
    apply (preserves_bind R R_trans); [apply create_client_frame|].
    intros ?. frame.
  - destruct (Server.at_ s); try apply R_refl.
    apply guarded_frame, handle_received_frame.
  - now contradiction (Hi item).
  - destruct (Server.at_ s), (Server.client s);
      first [apply R_refl | apply R_set_client].
  - destruct (Server.at_ s), (OSC._mute_callback (Server.osc_manager s)),
      (Server.client s); first [apply R_refl | apply R_set_client].
Qed.

End SupervisorFrame.

(* ------------------------------------------------------------------ *)
(** ** Generic steps for relations kept by the reader task *)
(* ------------------------------------------------------------------ *)

Section ReaderSends.

Context {S : Type}.
Variable R : S -> S -> Prop.
Hypothesis R_refl : forall s, R s s.
Hypothesis R_trans : forall a b c, R a b -> R b c -> R a c.

Variable self_ : Exc.lens S Client.WebTranslateClient.
Variable osc_ : Exc.lens S OSC.OSCManager.
Variable b64decode : Val.pyval -> Exc.result Val.bytes.
Variable on_text_received : Val.pyval -> Exc.M S unit.
Variable on_audio_received : option (Val.bytes -> Exc.M S unit).

Hypothesis self_frame : forall s t, R s (Exc.update self_ t s).
Hypothesis send_frame :
  forall text ongoing enabled,
    preserves R (Exc.zoom osc_ (OSC.send_text text ongoing enabled)).
Hypothesis text_frame : forall text, preserves R (on_text_received text).
Hypothesis audio_frame :
  forall f, on_audio_received = Some f -> forall a, preserves R (f a).

Ltac sends_step :=
  first
    [ apply (preserves_ret R R_refl)
    | apply (preserves_raise R R_refl)
    | apply (preserves_lift R R_refl)
    | apply send_frame
    | apply preserves_zoom; exact self_frame
    | apply text_frame
    | apply (preserves_when R R_refl)
    | apply (preserves_bind R R_trans); [|intros ?]
    | apply (preserves_try_except R R_trans); [|intros ?]
    | match goal with
      | |- preserves _ (match on_audio_received with _ => _ end) =>
          destruct on_audio_received as [f|] eqn:Ef;
          [apply (audio_frame f eq_refl)|]
      | |- preserves _ (if ?b then _ else _) => destruct b
      | |- preserves _ (match ?x with _ => _ end) => destruct x
      end ].

Lemma reader_iteration_sends item :
  preserves R
    (Client.reader_iteration self_ osc_ b64decode on_text_received
       on_audio_received item).
Proof.
  unfold Client.reader_iteration, Client.handle_event, Client.handle_partial,
    Client.deliver_text, Client.send_osc_text.
  repeat sends_step.
Qed.

End ReaderSends.

Section SessionFrame.

Variable R : Server.Sys -> Server.Sys -> Prop.
Hypothesis R_refl : forall s, R s s.
Hypothesis R_trans : forall a b c, R a b -> R b c -> R a c.
Hypothesis R_client :
  forall A (m : Exc.M Client.WebTranslateClient A),
    preserves R (Server.on_client m).
Hypothesis R_log : forall a s, R s (Server.log a s).
Hypothesis R_set_osc :
  forall s, R s (Server.set_osc_manager
                   (OSC.set_mute_callback (Server.osc_manager s)) s).
Hypothesis R_clear_osc :
  forall s, R s (Server.set_osc_manager
                   (OSC.clear_mute_callback (Server.osc_manager s)) s).
Hypothesis R_line_breaks :
  forall b s, R s (Server.set_osc_manager
                     (OSC.set_line_breaks_enabled b (Server.osc_manager s)) s).
Hypothesis R_voice_audio : forall v ae s, R s (Server.set_voice_audio v ae s).
Hypothesis R_manager : forall r s, R s (Server.set_reconnect_manager r s).
Hypothesis R_set_client : forall c s, R s (Server.set_client c s).
Hypothesis R_message_task : forall t s, R s (Server.set_message_task t s).
Hypothesis R_video_task : forall t s, R s (Server.set_video_sender_task t s).
Hypothesis R_active : forall b s, R s (Server.set_websocket_active b s).
Hypothesis R_queue : forall x s, R s (Server.queue_put x s).
Hypothesis R_at : forall p s, R s (Server.set_at p s).
Hypothesis R_send :
  forall text ongoing enabled s,
    R s (Server.set_osc_manager
           (snd (OSC.send_text text ongoing enabled (Server.osc_manager s))) s).
Hypothesis R_browser :
  forall m s,
    R s (Server.set_websocket (snd (Server.browser_send m (Server.websocket s)))
           s).

Lemma on_text_received_frame text :
  preserves R (Server.on_text_received text).
Proof.
  intros s. unfold Server.on_text_received, Exc.bind, Exc.get, Exc.ret,
    Exc.modify.
  destruct (Server.websocket_active s); cbn [negb snd]; [|apply R_refl].
  pose proof (R_browser (Server.SendJson text) s) as H.
  destruct (Server.browser_send _ _) as [r b]. exact H.
Qed.

Lemma on_audio_received_frame audio :
  preserves R (Server.on_audio_received audio).
Proof.
  intros s. unfold Server.on_audio_received, Exc.bind, Exc.get, Exc.ret,
    Exc.try_except, Exc.modify.
  destruct (Server.websocket_active s); cbn [negb snd]; [|apply R_refl].
  pose proof (R_browser (Server.SendBytes audio) s) as H.
  destruct (Server.browser_send _ _) as [[|e] b]; cbn [snd] in *;
    [exact H|].
  eapply R_trans; [exact H|apply R_active].
Qed.

Lemma reader_turn_frame b64decode item s :
  R s (Server.reader_turn b64decode item s).
Proof.
  unfold Server.reader_turn.
  destruct (Server.message_task s); try apply R_refl.
  destruct (Server.client s) as [c|]; try apply R_refl.
  cbv zeta.
  match goal with
  | |- context [Client.reader_iteration ?l1 ?l2 ?dec ?txt ?aud item (c, s)] =>
      pose proof (reader_iteration_sends
                    (fun p p' : Client.WebTranslateClient * Server.Sys =>
                       R (snd p) (snd p'))
                    (fun p => R_refl (snd p))
                    (fun x y z => R_trans (snd x) (snd y) (snd z))
                    l1 l2 dec txt aud) as Hframe;
      set (self_ := l1) in *; set (osc_ := l2) in *;
      set (on_text := txt) in *; set (on_audio := aud) in *
  end.
  assert (Hfr : R s (snd (snd (Client.reader_iteration self_ osc_ b64decode
                                 on_text on_audio item (c, s))))).
  { refine (Hframe _ _ _ _ item (c, s)).
    - intros p t. apply R_refl.
    - intros text ongoing enabled [c0 s0]. unfold Exc.zoom.
      cbn [Exc.view Exc.update osc_ fst snd].
      pose proof (R_send text ongoing enabled s0) as H.
      destruct (OSC.send_text text ongoing enabled (Server.osc_manager s0)).
      exact H.
    - intros text [c0 s0]. unfold on_text, Exc.zoom.
      cbn [Exc.view Exc.update fst snd].
      pose proof (on_text_received_frame text s0) as H.
      destruct (Server.on_text_received text s0). exact H.
    - intros f Hf a [c0 s0]. unfold on_audio in Hf. injection Hf as <-.
      unfold Exc.zoom. cbn [Exc.view Exc.update fst snd].
      pose proof (on_audio_received_frame a s0) as H.
      destruct (Server.on_audio_received a s0). exact H. }
  destruct (Client.reader_iteration self_ osc_ b64decode on_text on_audio
              item (c, s)) as [[[]|e] [c1 s1]]; cbn [snd] in Hfr.
  - eapply R_trans; [exact Hfr|apply R_set_client].
  - eapply R_trans; [exact Hfr|].
    eapply R_trans; [apply R_set_client|apply R_message_task].
  - eapply R_trans; [exact Hfr|].
    eapply R_trans; [apply R_set_client|apply R_message_task].
Qed.

(** Every step of a session, and so every run, keeps the relation. *)
Lemma step_frame b64decode now i s : R s (Server.step b64decode now i s).
Proof.
  destruct i as [outcome|r|item|e|m];
    try (apply (supervisor_step_frame R); auto; discriminate).
  unfold Server.step. destruct (Server.at_ s); try apply R_refl;
    apply reader_turn_frame.
Qed.

Lemma run_frame b64decode inputs : forall s, R s (Server.run b64decode inputs s).
Proof.
  induction inputs as [|[now i] inputs IH]; intros s; [apply R_refl|].
  cbn [Server.run fold_left fst snd].
  eapply R_trans; [apply step_frame|apply IH].
Qed.

End SessionFrame.

(* ------------------------------------------------------------------ *)
(** ** Every chatbox payload of a session is bounded *)
(* ------------------------------------------------------------------ *)

Lemma truncate_val_bounded text r :
  OSC.truncate_val text = Exc.Ok (Val.PyStr r) -> len r <= 144.
Proof.
  destruct text as [| | |s|l|d]; cbn [OSC.truncate_val]; try discriminate.
  - destruct (truncate_text_bounded s OSC.MAX_LENGTH) as (r0 & Hr & Hlen);
      [unfold OSC.MAX_LENGTH; lia|].
    rewrite Hr. intros H. injection H as <-. exact Hlen.
  - destruct (_ <=? _); discriminate.
  - destruct (_ <=? _); discriminate.
Qed.

Lemma send_text_payloads text ongoing enabled o :
  payloads_ok o ->
  payloads_ok (snd (OSC.send_text text ongoing enabled o)).
Proof.
  intros Hok. unfold OSC.send_text.
  destruct enabled; cbn [negb]; [|exact Hok].
  unfold Exc.bind at 1. unfold Exc.get at 1. cbv beta iota.
  unfold Exc.bind at 1.
  assert (Hfmt : forall m : Exc.M OSC.OSCManager Val.pyval,
             (m = Exc.lift (OSC.format_val text) \/ m = Exc.ret text) ->
             snd (m o) = o).
  { intros m [->| ->]; [|reflexivity]. unfold Exc.lift. reflexivity. }
  destruct ((if OSC._line_breaks_enabled o
             then Exc.lift (OSC.format_val text)
             else Exc.ret text) o) as [[text1|e] o1] eqn:E1.
  2:{ cbn [snd]. replace o1 with o; [exact Hok|].
      destruct (OSC._line_breaks_enabled o);
        unfold Exc.lift, Exc.ret in E1; now injection E1. }
  assert (o1 = o) as ->.
  { destruct (OSC._line_breaks_enabled o);
      unfold Exc.lift, Exc.ret in E1; now injection E1. }
  unfold Exc.bind at 1. unfold Exc.lift at 1.
  destruct (OSC.truncate_val text1) as [text2|e] eqn:E2; [|exact Hok].
  unfold Exc.bind, Exc.modify, OSC.call, payloads_ok in *. cbn.
  rewrite <- app_assoc. apply Forall_app. split; [exact Hok|].
  constructor; [exact I|]. constructor; [|constructor].
  destruct text2; try exact I. cbn. now apply truncate_val_bounded in E2.
Qed.

Lemma keeps_payloads_refl s : keeps_payloads s s.
Proof. now intros H. Qed.

Lemma keeps_payloads_trans a b c :
  keeps_payloads a b -> keeps_payloads b c -> keeps_payloads a c.
Proof. unfold keeps_payloads. auto. Qed.

(** X8.  In every run of a session, every call made on the UDP client
    whose first argument is a string carries at most 144 code points:
    no chatbox text leaves the server longer than the limit, whatever
    the browser, the translation service and the overlay send. *)
Theorem X8_session_payloads_bounded :
  forall b64decode inputs s,
    payloads_ok (Server.osc_manager s) ->
    payloads_ok (Server.osc_manager (Server.run b64decode inputs s)).
Proof.
  intros b64decode inputs s.
  change (keeps_payloads s (Server.run b64decode inputs s)).
  apply (run_frame keeps_payloads keeps_payloads_refl keeps_payloads_trans);
    try (intros; intros H; exact H).
  - intros A m s0. unfold Server.on_client.
    destruct (Server.client s0); [destruct (m w)|]; intros H; exact H.
  - intros text ongoing enabled s0 H. now apply send_text_payloads.
Qed.

Lemma X8_session_payloads_bounded_witness :
  payloads_ok
    (Server.osc_manager
       (Server.run no_b64
          [(0%Q, Server.Connected (Exc.Ok Val.fresh_ws)); (1%Q, long_final_text)]
          sample_start)).
Proof.
  apply (X8_session_payloads_bounded no_b64
           [(0%Q, Server.Connected (Exc.Ok Val.fresh_ws)); (1%Q, long_final_text)]
           sample_start).
  constructor.
Defined.

Example long_final_text_is_cut :
  OSC.osc_calls
    (Server.osc_manager
       (Server.run no_b64
          [(0%Q, Server.Connected (Exc.Ok Val.fresh_ws)); (1%Q, long_final_text)]
          sample_start))
  = [OSC.SendMessage (lit "/chatbox/typing") [Val.PyBool false];
     OSC.SendMessage (lit "/chatbox/input")
       [Val.PyStr (repeat 97 144); Val.PyBool true; Val.PyBool true]].
Proof. vm_compute. reflexivity. Qed.

(* ------------------------------------------------------------------ *)
(** ** The reconnect manager in a session *)
(* ------------------------------------------------------------------ *)

(** X9.  From the start of a session on, whatever happens, the attempt
    counter of its reconnect manager stays between 0 and the ceiling of 5. *)
Theorem X9_attempts_within_ceiling :
  forall b64decode inputs osc key lang voice audio mute_control to_osc breaks,
    let s :=
      Server.run b64decode inputs
        (Server.start osc key lang voice audio mute_control to_osc breaks) in
    0 <= Reconnect.reconnect_attempts (Server.reconnect_manager s) <= 5.
Proof.
  intros. apply (attempts_stay_bounded b64decode inputs).
  unfold attempts_bounded, Reconnect.MAX_RECONNECT_ATTEMPTS. cbn. lia.
Qed.

Lemma pow2_ge_1 a : 0 <= a -> (1 <= 2 ^ a)%Q.
Proof.
  intros Ha. change 1%Q with (2 ^ 0)%Q at 1.
  apply Qpower_le_compat_l; [exact Ha|]. discriminate.
Qed.

Lemma delay_value rm code :
  code <> Some 1011 ->
  0 <= Reconnect.reconnect_attempts rm <= 1023 ->
  Reconnect.get_reconnect_delay rm code
  = Exc.Ok (Qmin (1 * 2 ^ Reconnect.reconnect_attempts rm) 30).
Proof.
  intros Hcode Ha. unfold Reconnect.get_reconnect_delay.
  destruct (Reconnect.code_is code 1011) eqn:E;
    [apply code_is_true in E; contradiction|].
  unfold Reconnect.float_pow2.
  destruct (Z.gtb_spec (Reconnect.reconnect_attempts rm) 1023); [lia|].
  destruct (Z.ltb_spec (Reconnect.reconnect_attempts rm) (-1074)); [lia|].
  now rewrite py_min_Qmin.
Qed.

(** X10.  The backoff delay is monotone and bounded: for attempt counts
    [a <= a'] between 0 and 1023 and codes other than 1011, the delays
    returned satisfy [1 <= delay(a) <= delay(a') <= 30] (seconds). *)
Theorem X10_delay_monotone_bounded :
  forall rm rm' code code',
    code <> Some 1011 -> code' <> Some 1011 ->
    0 <= Reconnect.reconnect_attempts rm ->
    Reconnect.reconnect_attempts rm <= Reconnect.reconnect_attempts rm' ->
    Reconnect.reconnect_attempts rm' <= 1023 ->
    exists d d',
      Reconnect.get_reconnect_delay rm code = Exc.Ok d /\
      Reconnect.get_reconnect_delay rm' code' = Exc.Ok d' /\
      (1 <= d)%Q /\ (d <= d')%Q /\ (d' <= 30)%Q.
Proof.
  intros rm rm' code code' Hc Hc' H0 Hle Hmax.
  rewrite (delay_value rm code Hc) by lia.
  rewrite (delay_value rm' code' Hc') by lia.
  eexists. eexists. split; [reflexivity|]. split; [reflexivity|].
  set (a := Reconnect.reconnect_attempts rm) in *.
  set (a' := Reconnect.reconnect_attempts rm') in *.
  assert (H1 : (1 <= 1 * 2 ^ a)%Q)
    by (rewrite Qmult_1_l; apply pow2_ge_1; lia).
  assert (H2 : (1 * 2 ^ a <= 1 * 2 ^ a')%Q).
  { rewrite !Qmult_1_l. apply Qpower_le_compat_l; [lia|discriminate]. }
  split; [|split].
  - apply Q.min_glb; [exact H1|discriminate].
  - apply Q.min_glb; [|apply Q.le_min_r].
    eapply Qle_trans; [apply Q.le_min_l|exact H2].
  - apply Q.le_min_r.
Qed.

Lemma X10_delay_monotone_bounded_witness :
  exists d d',
    Reconnect.get_reconnect_delay
      {| Reconnect.reconnect_attempts := 1; Reconnect.last_reconnect_time := 0;
         Reconnect.is_reconnecting := false |} (Some 1006) = Exc.Ok d /\
    Reconnect.get_reconnect_delay
      {| Reconnect.reconnect_attempts := 4; Reconnect.last_reconnect_time := 0;
         Reconnect.is_reconnecting := false |} None = Exc.Ok d' /\
    (1 <= d)%Q /\ (d <= d')%Q /\ (d' <= 30)%Q.
Proof.
  apply X10_delay_monotone_bounded; cbn; try lia; discriminate.
Defined.

(* ------------------------------------------------------------------ *)
(** ** The supervisor's transitions *)
(* ------------------------------------------------------------------ *)

Lemma Qmult_1_l_eq (x : Q) : (1 * x)%Q = x.
Proof.
  destruct x as [n d]. unfold Qmult. cbn [Qnum Qden].
  f_equal. destruct n; reflexivity.
Qed.

Lemma delay_positive a :
  0 <= a ->
  (Qmin (1 * 2 ^ a) 30 ?= 0)%Q = Gt.
Proof.
  intros Ha. rewrite <- Qgt_alt.
  apply Qlt_le_trans with (y := 1%Q); [reflexivity|].
  apply Q.min_glb; [|discriminate].
  rewrite Qmult_1_l. now apply pow2_ge_1.
Qed.

Lemma handle_exception_retry e now s :
  0 <= Reconnect.reconnect_attempts (Server.reconnect_manager s) ->
  Reconnect.should_reconnect (Server.reconnect_manager s)
    (Server.error_code_of e) = true ->
  exists s',
    Server.handle_exception e now s = (Exc.Ok Client.Continue, s') /\
    Server.client s' = None /\
    Server.reconnect_manager s'
    = Reconnect.increment_attempts (Server.reconnect_manager s) now /\
    Server.message_task s' = Server.cancel (Server.message_task s) /\
    Server.video_sender_task s' = Server.cancel (Server.video_sender_task s) /\
    Server.video_queue s'
    = Server.video_queue s
      ++ (if Server.task_truthy (Server.video_sender_task s) then [None]
          else []) /\
    Server.websocket_active s' = Server.websocket_active s /\
    Server.osc_manager s' = Server.osc_manager s /\
    Server.websocket s' = Server.websocket s /\
    Server.trace s'
    = Server.trace s
      ++ Server.AskedReconnect (Server.error_code_of e) true
         :: (if Reconnect.code_is (Server.error_code_of e) 1011 then []
             else [Server.Slept
                     (Qmin (Reconnect.INITIAL_RECONNECT_DELAY
                            * Reconnect.RECONNECT_BACKOFF_FACTOR
                              ^ (Reconnect.reconnect_attempts
                                   (Server.reconnect_manager s) + 1))
                        Reconnect.MAX_RECONNECT_DELAY)]).
Proof.
  intros H0 Hsr.
  pose proof (should_reconnect_below_ceiling _ _ Hsr) as Hlt.
  unfold Reconnect.MAX_RECONNECT_ATTEMPTS in Hlt.
  unfold Server.handle_exception.
  unfold Exc.bind at 1. unfold Exc.get at 1. cbv beta iota zeta.
  unfold Exc.bind at 1. unfold Exc.modify at 1. cbv beta iota.
  cbn [Server.reconnect_manager Server.log]. rewrite Hsr.
  unfold Exc.bind at 1. unfold Exc.modify at 1. cbv beta iota.
  unfold Exc.bind at 1. unfold Exc.get at 1. cbv beta iota zeta.
  cbn [Server.reconnect_manager Server.set_reconnect_manager Server.log
       Server.message_task Server.video_sender_task].
  set (code := Server.error_code_of e) in *.
  set (rm := Server.reconnect_manager s) in *.
  assert (Hd : exists d,
             Reconnect.get_reconnect_delay
               (Reconnect.increment_attempts rm now) code = Exc.Ok d /\
             (if Reconnect.code_is code 1011 then d = 0%Q
              else d = Qmin (1 * 2 ^ (Reconnect.reconnect_attempts rm + 1)) 30
                   /\ (d ?= 0)%Q = Gt)).
  { destruct (Reconnect.code_is code 1011) eqn:E.
    - exists 0%Q. unfold Reconnect.get_reconnect_delay. rewrite E. now split.
    - eexists. split; [|split; [reflexivity|]].
      + apply delay_value.
        * intros Heq. apply code_is_true in Heq. congruence.
        * cbn [Reconnect.increment_attempts Reconnect.reconnect_attempts]. lia.
      + cbn [Reconnect.increment_attempts Reconnect.reconnect_attempts].
        apply delay_positive. lia. }
  destruct Hd as (d & Hd & Hval).
  unfold Exc.bind at 1. unfold Exc.lift at 1. rewrite Hd. cbv beta iota.
  destruct s as [osc wsb key lang v ae mc so rm0 cl mt vt act vq pc0 tr].
  cbn [Server.reconnect_manager] in rm. subst rm.
  cbn [Server.osc_manager Server.websocket Server.client Server.message_task
       Server.video_sender_task Server.websocket_active Server.video_queue
       Server.trace Server.reconnect_manager].
  destruct (Reconnect.code_is code 1011).
  - subst d.
    destruct mt, vt, cl; cbn; eexists; (split; [reflexivity|]); cbn;
      repeat (split; try reflexivity); try (symmetry; apply app_nil_r).
  - destruct Hval as [Hv Hpos].
    destruct mt, vt, cl; cbn -[Qcompare Qmin Qpower Qmult];
      rewrite Hpos; cbn -[Qcompare Qmin Qpower Qmult];
      eexists; (split; [reflexivity|]); cbn -[Qcompare Qmin Qpower Qmult];
      rewrite Hv; repeat (split; try reflexivity);
      try (symmetry; apply app_nil_r);
      try (rewrite <- app_assoc; reflexivity).
Qed.

Ltac conj := repeat match goal with |- _ /\ _ => split end.

Lemma finally_cleans s :
  exists s', Server.finally_ s = (Exc.Ok tt, s') /\
             Server.at_ s' = Server.Ended /\ cleaned_up s' /\
             Server.trace s' = Server.trace s /\
             Server.reconnect_manager s' = Server.reconnect_manager s /\
             Server.websocket_active s' = Server.websocket_active s /\
             Server.websocket s' = Server.websocket s /\
             Server.video_queue s' = Server.video_queue s.
Proof.
  destruct s as [osc wsb key lang v ae mc so rm0 cl mt vt act vq pc0 tr].
  unfold cleaned_up.
  destruct cl as [c|].
  - destruct c as [k tl cae cv [w|] ir ic ip omc stoe tst];
      destruct mt, vt; cbn; eexists; (split; [reflexivity|]); cbn;
      conj; try reflexivity; try discriminate;
      intros c0 Hc0; injection Hc0 as <-; cbn; (split; [reflexivity|]);
      intros w0 Hw0; try discriminate; injection Hw0 as <-; cbn;
      destruct (Val.ws_failure w); discriminate.
  - destruct mt, vt; cbn; eexists; (split; [reflexivity|]); cbn;
      conj; try reflexivity; try discriminate.
Qed.

Lemma cleaned_up_log a s : cleaned_up s -> cleaned_up (Server.log a s).
Proof. intros H. exact H. Qed.

Lemma outer_loop_top_ended s :
  Server.at_ (snd (Server.outer_loop_top s)) = Server.Ended ->
  cleaned_up (snd (Server.outer_loop_top s)).
Proof.
  unfold Server.outer_loop_top, Exc.bind, Exc.get.
  destruct (Server.websocket_active s).
  - destruct (Server.client s); cbn; discriminate.
  - intros _. destruct (finally_cleans s) as (s' & -> & _ & H & _). exact H.
Qed.

Lemma guarded_ended body now s :
  Server.at_ (snd (Server.guarded body now s)) = Server.Ended ->
  cleaned_up (snd (Server.guarded body now s)).
Proof.
  unfold Server.guarded.
  assert (Hfin : forall s1, cleaned_up (snd (Server.finally_ s1))).
  { intros s1. destruct (finally_cleans s1) as (s' & -> & _ & H & _).
    exact H. }
  destruct (body s) as [[[|]|e] s1].
  - apply outer_loop_top_ended.
  - intros _. apply Hfin.
  - destruct (Server.handle_exception e now s1) as [[[|]|e'] s2].
    + apply outer_loop_top_ended.
    + intros _. apply Hfin.
    + intros _. unfold Exc.bind, Exc.modify.
      destruct (finally_cleans s2) as (s' & -> & _ & H & _). exact H.
Qed.

Lemma same_place_refl s : same_place s s.
Proof. reflexivity. Qed.

Lemma same_place_trans a b c : same_place a b -> same_place b c -> same_place a c.
Proof. unfold same_place. congruence. Qed.

Lemma reader_turn_same_place b64decode item s :
  Server.at_ (Server.reader_turn b64decode item s) = Server.at_ s.
Proof.
  apply (reader_turn_frame same_place same_place_refl same_place_trans);
    intros; reflexivity.
Qed.

Lemma step_ended b64decode now i s :
  Server.at_ s <> Server.Ended ->
  Server.at_ (Server.step b64decode now i s) = Server.Ended ->
  cleaned_up (Server.step b64decode now i s).
Proof.
  intros Hne. unfold Server.step.
  destruct i as [outcome|r|item|e|m].
  - destruct (Server.at_ s) eqn:Hat; try congruence.
    apply guarded_ended.
  - destruct (Server.at_ s) eqn:Hat; try congruence.
    apply guarded_ended.
  - assert (H : Server.at_ (Server.reader_turn b64decode item s)
                = Server.at_ s) by apply reader_turn_same_place.
    destruct (Server.at_ s) eqn:Hat; congruence.
  - destruct (Server.at_ s) eqn:Hat, (Server.client s); cbn; congruence.
  - destruct (Server.at_ s) eqn:Hat,
      (OSC._mute_callback (Server.osc_manager s)), (Server.client s);
      cbn; congruence.
Qed.

Lemma step_at_ended b64decode now i s :
  Server.at_ s = Server.Ended -> Server.step b64decode now i s = s.
Proof. intros H. unfold Server.step. rewrite H. now destruct i. Qed.

Lemma run_at_ended b64decode inputs :
  forall s, Server.at_ s = Server.Ended -> Server.run b64decode inputs s = s.
Proof.
  induction inputs as [|[now i] inputs IH]; intros s H; [reflexivity|].
  unfold Server.run in *. cbn [fold_left fst snd].
  rewrite (step_at_ended b64decode now i s H). now apply IH.
Qed.

(** X11.  However a session ends -- the browser disconnects, an error is
    not retryable, the attempts are used up, or an exception escapes the
    handler -- the [finally] block has run: the mute callback is
    unregistered, neither the reader task nor the video task is running,
    and the client, if any, is disconnected with its connection closed. *)
Theorem X11_ended_session_is_cleaned_up :
  forall b64decode inputs s,
    Server.at_ s <> Server.Ended ->
    Server.at_ (Server.run b64decode inputs s) = Server.Ended ->
    cleaned_up (Server.run b64decode inputs s).
Proof.
  intros b64decode inputs.
  induction inputs as [|[now i] inputs IH]; intros s Hne Hat.
  - cbn in Hat. congruence.
  - change (Server.run b64decode ((now, i) :: inputs) s)
      with (Server.run b64decode inputs (Server.step b64decode now i s)) in *.
    destruct (Server.at_ (Server.step b64decode now i s)) eqn:E.
    + apply IH; [congruence|exact Hat].
    + apply IH; [congruence|exact Hat].
    + rewrite (run_at_ended b64decode inputs _ E).
      now apply step_ended.
Qed.

Lemma X11_ended_session_is_cleaned_up_witness :
  cleaned_up
    (Server.run no_b64
       [(0%Q, Server.Connected (Exc.Ok Val.fresh_ws));
        (1%Q, Server.Received Server.RecvDisconnect)]
       sample_start).
Proof.
  apply (X11_ended_session_is_cleaned_up no_b64
           [(0%Q, Server.Connected (Exc.Ok Val.fresh_ws));
            (1%Q, Server.Received Server.RecvDisconnect)]
           sample_start).
  - vm_compute. discriminate.
  - vm_compute. reflexivity.
Defined.

(** X12.  A retryable error in the receive loop (the reconnect manager
    answers yes) makes the supervisor count the attempt, cancel the reader
    and the video task, put the [None] sentinel on the video queue, close
    and drop the client, sleep [min(1 * 2 ** attempts, 30)] seconds for
    the attempts counted so far -- the one just made included, so that the
    first retry waits 2 seconds -- or not at all for code 1011, and go
    back to connecting. *)
Theorem X12_retryable_error_backs_off :
  forall b64decode now e s,
    Server.at_ s = Server.Receiving ->
    Server.websocket_active s = true ->
    0 <= Reconnect.reconnect_attempts (Server.reconnect_manager s) ->
    Reconnect.should_reconnect (Server.reconnect_manager s)
      (Server.error_code_of e) = true ->
    let s' :=
      Server.step b64decode now (Server.Received (Server.RecvRaises e)) s in
    Server.at_ s' = Server.Connecting /\
    Server.client s' = None /\
    Server.reconnect_manager s'
    = Reconnect.increment_attempts (Server.reconnect_manager s) now /\
    Server.message_task s' = Server.cancel (Server.message_task s) /\
    Server.video_sender_task s' = Server.cancel (Server.video_sender_task s) /\
    Server.video_queue s'
    = Server.video_queue s
      ++ (if Server.task_truthy (Server.video_sender_task s) then [None]
          else []) /\
    Server.trace s'
    = Server.trace s
      ++ Server.AskedReconnect (Server.error_code_of e) true
         :: (if Reconnect.code_is (Server.error_code_of e) 1011 then []
             else [Server.Slept
                     (Qmin (Reconnect.INITIAL_RECONNECT_DELAY
                            * Reconnect.RECONNECT_BACKOFF_FACTOR
                              ^ (Reconnect.reconnect_attempts
                                   (Server.reconnect_manager s) + 1))
                        Reconnect.MAX_RECONNECT_DELAY)]).
Proof.
  intros b64decode now e s Hat Hact H0 Hsr s'. subst s'.
  unfold Server.step. rewrite Hat. cbn [Server.handle_received].
  unfold Server.guarded, Exc.raise.
  destruct (handle_exception_retry e now s H0 Hsr)
    as (s1 & -> & Hcl & Hrm & Hmt & Hvt & Hq & Hact1 & _ & _ & Htr).
  unfold Server.outer_loop_top, Exc.bind, Exc.get.
  rewrite Hact1, Hact, Hcl. cbn [snd Exc.modify].
  cbn [Server.at_ Server.client Server.reconnect_manager Server.message_task
       Server.video_sender_task Server.trace Server.set_at
       Server.video_queue].
  now rewrite Hcl, Hrm, Hmt, Hvt, Hq, Htr.
Qed.

Lemma X12_retryable_error_backs_off_witness :
  let s' :=
    Server.step no_b64 7
      (Server.Received
         (Server.RecvRaises
            {| Exc.exn_kind_of := Exc.ConnectionClosed;
               Exc.exn_code := Some 1006; Exc.exn_arg0 := None |}))
      sample_streaming in
  Server.at_ s' = Server.Connecting /\
  Server.client s' = None /\
  Server.reconnect_manager s'
  = Reconnect.increment_attempts (Server.reconnect_manager sample_streaming) 7 /\
  Server.message_task s' = Server.Cancelled /\
  Server.video_sender_task s' = Server.Cancelled /\
  Server.video_queue s' = [None] /\
  Server.trace s'
  = Server.trace sample_streaming
    ++ [Server.AskedReconnect (Some 1006) true;
        Server.Slept (Qmin (1 * 2 ^ (0 + 1)) 30)].
Proof.
  apply (X12_retryable_error_backs_off no_b64 7
           {| Exc.exn_kind_of := Exc.ConnectionClosed;
              Exc.exn_code := Some 1006; Exc.exn_arg0 := None |}
           sample_streaming).
  - reflexivity.
  - reflexivity.
  - vm_compute. discriminate.
  - reflexivity.
Defined.

Example first_retry_waits_two_seconds :
  Server.trace
    (Server.step no_b64 7
       (Server.Received
          (Server.RecvRaises
             {| Exc.exn_kind_of := Exc.ConnectionClosed;
                Exc.exn_code := Some 1006; Exc.exn_arg0 := None |}))
       sample_streaming)
  = [Server.Constructed (Val.PyStr (lit "en")) (Val.PyStr (lit "Cherry"))
       (Val.PyBool true);
     Server.AskedReconnect (Some 1006) true;
     Server.Slept 2].
Proof. vm_compute. reflexivity. Qed.

Lemma handle_exception_give_up e now s :
  Reconnect.should_reconnect (Server.reconnect_manager s)
    (Server.error_code_of e) = false ->
  Server.handle_exception e now s
  = (Exc.Ok Client.Stop,
     Server.set_websocket_active false
       (Server.log (Server.AskedReconnect (Server.error_code_of e) false) s)).
Proof.
  intros Hsr. unfold Server.handle_exception.
  unfold Exc.bind at 1. unfold Exc.get at 1. cbv beta iota zeta.
  unfold Exc.bind at 1. unfold Exc.modify at 1. cbv beta iota.
  rewrite Hsr. reflexivity.
Qed.

(** X13.  An error in the receive loop that the reconnect manager refuses
    (a code outside its list, or the attempts used up) ends the session:
    the manager is asked once, no attempt is counted, nothing is slept, no
    sentinel is queued, and the [finally] block runs. *)
Theorem X13_refused_error_ends_session :
  forall b64decode now e s,
    Server.at_ s = Server.Receiving ->
    Reconnect.should_reconnect (Server.reconnect_manager s)
      (Server.error_code_of e) = false ->
    let s' :=
      Server.step b64decode now (Server.Received (Server.RecvRaises e)) s in
    Server.at_ s' = Server.Ended /\
    Server.websocket_active s' = false /\
    Server.reconnect_manager s' = Server.reconnect_manager s /\
    Server.video_queue s' = Server.video_queue s /\
    Server.trace s'
    = Server.trace s ++ [Server.AskedReconnect (Server.error_code_of e) false].
Proof.
  intros b64decode now e s Hat Hsr s'. subst s'.
  unfold Server.step. rewrite Hat. cbn [Server.handle_received].
  unfold Server.guarded, Exc.raise.
  rewrite (handle_exception_give_up e now s Hsr).
  match goal with
  | |- context [Server.finally_ ?s1] =>
      destruct (finally_cleans s1)
        as (s2 & -> & Hat2 & _ & Htr & Hrm & Hact & _ & Hq)
  end.
  cbn [snd]. rewrite Hat2, Htr, Hrm, Hact, Hq. repeat split.
Qed.

Lemma X13_refused_error_ends_session_witness :
  let s' :=
    Server.step no_b64 7
      (Server.Received
         (Server.RecvRaises
            {| Exc.exn_kind_of := Exc.ConnectionClosed;
               Exc.exn_code := Some 1008; Exc.exn_arg0 := None |}))
      sample_streaming in
  Server.at_ s' = Server.Ended /\
  Server.websocket_active s' = false /\
  Server.reconnect_manager s' = Server.reconnect_manager sample_streaming /\
  Server.video_queue s' = Server.video_queue sample_streaming /\
  Server.trace s'
  = Server.trace sample_streaming ++ [Server.AskedReconnect (Some 1008) false].
Proof.
  apply (X13_refused_error_ends_session no_b64 7
           {| Exc.exn_kind_of := Exc.ConnectionClosed;
              Exc.exn_code := Some 1008; Exc.exn_arg0 := None |}
           sample_streaming).
  - reflexivity.
  - reflexivity.
Defined.

(** X14.  A [websocket.disconnect] message from the browser ends the
    session without the reconnect manager being consulted or changed and
    without anything being queued or slept. *)
Theorem X14_browser_disconnect_ends_session :
  forall b64decode now s,
    Server.at_ s = Server.Receiving ->
    let s' := Server.step b64decode now (Server.Received Server.RecvDisconnect) s in
    Server.at_ s' = Server.Ended /\
    Server.websocket_active s' = false /\
    Server.reconnect_manager s' = Server.reconnect_manager s /\
    Server.video_queue s' = Server.video_queue s /\
    Server.websocket s' = Server.websocket s /\
    Server.trace s' = Server.trace s.
Proof.
  intros b64decode now s Hat s'. subst s'.
  unfold Server.step. rewrite Hat. cbn [Server.handle_received].
  unfold Server.guarded, Exc.bind, Exc.modify, Exc.ret.
  match goal with
  | |- context [Server.finally_ ?s1] =>
      destruct (finally_cleans s1)
        as (s2 & -> & Hat2 & _ & Htr & Hrm & Hact & Hws & Hq)
  end.
  cbn [snd]. rewrite Hat2, Htr, Hrm, Hact, Hq, Hws. repeat split.
Qed.

Lemma X14_browser_disconnect_ends_session_witness :
  let s' :=
    Server.step no_b64 7 (Server.Received Server.RecvDisconnect)
      sample_streaming in
  Server.at_ s' = Server.Ended /\
  Server.websocket_active s' = false /\
  Server.reconnect_manager s' = Server.reconnect_manager sample_streaming /\
  Server.video_queue s' = Server.video_queue sample_streaming /\
  Server.websocket s' = Server.websocket sample_streaming /\
  Server.trace s' = Server.trace sample_streaming.
Proof.
  apply (X14_browser_disconnect_ends_session no_b64 7 sample_streaming).
  reflexivity.
Defined.



Lemma handle_exception_continue e now s s2 :
  Server.handle_exception e now s = (Exc.Ok Client.Continue, s2) ->
  Server.client s2 = None.
Proof.
  unfold Server.handle_exception.
  unfold Exc.bind at 1. unfold Exc.get at 1. cbv beta iota zeta.
  unfold Exc.bind at 1. unfold Exc.modify at 1. cbv beta iota.
  cbn [Server.reconnect_manager Server.log].
  destruct (Reconnect.should_reconnect (Server.reconnect_manager s)
              (Server.error_code_of e)); [|discriminate].
  unfold Exc.bind at 1. unfold Exc.modify at 1. cbv beta iota.
  unfold Exc.bind at 1. unfold Exc.get at 1. cbv beta iota zeta.
  unfold Exc.bind at 1. unfold Exc.lift at 1.
  cbn [Server.reconnect_manager Server.set_reconnect_manager Server.log].
  destruct (Reconnect.get_reconnect_delay
              (Reconnect.increment_attempts (Server.reconnect_manager s) now)
              (Server.error_code_of e)) as [d|e0]; [|discriminate].
  destruct s as [osc wsb key lang v ae mc so rm0 cl mt vt act vq pc0 tr].
  destruct mt, vt, cl; cbn -[Qcompare]; destruct (Qcompare d 0);
    cbn; intros H; injection H as <-; reflexivity.
Qed.

Lemma outer_loop_top_fresh s :
  (Server.client s <> None ->
   Reconnect.reconnect_attempts (Server.reconnect_manager s) = 0) ->
  fresh_while_receiving (snd (Server.outer_loop_top s)).
Proof.
  intros H. unfold Server.outer_loop_top, Exc.bind, Exc.get.
  destruct (Server.websocket_active s).
  - destruct (Server.client s); unfold fresh_while_receiving; cbn.
    + intros _. apply H. discriminate.
    + discriminate.
  - destruct (finally_cleans s) as (s' & -> & Hat & _).
    unfold fresh_while_receiving. cbn [snd]. rewrite Hat. discriminate.
Qed.

Lemma guarded_fresh body now s :
  (forall s1, body s = (Exc.Ok Client.Continue, s1) ->
              Reconnect.reconnect_attempts (Server.reconnect_manager s1) = 0) ->
  fresh_while_receiving (snd (Server.guarded body now s)).
Proof.
  intros Hbody. unfold Server.guarded.
  assert (Hfin : forall s1, fresh_while_receiving (snd (Server.finally_ s1))).
  { intros s1. destruct (finally_cleans s1) as (s' & -> & Hat & _).
    unfold fresh_while_receiving. cbn [snd]. rewrite Hat. discriminate. }
  destruct (body s) as [[[|]|e] s1].
  - apply outer_loop_top_fresh. intros _. now apply Hbody.
  - apply Hfin.
  - destruct (Server.handle_exception e now s1) as [[[|]|e'] s2] eqn:He.
    + apply outer_loop_top_fresh. intros Hc.
      now rewrite (handle_exception_continue e now s1 s2 He) in Hc.
    + apply Hfin.
    + unfold Exc.bind, Exc.modify.
      destruct (finally_cleans s2) as (s' & -> & Hat & _).
      unfold fresh_while_receiving. cbn. rewrite Hat. discriminate.
Qed.

Lemma create_client_resets outcome now s s1 :
  Server.create_client outcome now s = (Exc.Ok tt, s1) ->
  Reconnect.reconnect_attempts (Server.reconnect_manager s1) = 0.
Proof.
  unfold Server.create_client. unfold Exc.bind at 1.
  destruct (Server.create_and_connect_client outcome now s) as [[c|e] s0];
    [|discriminate].
  cbn. intros H. injection H as <-. reflexivity.
Qed.

Lemma same_manager_place_refl s : same_manager_place s s.
Proof. split; reflexivity. Qed.

Lemma same_manager_place_trans a b c :
  same_manager_place a b -> same_manager_place b c -> same_manager_place a c.
Proof. unfold same_manager_place. intros [] []. split; congruence. Qed.

Lemma step_fresh b64decode now i s :
  fresh_while_receiving s ->
  fresh_while_receiving (Server.step b64decode now i s).
Proof.
  intros Hs. unfold Server.step.
  destruct i as [outcome|r|item|e|m].
  - destruct (Server.at_ s) eqn:Hat; try exact Hs.
    apply guarded_fresh. intros s1. unfold Exc.bind.
    destruct (Server.create_client outcome now s) as [[[]|e] s0] eqn:Hc;
      [|discriminate].
    cbn. intros H. injection H as <-.
    now apply (create_client_resets outcome now s).
  - destruct (Server.at_ s) eqn:Hat; try exact Hs.
    apply guarded_fresh. intros s1 H.
    pose proof (handle_received_same_manager r now s) as Hrm.
    rewrite H in Hrm. cbn [snd] in Hrm. rewrite Hrm. now apply Hs.
  - assert (H : same_manager_place s (Server.reader_turn b64decode item s)).
    { apply (reader_turn_frame same_manager_place same_manager_place_refl
               same_manager_place_trans); intros; split; reflexivity. }
    destruct H as [Hrm Hat'].
    assert (Hgoal : fresh_while_receiving (Server.reader_turn b64decode item s)).
    { unfold fresh_while_receiving in *. rewrite Hrm, Hat'. exact Hs. }
    destruct (Server.at_ s); [exact Hgoal|exact Hgoal|exact Hs].
  - destruct (Server.at_ s) eqn:Hat, (Server.client s);
      unfold fresh_while_receiving in *; cbn; exact Hs || congruence.
  - destruct (Server.at_ s) eqn:Hat,
      (OSC._mute_callback (Server.osc_manager s)), (Server.client s);
      unfold fresh_while_receiving in *; cbn; exact Hs || congruence.
Qed.

Lemma run_fresh b64decode inputs :
  forall s, fresh_while_receiving s ->
            fresh_while_receiving (Server.run b64decode inputs s).
Proof.
  induction inputs as [|[now i] inputs IH]; intros s H; [exact H|].
  change (Server.run b64decode ((now, i) :: inputs) s)
    with (Server.run b64decode inputs (Server.step b64decode now i s)).
  apply IH. now apply step_fresh.
Qed.

(** X16.  Every successful connection resets the attempt counter, so
    whenever the supervisor of a session is in its receive loop the counter
    is 0, and an error there with a code of the retry list is granted a
    reconnection however many errors the session has been through: the
    ceiling of 5 attempts only ever stops consecutive failures to
    connect. *)
Theorem X16_receive_loop_errors_always_retried :
  forall b64decode inputs osc key lang voice audio mute_control to_osc breaks,
    let s :=
      Server.run b64decode inputs
        (Server.start osc key lang voice audio mute_control to_osc breaks) in
    Server.at_ s = Server.Receiving ->
    Reconnect.reconnect_attempts (Server.reconnect_manager s) = 0 /\
    forall code,
      Reconnect.code_in code [1006; 1011; 1012; 1013; 1014; 1015] = true ->
      Reconnect.should_reconnect (Server.reconnect_manager s) code = true.
Proof.
  intros b64decode inputs osc key lang voice audio mute_control to_osc breaks
         s Hat.
  assert (H0 : Reconnect.reconnect_attempts (Server.reconnect_manager s) = 0).
  { apply (run_fresh b64decode inputs); [|exact Hat].
    unfold fresh_while_receiving. cbn. discriminate. }
  split; [exact H0|].
  intros code Hcode. unfold Reconnect.should_reconnect.
  rewrite H0, Hcode. cbn.
  now destruct (Reconnect.code_is code 1011).
Qed.

Lemma X16_receive_loop_errors_always_retried_witness :
  let s :=
    Server.run no_b64
      [(0%Q, Server.Connected (Exc.Ok Val.fresh_ws));
       (1%Q, Server.Received (Server.RecvRaises closed_1006));
       (3%Q, Server.Connected (Exc.Ok Val.fresh_ws))]
      (Server.start fresh_osc (lit "sk-test") (Val.PyStr (lit "en"))
         (Val.PyStr (lit "Cherry")) (Val.PyBool true) true true false) in
  Reconnect.reconnect_attempts (Server.reconnect_manager s) = 0 /\
  forall code,
    Reconnect.code_in code [1006; 1011; 1012; 1013; 1014; 1015] = true ->
    Reconnect.should_reconnect (Server.reconnect_manager s) code = true.
Proof.
  apply (X16_receive_loop_errors_always_retried no_b64
           [(0%Q, Server.Connected (Exc.Ok Val.fresh_ws));
            (1%Q, Server.Received (Server.RecvRaises closed_1006));
            (3%Q, Server.Connected (Exc.Ok Val.fresh_ws))]
           fresh_osc (lit "sk-test") (Val.PyStr (lit "en"))
           (Val.PyStr (lit "Cherry")) (Val.PyBool true) true true false).
  vm_compute. reflexivity.
Defined.

Lemma supervision_kept_refl s : supervision_kept s s.
Proof. unfold supervision_kept. conj; auto. Qed.

Lemma supervision_kept_trans a b c :
  supervision_kept a b -> supervision_kept b c -> supervision_kept a c.
Proof.
  unfold supervision_kept.
  intros (A1 & A2 & A3 & A4 & A5 & A6 & A7 & A8 & A9)
         (B1 & B2 & B3 & B4 & B5 & B6 & B7 & B8 & B9).
  conj; try congruence. auto.
Qed.

Lemma supervision_kept_on_client A (m : Exc.M Client.WebTranslateClient A) :
  preserves supervision_kept (Server.on_client m).
Proof.
  intros s. unfold Server.on_client.
  destruct (Server.client s) as [c|] eqn:Hc.
  - destruct (m c) as [r c']. unfold supervision_kept. cbn.
    conj; try reflexivity. discriminate.
  - apply supervision_kept_refl.
Qed.

Lemma handle_text_supervision t now s :
  supervision_kept s (snd (Server.handle_text t now s)).
Proof.
  apply (handle_text_frame supervision_kept supervision_kept_refl
           supervision_kept_trans supervision_kept_on_client).
  - intros b s0. unfold supervision_kept. cbn. conj; auto.
  - intros v ae s0. unfold supervision_kept. cbn. conj; auto.
Qed.

Lemma handle_text_returns t now s : fst (Server.handle_text t now s) = Exc.Ok tt.
Proof.
  unfold Server.handle_text, Exc.try_except.
  match goal with
  | |- context [match ?m s with _ => _ end] => destruct (m s) as [[[]|e] s1]
  end; reflexivity.
Qed.

(** X17.  No text frame of the browser -- a pong, text that is not JSON,
    JSON of any shape, a [session.update] that the client fails to send
    because its connection is closed -- ends the session, reaches the
    reconnect manager or disturbs the tasks, the video queue or the
    browser connection: the supervisor goes on receiving with its client. *)
Theorem X17_text_frames_never_end_session :
  forall b64decode now t s,
    Server.at_ s = Server.Receiving ->
    Server.websocket_active s = true ->
    Server.client s <> None ->
    supervision_kept s
      (Server.step b64decode now (Server.Received (Server.RecvText t)) s).
Proof.
  intros b64decode now t s Hat Hact Hcl.
  unfold Server.step. rewrite Hat.
  assert (Hbody : exists s1,
             Server.handle_received (Server.RecvText t) now s
             = (Exc.Ok Client.Continue, s1) /\ supervision_kept s s1).
  { destruct t as [|v|]; cbn [Server.handle_received].
    - exists s. split; [reflexivity|apply supervision_kept_refl].
    - pose proof (handle_text_returns (Server.Json v) now s) as Hr.
      pose proof (handle_text_supervision (Server.Json v) now s) as Hk.
      unfold Exc.bind.
      destruct (Server.handle_text (Server.Json v) now s) as [r s1].
      cbn [fst snd] in *. subst r. exists s1. now split.
    - pose proof (handle_text_returns Server.NotJson now s) as Hr.
      pose proof (handle_text_supervision Server.NotJson now s) as Hk.
      unfold Exc.bind.
      destruct (Server.handle_text Server.NotJson now s) as [r s1].
      cbn [fst snd] in *. subst r. exists s1. now split. }
  destruct Hbody as (s1 & Hb & Hk).
  unfold Server.guarded. rewrite Hb.
  pose proof Hk as (K1 & K2 & K3 & K4 & K5 & K6 & K7 & K8 & K9).
  unfold Server.outer_loop_top, Exc.bind, Exc.get.
  rewrite K5, Hact.
  specialize (K9 Hcl).
  destruct (Server.client s1) as [c1|] eqn:Hc1; [|congruence].
  unfold supervision_kept. cbn.
  conj; try assumption; congruence.
Qed.

Lemma X17_text_frames_never_end_session_witness :
  supervision_kept sample_closed_upstream
    (Server.step no_b64 2 language_update sample_closed_upstream).
Proof.
  apply (X17_text_frames_never_end_session no_b64 2
           (Server.Json
              (Val.PyDict
                 [(lit "type", Val.PyStr (lit "session.update"));
                  (lit "target_language", Val.PyStr (lit "ja"))]))
           sample_closed_upstream).
  - reflexivity.
  - reflexivity.
  - vm_compute. discriminate.
Defined.

Lemma set_at_same s : Server.set_at (Server.at_ s) s = s.
Proof. now destruct s. Qed.

Lemma set_client_same s : Server.set_client (Server.client s) s = s.
Proof. now destruct s. Qed.

Lemma set_ws_same c : Client.set_ws (Client.ws c) c = c.
Proof. now destruct c. Qed.

Lemma continue_at_receiving b64decode now r s s1 c1 :
  Server.at_ s = Server.Receiving ->
  Server.handle_received r now s = (Exc.Ok Client.Continue, s1) ->
  Server.websocket_active s1 = true ->
  Server.client s1 = Some c1 ->
  Server.at_ s1 = Server.Receiving ->
  Server.step b64decode now (Server.Received r) s = s1.
Proof.
  intros Hat Hb Hact Hc Hat1. unfold Server.step. rewrite Hat.
  unfold Server.guarded. rewrite Hb.
  unfold Server.outer_loop_top, Exc.bind, Exc.get. rewrite Hact, Hc.
  cbn. rewrite <- Hat1. apply set_at_same.
Qed.

(** X18.  A binary frame of the browser that is not tagged as audio never
    touches the client or its connection: a frame tagged 1 is appended to
    the video queue without its tag, an empty frame and a frame with any
    other tag are dropped, and the session is otherwise as before. *)
Theorem X18_video_and_unknown_frames :
  forall b64decode now data s c,
    Server.at_ s = Server.Receiving ->
    Server.websocket_active s = true ->
    Server.client s = Some c ->
    hd 1 data <> 0 ->
    Server.step b64decode now (Server.Received (Server.RecvBytes data)) s
    = (if hd 0 data =? 1 then Server.queue_put (Some (tl data)) s else s).
Proof.
  intros b64decode now data s c Hat Hact Hc Htag.
  destruct data as [|tag content]; cbn [hd tl] in *.
  - now apply (continue_at_receiving b64decode now _ s s c).
  - assert (E0 : (tag =? 0) = false) by now apply Z.eqb_neq.
    destruct (tag =? 1) eqn:E1.
    + apply (continue_at_receiving b64decode now _ s _ c); try assumption.
      cbn [Server.handle_received]. rewrite E0, E1. reflexivity.
    + apply (continue_at_receiving b64decode now _ s _ c); try assumption.
      cbn [Server.handle_received]. rewrite E0, E1. reflexivity.
Qed.

Lemma X18_video_and_unknown_frames_witness :
  Server.step no_b64 5 (Server.Received (Server.RecvBytes [1; 255; 216]))
    sample_streaming
  = (if hd 0 [1; 255; 216] =? 1
     then Server.queue_put (Some (tl [1; 255; 216])) sample_streaming
     else sample_streaming).
Proof.
  apply (X18_video_and_unknown_frames no_b64 5 [1; 255; 216] sample_streaming
           sample_client).
  - reflexivity.
  - reflexivity.
  - reflexivity.
  - cbn. lia.
Defined.

(** X19.  An audio frame (tag 0) met by a connected client that is
    forwarding audio puts exactly one message on the upstream connection,
    the frame without its tag, and changes nothing else; when that send
    fails, the failure is handled exactly as a failure of the receive
    itself would be. *)
Theorem X19_audio_frame_forwarded :
  forall b64decode now audio s c w,
    Server.at_ s = Server.Receiving ->
    Server.websocket_active s = true ->
    Server.client s = Some c ->
    Client.is_connected c = true ->
    Client.is_processing_audio c = true ->
    Client.ws c = Some w ->
    Server.step b64decode now (Server.Received (Server.RecvBytes (0 :: audio))) s
    = match Val.ws_failure w with
      | None =>
          Server.set_client
            (Some (Client.set_ws
                     (Some {| Val.ws_failure := None;
                              Val.ws_sent :=
                                Val.ws_sent w
                                ++ [Val.InputAudioBufferAppend now audio] |})
                     c)) s
      | Some e =>
          Server.step b64decode now (Server.Received (Server.RecvRaises e)) s
      end.
Proof.
  intros b64decode now audio s c w Hat Hact Hc Hcon Hproc Hw.
  assert (Hsend :
    Client.send_audio_chunk audio now c
    = match Val.ws_failure w with
      | None =>
          (Exc.Ok tt,
           Client.set_ws
             (Some {| Val.ws_failure := None;
                      Val.ws_sent :=
                        Val.ws_sent w ++ [Val.InputAudioBufferAppend now audio]
                   |}) c)
      | Some e => (Exc.Raise e, c)
      end).
  { unfold Client.send_audio_chunk, Exc.bind, Exc.get. rewrite Hcon, Hproc.
    cbn [negb]. unfold Client.send. rewrite Hw. unfold Val.ws_send.
    destruct (Val.ws_failure w); [|reflexivity].
    rewrite <- Hw. now rewrite set_ws_same. }
  destruct (Val.ws_failure w) as [e|] eqn:Hf.
  - unfold Server.step. rewrite Hat. cbn [Server.handle_received Z.eqb].
    unfold Server.guarded, Exc.bind, Server.on_client, Exc.raise.
    rewrite Hc, Hsend. rewrite <- Hc. now rewrite set_client_same.
  - eapply (continue_at_receiving b64decode now _ s _ _ Hat).
    + cbn [Server.handle_received Z.eqb]. unfold Exc.bind, Server.on_client.
      rewrite Hc, Hsend. reflexivity.
    + exact Hact.
    + reflexivity.
    + exact Hat.
Qed.

Lemma X19_audio_frame_forwarded_witness :
  Server.step no_b64 5 (Server.Received (Server.RecvBytes [0; 12; 34]))
    sample_streaming
  = match Val.ws_failure sample_ws with
    | None =>
        Server.set_client
          (Some (Client.set_ws
                   (Some {| Val.ws_failure := None;
                            Val.ws_sent :=
                              Val.ws_sent sample_ws
                              ++ [Val.InputAudioBufferAppend 5 [12; 34]] |})
                   sample_client)) sample_streaming
    | Some e =>
        Server.step no_b64 5 (Server.Received (Server.RecvRaises e))
          sample_streaming
    end.
Proof.
  apply (X19_audio_frame_forwarded no_b64 5 [12; 34] sample_streaming
           sample_client sample_ws); reflexivity.
Defined.

Lemma audio_dropped_when_paused b64decode now s c audio :
  Server.at_ s = Server.Receiving ->
  Server.websocket_active s = true ->
  Server.client s = Some c ->
  Client.is_processing_audio c = false ->
  Server.step b64decode now (Server.Received (Server.RecvBytes (0 :: audio))) s
  = s.
Proof.
  intros Hat Hact Hc Hp.
  apply (continue_at_receiving b64decode now _ s s c); try assumption.
  cbn [Server.handle_received Z.eqb]. unfold Exc.bind, Server.on_client.
  rewrite Hc. unfold Client.send_audio_chunk, Exc.bind, Exc.get. rewrite Hp.
  destruct (Client.is_connected c); cbn; rewrite <- Hc;
    now rewrite set_client_same.
Qed.

Lemma audio_frames_dropped b64decode frames :
  forall s c,
    Server.at_ s = Server.Receiving ->
    Server.websocket_active s = true ->
    Server.client s = Some c ->
    Client.is_processing_audio c = false ->
    forallb is_audio_frame frames = true ->
    Server.run b64decode frames s = s.
Proof.
  induction frames as [|[now i] frames IH]; intros s c Hat Hact Hc Hp Hall;
    [reflexivity|].
  cbn [forallb] in Hall. apply andb_prop in Hall as [Hi Hall].
  change (Server.run b64decode ((now, i) :: frames) s)
    with (Server.run b64decode frames (Server.step b64decode now i s)).
  unfold is_audio_frame in Hi. cbn [snd] in Hi.
  destruct i as [|[[|tag audio]| | | |]| | |]; try discriminate.
  apply Z.eqb_eq in Hi. subst tag.
  rewrite (audio_dropped_when_paused b64decode now s c audio) by assumption.
  now apply (IH s c).
Qed.

(** X20.  Muting mutes: once the overlay has reported [MuteSelf = true] to
    a session whose mute callback is registered and whose client has mute
    control enabled, audio frames of the browser, however many, change
    nothing -- nothing is sent upstream -- until the overlay reports
    otherwise. *)
Theorem X20_muted_session_drops_audio :
  forall b64decode t frames s c,
    Server.at_ s = Server.Receiving ->
    Server.websocket_active s = true ->
    Server.client s = Some c ->
    OSC._mute_callback (Server.osc_manager s) = true ->
    Client.osc_mute_control_enabled c = true ->
    forallb is_audio_frame frames = true ->
    Server.run b64decode ((t, Server.MuteSelf true) :: frames) s
    = Server.step b64decode t (Server.MuteSelf true) s.
Proof.
  intros b64decode t frames s c Hat Hact Hc Hcb Hmc Hall.
  change (Server.run b64decode ((t, Server.MuteSelf true) :: frames) s)
    with (Server.run b64decode frames
            (Server.step b64decode t (Server.MuteSelf true) s)).
  assert (Hstep :
    Server.step b64decode t (Server.MuteSelf true) s
    = Server.set_client
        (Some (snd (Client.pause_audio_processing t c))) s).
  { unfold Server.step. rewrite Hat, Hcb, Hc.
    unfold Server.handle_mute_change, Exc.bind, Exc.get. now rewrite Hmc. }
  rewrite Hstep.
  apply (audio_frames_dropped b64decode frames _
           (snd (Client.pause_audio_processing t c)));
    try assumption; try reflexivity.
  apply pause_leaves_paused.
Qed.

Lemma X20_muted_session_drops_audio_witness :
  Server.run no_b64
    [(4%Q, Server.MuteSelf true);
     (5%Q, Server.Received (Server.RecvBytes [0; 12; 34]));
     (6%Q, Server.Received (Server.RecvBytes [0; 56]))]
    sample_streaming
  = Server.step no_b64 4 (Server.MuteSelf true) sample_streaming.
Proof.
  apply (X20_muted_session_drops_audio no_b64 4%Q
           [(5%Q, Server.Received (Server.RecvBytes [0; 12; 34]));
            (6%Q, Server.Received (Server.RecvBytes [0; 56]))]
           sample_streaming sample_client); reflexivity.
Defined.

Lemma set_websocket_same s : Server.set_websocket (Server.websocket s) s = s.
Proof. now destruct s. Qed.

Ltac eval_str_tests :=
  repeat match goal with
         | |- context [Val.str_eqb ?a ?b] =>
             let v := eval vm_compute in (Val.str_eqb a b) in
             change (Val.str_eqb a b) with v
         end.









Example partial_text_sample :
  partial_text (lit "Good") (lit " morn") = lit "Good ... [morn]".
Proof. reflexivity. Qed.

(* ------------------------------------------------------------------ *)
(** ** The upstream client *)
(* ------------------------------------------------------------------ *)

(** X24.  [connect] returns normally exactly when it leaves the client
    marked connected, which is when the connection was made and took the
    session configuration as its first message; when making the
    connection or sending the configuration fails, the client is marked
    disconnected and that very exception is raised again -- in the second
    case the connection object stays on the client, unclosed. *)
Theorem X24_connect_outcomes :
  forall outcome now c,
    let r := fst (Client.connect outcome now c) in
    let c' := snd (Client.connect outcome now c) in
    (r = Exc.Ok tt <-> Client.is_connected c' = true) /\
    match outcome with
    | Exc.Raise e => r = Exc.Raise e /\ c' = Client.set_is_connected false c
    | Exc.Ok w =>
        match Val.ws_failure w with
        | None =>
            r = Exc.Ok tt /\
            c' = Client.set_ws
                   (Some {| Val.ws_failure := None;
                            Val.ws_sent :=
                              Val.ws_sent w ++ [Client.session_config c now] |})
                   (Client.set_is_connected true c)
        | Some e =>
            r = Exc.Raise e /\
            c' = Client.set_is_connected false (Client.set_ws (Some w) c)
        end
    end.
Proof.
  intros outcome now c.
  destruct outcome as [w|e].
  - destruct w as [[e|] sent]; cbn; split; try (split; reflexivity);
      split; congruence.
  - cbn. split; [split; congruence|split; reflexivity].
Qed.

(** X25.  [close] never fails and is idempotent, and a closed client is
    inert for everything the session streams to it: audio chunks, image
    frames (empty ones included, which a connected client rejects) and
    silence are dropped without an exception and without a change.  A
    session update is not guarded in this way: on a closed client that
    had a connection it raises. *)
Theorem X25_closed_client_is_inert :
  forall c now,
    let c1 := snd (Client.close c) in
    fst (Client.close c) = Exc.Ok tt /\
    Client.close c1 = (Exc.Ok tt, c1) /\
    (forall audio, Client.send_audio_chunk audio now c1 = (Exc.Ok tt, c1)) /\
    (forall image, Client.send_image_frame image now c1 = (Exc.Ok tt, c1)) /\
    (forall seconds, Client._send_silence seconds now c1 = (Exc.Ok tt, c1)) /\
    (forall lang voice audio,
        Client.ws c <> None ->
        fst (Client.update_session lang voice audio now c1) <> Exc.Ok tt).
Proof.
  intros c now c1. subst c1.
  destruct c as [k tl cae cv w ir ic ip omc stoe tst].
  split; [reflexivity|]. split; [|split; [|split; [|split]]].
  - destruct w as [[[e|] sent]|]; reflexivity.
  - intros audio. destruct w; reflexivity.
  - intros image. destruct w; reflexivity.
  - intros seconds. destruct w; reflexivity.
  - intros lang voice audio Hw. cbn in Hw. destruct w as [w|]; [|congruence].
    destruct w as [[e|] sent]; cbn; discriminate.
Qed.

Lemma X25_closed_client_is_inert_witness :
  let c1 := snd (Client.close sample_client) in
  fst (Client.close sample_client) = Exc.Ok tt /\
  Client.close c1 = (Exc.Ok tt, c1) /\
  (forall audio, Client.send_audio_chunk audio 9 c1 = (Exc.Ok tt, c1)) /\
  (forall image, Client.send_image_frame image 9 c1 = (Exc.Ok tt, c1)) /\
  (forall seconds, Client._send_silence seconds 9 c1 = (Exc.Ok tt, c1)) /\
  (forall lang voice audio,
      Client.ws sample_client <> None ->
      fst (Client.update_session lang voice audio 9 c1) <> Exc.Ok tt).
Proof. apply (X25_closed_client_is_inert sample_client 9). Defined.

(* ------------------------------------------------------------------ *)
(** ** The video sender task *)
(* ------------------------------------------------------------------ *)

Lemma video_iteration_frame_sent f now c w :
  Client.is_connected c = true ->
  Client.ws c = Some w ->
  VideoSender.video_iteration (Some f) now c
  = (Exc.Ok Client.Continue,
     match Val.ws_failure w, f with
     | None, _ :: _ =>
         Client.set_ws
           (Some {| Val.ws_failure := None;
                    Val.ws_sent :=
                      Val.ws_sent w ++ [Val.InputImageBufferAppend now f] |}) c
     | _, _ => c
     end).
Proof.
  intros Hcon Hw.
  unfold VideoSender.video_iteration, Exc.try_except,
    Client.send_image_frame.
  unfold Exc.bind, Exc.get.
  rewrite Hcon. cbn [negb].
  destruct f as [|b f].
  - cbn. now destruct (Val.ws_failure w).
  - unfold Client.send. rewrite Hw. unfold Val.ws_send.
    destruct (Val.ws_failure w) eqn:E; cbn; [|reflexivity].
    rewrite <- Hw. now rewrite set_ws_same.
Qed.

Lemma set_ws_healthy c w :
  Client.ws c = Some w ->
  Val.ws_failure w = None ->
  Client.set_ws
    (Some {| Val.ws_failure := None; Val.ws_sent := Val.ws_sent w ++ [] |}) c
  = c.
Proof.
  intros Hw E. rewrite app_nil_r. destruct w as [wf sent]. cbn in E. subst wf.
  cbn [Val.ws_sent]. rewrite <- Hw. apply set_ws_same.
Qed.

Lemma video_sender_connected queue :
  forall c w,
    Client.is_connected c = true ->
    Client.ws c = Some w ->
    VideoSender.stream_video_data_task queue c
    = (Exc.Ok (after_sentinel queue),
       match Val.ws_failure w with
       | None =>
           Client.set_ws
             (Some {| Val.ws_failure := None;
                      Val.ws_sent :=
                        Val.ws_sent w
                        ++ image_messages (before_sentinel queue) |}) c
       | Some _ => c
       end).
Proof.
  induction queue as [|[now [f|]] queue IH]; intros c w Hcon Hw.
  - cbn. destruct (Val.ws_failure w) eqn:E; [reflexivity|].
    now rewrite (set_ws_healthy c w Hw E).
  - cbn [VideoSender.stream_video_data_task]. unfold Exc.bind at 1.
    rewrite (video_iteration_frame_sent f now c w Hcon Hw).
    destruct (Val.ws_failure w) as [e|] eqn:E.
    + rewrite (IH c w Hcon Hw). now rewrite E.
    + destruct f as [|b f].
      * rewrite (IH c w Hcon Hw). now rewrite E.
      * erewrite IH; [|exact Hcon|reflexivity]. cbn [Val.ws_failure].
        cbn [after_sentinel before_sentinel]. f_equal.
        unfold image_messages. cbn [filter snd fst map Val.ws_sent].
        rewrite <- app_assoc. now destruct c.
  - cbn. destruct (Val.ws_failure w) eqn:E; [reflexivity|].
    now rewrite (set_ws_healthy c w Hw E).
Qed.

Lemma video_sender_disconnected queue :
  forall c,
    Client.is_connected c = false ->
    VideoSender.stream_video_data_task queue c
    = (Exc.Ok (after_sentinel queue), c).
Proof.
  induction queue as [|[now [f|]] queue IH]; intros c Hcon; try reflexivity.
  cbn [VideoSender.stream_video_data_task]. unfold Exc.bind at 1.
  unfold VideoSender.video_iteration, Exc.try_except,
    Client.send_image_frame.
  unfold Exc.bind, Exc.get.
  rewrite Hcon. cbn. now apply IH.
Qed.

Lemma video_sender_no_connection queue :
  forall c,
    Client.ws c = None ->
    VideoSender.stream_video_data_task queue c
    = (Exc.Ok (after_sentinel queue), c).
Proof.
  induction queue as [|[now [f|]] queue IH]; intros c Hw; try reflexivity.
  cbn [VideoSender.stream_video_data_task]. unfold Exc.bind at 1.
  assert (H : VideoSender.video_iteration (Some f) now c
              = (Exc.Ok Client.Continue, c)).
  { unfold VideoSender.video_iteration, Exc.try_except,
      Client.send_image_frame.
    unfold Exc.bind, Exc.get.
    destruct (Client.is_connected c); cbn [negb]; [|reflexivity].
    destruct f; [reflexivity|]. unfold Client.send. now rewrite Hw. }
  rewrite H. now apply IH.
Qed.

(** X26.  The video sender task never fails and never sends anything but
    image frames: run on what its queue yields, it takes every item up to
    the first [None] sentinel, leaves what is behind the sentinel in the
    queue, and returns normally.  On a connected client with a healthy
    connection the frames taken go upstream in queue order, one message
    each, except the empty ones, whose rejection is swallowed; on a
    client that is marked disconnected, has no connection or has a closed
    one, the frames taken are lost without a trace and the task goes on
    taking. *)
Theorem X26_video_sender :
  forall queue c,
    VideoSender.stream_video_data_task queue c
    = (Exc.Ok (after_sentinel queue),
       match Client.is_connected c, Client.ws c with
       | true, Some w =>
           match Val.ws_failure w with
           | None =>
               Client.set_ws
                 (Some {| Val.ws_failure := None;
                          Val.ws_sent :=
                            Val.ws_sent w
                            ++ image_messages (before_sentinel queue) |})
                 c
           | Some _ => c
           end
       | _, _ => c
       end).
Proof.
  intros queue c.
  destruct (Client.is_connected c) eqn:Hcon.
  - destruct (Client.ws c) as [w|] eqn:Hw.
    + apply (video_sender_connected queue c w Hcon Hw).
    + now apply video_sender_no_connection.
  - now apply video_sender_disconnected.
Qed.

Example video_sender_sample :
  option_map Val.ws_sent
    (Client.ws
       (snd (VideoSender.stream_video_data_task
               [(1%Q, Some [255; 216]); (2%Q, Some []); (3%Q, Some [255]);
                (4%Q, None); (5%Q, Some [7])]
               sample_client)))
  = Some (Val.ws_sent sample_ws
          ++ [Val.InputImageBufferAppend 1 [255; 216];
              Val.InputImageBufferAppend 3 [255]]).
Proof. reflexivity. Qed.

(* ------------------------------------------------------------------ *)
(** ** The end of the browser side *)
(* ------------------------------------------------------------------ *)

Lemma handle_exception_keeps_active e now s s2 :
  Server.handle_exception e now s = (Exc.Ok Client.Continue, s2) ->
  Server.websocket_active s2 = Server.websocket_active s.
Proof.
  unfold Server.handle_exception.
  unfold Exc.bind at 1. unfold Exc.get at 1. cbv beta iota zeta.
  unfold Exc.bind at 1. unfold Exc.modify at 1. cbv beta iota.
  cbn [Server.reconnect_manager Server.log].
  destruct (Reconnect.should_reconnect (Server.reconnect_manager s)
              (Server.error_code_of e)); [|discriminate].
  unfold Exc.bind at 1. unfold Exc.modify at 1. cbv beta iota.
  unfold Exc.bind at 1. unfold Exc.get at 1. cbv beta iota zeta.
  unfold Exc.bind at 1. unfold Exc.lift at 1.
  cbn [Server.reconnect_manager Server.set_reconnect_manager Server.log].
  destruct (Reconnect.get_reconnect_delay
              (Reconnect.increment_attempts (Server.reconnect_manager s) now)
              (Server.error_code_of e)) as [d|e0]; [|discriminate].
  destruct s as [osc wsb key lang v ae mc so rm0 cl mt vt act vq pc0 tr].
  destruct mt, vt, cl; cbn -[Qcompare]; destruct (Qcompare d 0);
    cbn; intros H; injection H as <-; reflexivity.
Qed.

Lemma handle_received_stays_inactive r now s :
  Server.websocket_active s = false ->
  Server.websocket_active (snd (Server.handle_received r now s)) = false.
Proof.
  intros Hact.
  destruct r as [[|tag content]|[|v|]| | |e]; cbn [Server.handle_received];
    try exact Hact.
  - unfold Exc.bind.
    destruct (tag =? 0).
    + unfold Server.on_client. destruct (Server.client s) as [c|]; [|exact Hact].
      destruct (Client.send_audio_chunk content now c) as [[[]|e] c'];
        exact Hact.
    + destruct (tag =? 1); exact Hact.
  - unfold Exc.bind.
    pose proof (handle_text_supervision (Server.Json v) now s)
      as (_ & _ & _ & _ & K & _).
    destruct (Server.handle_text (Server.Json v) now s) as [[[]|e] s1];
      cbn in *; congruence.
  - unfold Exc.bind.
    pose proof (handle_text_supervision Server.NotJson now s)
      as (_ & _ & _ & _ & K & _).
    destruct (Server.handle_text Server.NotJson now s) as [[[]|e] s1];
      cbn in *; congruence.
Qed.

(** X27.  Once the browser side of a session is marked inactive -- which
    a failed delivery of audio to the browser does -- whatever the pending
    receive gives next, a frame, a disconnect or an exception, retryable
    or not, ends the session. *)
Theorem X27_inactive_session_ends_at_next_receive :
  forall b64decode now r s,
    Server.at_ s = Server.Receiving ->
    Server.websocket_active s = false ->
    Server.at_ (Server.step b64decode now (Server.Received r) s)
    = Server.Ended.
Proof.
  intros b64decode now r s Hat Hact.
  unfold Server.step. rewrite Hat. unfold Server.guarded.
  assert (Hfin : forall s1, Server.at_ (snd (Server.finally_ s1))
                            = Server.Ended).
  { intros s1. destruct (finally_cleans s1) as (s' & -> & H & _). exact H. }
  assert (Htop : forall s1, Server.websocket_active s1 = false ->
                            Server.at_ (snd (Server.outer_loop_top s1))
                            = Server.Ended).
  { intros s1 H1. unfold Server.outer_loop_top, Exc.bind, Exc.get.
    rewrite H1. apply Hfin. }
  pose proof (handle_received_stays_inactive r now s Hact) as H1.
  destruct (Server.handle_received r now s) as [[[|]|e] s1]; cbn [snd] in H1.
  - now apply Htop.
  - apply Hfin.
  - destruct (Server.handle_exception e now s1) as [[[|]|e'] s2] eqn:He.
    + apply Htop.
      now rewrite (handle_exception_keeps_active e now s1 s2 He).
    + apply Hfin.
    + unfold Exc.bind, Exc.modify.
      destruct (finally_cleans s2) as (s' & -> & H & _). exact H.
Qed.

Lemma X27_inactive_session_ends_at_next_receive_witness :
  Server.at_
    (Server.step no_b64 8 (Server.Received (Server.RecvBytes [0; 1; 2]))
       (Server.set_websocket_active false sample_streaming))
  = Server.Ended.
Proof.
  apply (X27_inactive_session_ends_at_next_receive no_b64 8
           (Server.RecvBytes [0; 1; 2])
           (Server.set_websocket_active false sample_streaming));
    reflexivity.
Defined.

(** X28.  Synthesized audio -- an event of type [response.audio.delta]
    with a non-empty payload that decodes, met by a client with audio
    enabled -- is passed to the browser as one binary message and to
    nothing else.  When that send fails the session is marked inactive
    (unlike a failed send of text, which nobody looks at); the reader
    itself goes on in both cases. *)
Theorem X28_audio_delta_reaches_browser :
  forall b64decode d audio s c,
    Server.message_task s = Server.Running ->
    Server.client s = Some c ->
    Server.websocket_active s = true ->
    Val.dict_get d (lit "type") Val.PyNone
    = Val.PyStr (lit "response.audio.delta") ->
    Val.val_truthy (Client.audio_enabled c) = true ->
    Val.val_truthy (Val.dict_get d (lit "delta") (Val.PyStr [])) = true ->
    b64decode (Val.dict_get d (lit "delta") (Val.PyStr [])) = Exc.Ok audio ->
    Server.reader_turn b64decode
      (Client.StreamMessage (Some (Val.PyDict d))) s
    = match Server.browser_failure (Server.websocket s) with
      | None =>
          Server.set_websocket
            {| Server.browser_failure := None;
               Server.browser_sent :=
                 Server.browser_sent (Server.websocket s)
                 ++ [Server.SendBytes audio] |} s
      | Some _ => Server.set_websocket_active false s
      end.
Proof.
  intros b64decode d audio s c Ht Hc Hact Hty Hae Hdelta Hdec.
  unfold Server.reader_turn. rewrite Ht, Hc. cbv zeta.
  unfold Client.reader_iteration, Exc.try_except, Client.handle_event,
    Exc.bind, Exc.lift, Exc.zoom, Exc.get, Exc.when.
  cbn [Val.val_get Exc.view Exc.update fst snd]. rewrite Hty.
  cbn [Val.val_is_str]. eval_str_tests. cbv beta iota. cbn [andb].
  rewrite Hae, Hdelta, Hdec. cbn [fst snd].
  unfold Server.on_audio_received, Exc.bind, Exc.get, Exc.try_except.
  rewrite Hact. cbn [negb]. unfold Server.browser_send.
  destruct (Server.browser_failure (Server.websocket s)) eqn:E; cbn;
    rewrite <- Hc; destruct s as [osc [bf bs] ? ? ? ? ? ? ? ? ? ? ? ? ? ?];
    cbn in *; subst; reflexivity.
Qed.

Lemma X28_audio_delta_reaches_browser_witness :
  Server.reader_turn sample_b64
    (Client.StreamMessage
       (Some (Val.PyDict
                [(lit "type", Val.PyStr (lit "response.audio.delta"));
                 (lit "delta", Val.PyStr (lit "AQI="))])))
    sample_broken_browser
  = match Server.browser_failure (Server.websocket sample_broken_browser) with
    | None =>
        Server.set_websocket
          {| Server.browser_failure := None;
             Server.browser_sent :=
               Server.browser_sent (Server.websocket sample_broken_browser)
               ++ [Server.SendBytes [1; 2]] |} sample_broken_browser
    | Some _ => Server.set_websocket_active false sample_broken_browser
    end.
Proof.
  apply (X28_audio_delta_reaches_browser sample_b64
           [(lit "type", Val.PyStr (lit "response.audio.delta"));
            (lit "delta", Val.PyStr (lit "AQI="))]
           [1; 2] sample_broken_browser sample_client); reflexivity.
Defined.

Example broken_browser_ends_session :
  Server.at_
    (Server.run sample_b64
       [(1%Q, Server.FromUpstream
                (Client.StreamMessage
                   (Some (Val.PyDict
                            [(lit "type",
                              Val.PyStr (lit "response.audio.delta"));
                             (lit "delta", Val.PyStr (lit "AQI="))]))));
        (2%Q, Server.Received (Server.RecvBytes [0; 1; 2]))]
       sample_broken_browser)
  = Server.Ended.
Proof. reflexivity. Qed.

(* ------------------------------------------------------------------ *)
(** ** A service that refuses connections *)
(* ------------------------------------------------------------------ *)

Lemma should_reconnect_retryable rm e :
  retryable e = true ->
  Reconnect.should_reconnect rm (Server.error_code_of e)
  = (Reconnect.reconnect_attempts rm <? 5).
Proof.
  intros H. unfold Reconnect.should_reconnect, Reconnect.MAX_RECONNECT_ATTEMPTS.
  unfold retryable in H. rewrite H.
  destruct (Z.geb_spec (Reconnect.reconnect_attempts rm) 5);
    destruct (Z.ltb_spec (Reconnect.reconnect_attempts rm) 5); try lia;
    try reflexivity.
  now destruct (Reconnect.code_is (Server.error_code_of e) 1011).
Qed.

Lemma create_client_fails e now s :
  truthy (Server.api_key s) = true ->
  Server.create_client (Exc.Raise e) now s
  = (Exc.Raise e,
     Server.log (Server.Constructed (Server.target_language s) (Server.voice s)
                   (Server.audio_enabled s)) s).
Proof.
  intros Hkey.
  unfold Server.create_client, Server.create_and_connect_client,
    Client.__init__, Exc.bind, Exc.get, Exc.modify, Exc.lift.
  cbn [Server.api_key Server.log]. rewrite Hkey. reflexivity.
Qed.

Lemma handle_exception_keeps_key e now s :
  Server.api_key (snd (Server.handle_exception e now s)) = Server.api_key s.
Proof.
  apply (handle_exception_frame
           (fun s s' => Server.api_key s' = Server.api_key s));
    try (intros; reflexivity).
  - intros a b c H1 H2. congruence.
  - intros A m s0. unfold Server.on_client.
    destruct (Server.client s0); [destruct (m w)|]; reflexivity.
Qed.

Lemma failed_connect_retried b64decode now e k s :
  retryable e = true ->
  0 <= k < 5 ->
  connecting_again k s ->
  connecting_again (k + 1)
    (Server.step b64decode now (Server.Connected (Exc.Raise e)) s).
Proof.
  intros He Hk (Hat & Hact & Hkey & Hatt).
  unfold Server.step. rewrite Hat. unfold Server.guarded. unfold Exc.bind at 1.
  rewrite (create_client_fails e now s Hkey). cbv beta iota.
  set (s1 := Server.log _ s).
  assert (Hsr : Reconnect.should_reconnect (Server.reconnect_manager s1)
                  (Server.error_code_of e) = true).
  { rewrite (should_reconnect_retryable _ e He). subst s1. cbn.
    rewrite Hatt. apply Z.ltb_lt. lia. }
  assert (H0 : 0 <= Reconnect.reconnect_attempts (Server.reconnect_manager s1))
    by (subst s1; cbn; lia).
  pose proof (handle_exception_keeps_key e now s1) as Hk1.
  destruct (handle_exception_retry e now s1 H0 Hsr)
    as (s2 & Heq & Hcl & Hrm & _ & _ & _ & Hact2 & _).
  rewrite Heq in Hk1 |- *. cbn [snd] in Hk1.
  unfold Server.outer_loop_top, Exc.bind, Exc.get.
  rewrite Hact2. subst s1. cbn [Server.websocket_active Server.log].
  rewrite Hact, Hcl. cbn.
  unfold connecting_again.
  cbn [Server.at_ Server.websocket_active Server.api_key
       Server.reconnect_manager Server.set_at snd Exc.modify].
  rewrite Hact2, Hk1, Hrm. cbn. conj; auto. lia.
Qed.

Lemma failed_connect_refused b64decode now e s :
  retryable e = true ->
  connecting_again 5 s ->
  let s' := Server.step b64decode now (Server.Connected (Exc.Raise e)) s in
  Server.at_ s' = Server.Ended /\
  Reconnect.reconnect_attempts (Server.reconnect_manager s') = 5.
Proof.
  intros He (Hat & Hact & Hkey & Hatt) s'.
  assert (Hs' : exists s2,
             s' = s2 /\ Server.at_ s2 = Server.Ended /\
             Server.reconnect_manager s2 = Server.reconnect_manager s).
  { subst s'. unfold Server.step. rewrite Hat.
    unfold Server.guarded. unfold Exc.bind at 1.
    rewrite (create_client_fails e now s Hkey). cbv beta iota.
    set (s1 := Server.log _ s).
    assert (Hsr : Reconnect.should_reconnect (Server.reconnect_manager s1)
                    (Server.error_code_of e) = false).
    { rewrite (should_reconnect_retryable _ e He). subst s1. cbn.
      rewrite Hatt. reflexivity. }
    rewrite (handle_exception_give_up e now s1 Hsr).
    match goal with
    | |- context [Server.finally_ ?s3] =>
        destruct (finally_cleans s3) as (s2 & -> & Hat2 & _ & _ & Hrm & _)
    end.
    exists s2. cbn [snd]. split; [reflexivity|]. split; [exact Hat2|].
    rewrite Hrm. reflexivity. }
  destruct Hs' as (s2 & -> & Hat2 & Hrm). split; [exact Hat2|].
  now rewrite Hrm.
Qed.

Lemma failed_connects_count b64decode fails :
  forall k s,
    forallb (fun te => retryable (snd te)) fails = true ->
    0 <= k ->
    k + Z.of_nat (length fails) <= 5 ->
    connecting_again k s ->
    connecting_again (k + Z.of_nat (length fails))
      (Server.run b64decode (failed_connects fails) s).
Proof.
  induction fails as [|[now e] fails IH]; intros k s Hall Hk Hlen Hs.
  - cbn. now rewrite Z.add_0_r.
  - cbn [forallb snd] in Hall. apply andb_prop in Hall as [He Hall].
    cbn [length] in *.
    change (Server.run b64decode (failed_connects ((now, e) :: fails)) s)
      with (Server.run b64decode (failed_connects fails)
              (Server.step b64decode now (Server.Connected (Exc.Raise e)) s)).
    replace (k + Z.of_nat (S (length fails)))
      with ((k + 1) + Z.of_nat (length fails)) by lia.
    apply IH; [exact Hall|lia|lia|].
    apply failed_connect_retried; [exact He|lia|exact Hs].
Qed.

(** X29.  A service that keeps refusing the connection uses the attempts
    up: from the start of a session, after any number of consecutive
    failed connection attempts whose error codes are on the retry list,
    the attempt counter is the number of failures, capped at 5; the
    session is still connecting after up to five failures and has ended
    from the sixth on, which is refused. *)
Theorem X29_refused_connections_exhaust_attempts :
  forall b64decode fails osc key lang voice audio mute_control to_osc breaks,
    truthy key = true ->
    forallb (fun te => retryable (snd te)) fails = true ->
    let s :=
      Server.run b64decode (failed_connects fails)
        (Server.start osc key lang voice audio mute_control to_osc breaks) in
    Reconnect.reconnect_attempts (Server.reconnect_manager s)
    = Z.min (Z.of_nat (length fails)) 5 /\
    Server.at_ s
    = (if Z.of_nat (length fails) <=? 5 then Server.Connecting
       else Server.Ended).
Proof.
  intros b64decode fails osc key lang voice audio mute_control to_osc breaks
         Hkey Hall s.
  set (s0 := Server.start osc key lang voice audio mute_control to_osc breaks)
    in *.
  assert (Hs0 : connecting_again 0 s0) by (unfold connecting_again; cbn; auto).
  destruct (Z.leb_spec (Z.of_nat (length fails)) 5) as [Hle|Hgt].
  - destruct (failed_connects_count b64decode fails 0 s0 Hall ltac:(lia)
                ltac:(lia) Hs0) as (Hat & _ & _ & Hatt).
    fold s in Hat, Hatt. split; [rewrite Hatt; lia|exact Hat].
  - assert (Hsplit : fails = firstn 5 fails ++ skipn 5 fails)
      by (symmetry; apply firstn_skipn).
    assert (Hlen5 : length (firstn 5 fails) = 5%nat)
      by (rewrite length_firstn; lia).
    destruct (skipn 5 fails) as [|[now e] rest] eqn:Hrest.
    { rewrite app_nil_r in Hsplit. rewrite Hsplit in Hgt. lia. }
    rewrite Hsplit in Hall. rewrite forallb_app in Hall.
    apply andb_prop in Hall as [Hall1 Hall2].
    cbn [forallb snd] in Hall2. apply andb_prop in Hall2 as [He _].
    pose proof (failed_connects_count b64decode (firstn 5 fails) 0 s0 Hall1
                  ltac:(lia) ltac:(lia) Hs0) as H5.
    rewrite Hlen5 in H5. cbn [Z.add Z.of_nat Pos.of_succ_nat Pos.succ] in H5.
    assert (Hrun : s = Server.run b64decode (failed_connects rest)
                         (Server.step b64decode now
                            (Server.Connected (Exc.Raise e))
                            (Server.run b64decode
                               (failed_connects (firstn 5 fails)) s0))).
    { subst s. rewrite Hsplit at 1. unfold failed_connects, Server.run.
      rewrite map_app, fold_left_app. reflexivity. }
    destruct (failed_connect_refused b64decode now e _ He H5) as [Hat Hatt].
    rewrite Hrun, (run_at_ended b64decode _ _ Hat).
    split; [rewrite Hatt; lia|exact Hat].
Qed.

Lemma X29_refused_connections_exhaust_attempts_witness :
  let s :=
    Server.run no_b64
      (failed_connects
         [(1%Q, closed_1006); (3%Q, closed_1006); (7%Q, closed_1006);
          (15%Q, closed_1006); (31%Q, closed_1006); (61%Q, closed_1006)])
      (Server.start fresh_osc (lit "sk-test") (Val.PyStr (lit "en"))
         (Val.PyStr (lit "Cherry")) (Val.PyBool true) true true false) in
  Reconnect.reconnect_attempts (Server.reconnect_manager s)
  = Z.min (Z.of_nat (length
                       [(1%Q, closed_1006); (3%Q, closed_1006);
                        (7%Q, closed_1006); (15%Q, closed_1006);
                        (31%Q, closed_1006); (61%Q, closed_1006)])) 5 /\
  Server.at_ s
  = (if Z.of_nat (length
                    [(1%Q, closed_1006); (3%Q, closed_1006);
                     (7%Q, closed_1006); (15%Q, closed_1006);
                     (31%Q, closed_1006); (61%Q, closed_1006)]) <=? 5
     then Server.Connecting else Server.Ended).
Proof.
  apply (X29_refused_connections_exhaust_attempts no_b64
           [(1%Q, closed_1006); (3%Q, closed_1006); (7%Q, closed_1006);
            (15%Q, closed_1006); (31%Q, closed_1006); (61%Q, closed_1006)]
           fresh_osc (lit "sk-test") (Val.PyStr (lit "en"))
           (Val.PyStr (lit "Cherry")) (Val.PyBool true) true true false).
  - reflexivity.
  - reflexivity.
Defined.

Example refused_connections_sleeps :
  filter (fun a => match a with Server.Slept _ => true | _ => false end)
    (Server.trace
       (Server.run no_b64
          (failed_connects
             [(1%Q, closed_1006); (3%Q, closed_1006); (7%Q, closed_1006);
              (15%Q, closed_1006); (31%Q, closed_1006); (61%Q, closed_1006)])
          sample_start))
  = [Server.Slept 2; Server.Slept 4; Server.Slept 8; Server.Slept 16;
     Server.Slept 30].
Proof. vm_compute. reflexivity. Qed.
